(** * Datadog forwarder subscriptions: a shallow embedding of [forwarder.ts]

    The module under study decides which CloudWatch log groups of a compiled
    CloudFormation template receive a subscription filter pointing at the
    Datadog forwarder.  It reads untyped JavaScript data (the template's
    resources, the provider's [logs] block), calls two AWS services and
    mutates the template in place.

    The embedding keeps these three aspects:
    - JavaScript data is a tree of [value]s, property reads on [undefined]
      and [null] throw a [TypeError];
    - the template's [Resources] object is an insertion-ordered association
      list living in a [World], together with the log of AWS requests issued
      so far;
    - every [async] function is a computation in the monad [M], a state and
      exception monad over [World] (awaits are sequential, so sequencing in
      [M] is the order of the source). *)

From Stdlib Require Import String Ascii List ZArith Bool Lia.
Import ListNotations.
Local Open Scope list_scope.
Local Open Scope string_scope.
Local Set Warnings "-register-all".

(** ** JavaScript values *)

Module Js.

(** Plain data as YAML or JSON produces it.  Numbers are kept as integers:
    the module only ever asks for their [typeof]. *)
Inductive value : Type :=
| VUndefined
| VNull
| VBool (b : bool)
| VNum (n : Z)
| VStr (s : string)
| VArr (items : list value)
| VObj (fields : list (string * value)).

(** The [typeof] operator. *)
Definition typeof (v : value) : string :=
  match v with
  | VUndefined => "undefined"
  | VNull => "object"
  | VBool _ => "boolean"
  | VNum _ => "number"
  | VStr _ => "string"
  | VArr _ => "object"
  | VObj _ => "object"
  end.

(** Own properties of an object literal, first binding wins. *)
Fixpoint lookup (fields : list (string * value)) (p : string) : option value :=
  match fields with
  | [] => None
  | (k, v) :: rest => if String.eqb k p then Some v else lookup rest p
  end.

(** [v?.p].  The property names read by the module ([Type], [Properties],
    [LogGroupName], [restApi], [accessLogging], ...) are neither array
    indices nor members of a primitive's prototype, so only object
    literals answer with something else than [undefined]. *)
Definition getOpt (v : value) (p : string) : value :=
  match v with
  | VObj fields =>
      match lookup fields p with
      | Some x => x
      | None => VUndefined
      end
  | _ => VUndefined
  end.

(** [a === b] where at least one side is a primitive literal: objects and
    arrays are compared by reference in JavaScript and a tree has no
    identity, so they answer [false] here; the module never compares two
    of them. *)
Definition strictEq (a b : value) : bool :=
  match a, b with
  | VUndefined, VUndefined => true
  | VNull, VNull => true
  | VBool x, VBool y => Bool.eqb x y
  | VNum x, VNum y => Z.eqb x y
  | VStr x, VStr y => String.eqb x y
  | _, _ => false
  end.

(** [s.startsWith(searchString)]. *)
Definition startsWith (s searchString : string) : bool :=
  String.prefix searchString s.

(** [c.toUpperCase()] on one character.  Function names are ASCII (the
    source says so where it avoids lodash), other bytes are left alone. *)
Definition toUpperCase (c : ascii) : ascii :=
  let n := nat_of_ascii c in
  if (97 <=? n)%nat && (n <=? 122)%nat then ascii_of_nat (n - 32) else c.

(** [s.replace(/c/g, by)] for a one-character pattern. *)
Fixpoint replaceAll (c : ascii) (by_ : string) (s : string) : string :=
  match s with
  | EmptyString => EmptyString
  | String d rest =>
      if Ascii.eqb d c then by_ ++ replaceAll c by_ rest
      else String d (replaceAll c by_ rest)
  end.

End Js.

Import Js.

(** ** Errors and results *)

Inductive Error : Type :=
| TypeError
| AwsError                     (* whatever a rejected AWS request carries *)
| DatadogForwarderNotFoundError (message : string).

Inductive Result (A : Type) : Type :=
| Ok (a : A)
| Throw (e : Error).

Arguments Ok {A} a.
Arguments Throw {A} e.

(** [v.p]: reading a property of [undefined] or [null] throws. *)
Definition getProp (v : value) (p : string) : Result value :=
  match v with
  | VUndefined | VNull => Throw TypeError
  | _ => Ok (getOpt v p)
  end.

(** [obj.hasOwnProperty(p)].  The method is found on [Object.prototype]
    unless the object has an own property of that name, which is then data
    and not callable. *)
Definition hasOwnProperty (obj : value) (p : string) : Result bool :=
  match obj with
  | VUndefined | VNull => Throw TypeError
  | VObj fields =>
      match lookup fields "hasOwnProperty" with
      | Some _ => Throw TypeError
      | None =>
          match lookup fields p with
          | Some _ => Ok true
          | None => Ok false
          end
      end
  | _ => Ok false
  end.

Definition bindR {A B : Type} (r : Result A) (k : A -> Result B) : Result B :=
  match r with
  | Ok a => k a
  | Throw e => Throw e
  end.

(** ** Constants of the module *)

Definition logGroupKey : string := "AWS::Logs::LogGroup".
Definition logGroupSubscriptionKey : string := "AWS::Logs::SubscriptionFilter".
Definition maxAllowableLogGroupSubscriptions : nat := 2.

Definition REST_EXECUTION_LOG_GROUP_KEY : string := "RestExecutionLogGroup".
Definition REST_EXECUTION_SUBSCRIPTION_KEY : string :=
  "RestExecutionLogGroupSubscription".
Definition WEBSOCKETS_EXECUTION_LOG_GROUP_KEY : string :=
  "WebsocketsExecutionLogGroup".
Definition WEBSOCKETS_EXECUTION_SUBCRIPTION_KEY : string :=
  "WebsocketsExecutionLogGroupSubscription".

(** ** Naming transform *)

(** [getLogGroupLogicalId]: the empty name is falsy and answers the empty
    string; otherwise the first character is upper-cased, then every dash
    and every underscore of the whole string is spelled out. *)
Definition getLogGroupLogicalId (functionName : string) : string :=
  match functionName with
  | EmptyString => ""
  | String first rest =>
      let upperCasedFunctionName := String (toUpperCase first) rest in
      let normalizedFunctionName :=
        replaceAll "_" "Underscore" (replaceAll "-" "Dash" upperCasedFunctionName) in
      normalizedFunctionName ++ "LogGroup"
  end.

(** ** Config interpreter *)

(** [isSubLogsConfig].  The second conjunct of each inner test compares the
    string produced by [typeof] with the value [undefined], as the source
    does. *)
Definition isSubLogsConfig (obj : value) : Result bool :=
  if String.eqb (typeof obj) "boolean" then Ok true
  else if negb (String.eqb (typeof obj) "object") then Ok false
  else
    bindR (hasOwnProperty obj "accessLogging") (fun hasAccess =>
    if hasAccess
       && (negb (String.eqb (typeof (getOpt obj "accessLogging")) "boolean")
           && negb (strictEq (VStr (typeof (getOpt obj "accessLogging"))) VUndefined))
    then Ok false
    else
      bindR (hasOwnProperty obj "executionLogging") (fun hasExecution =>
      if hasExecution
         && (negb (String.eqb (typeof (getOpt obj "executionLogging")) "boolean")
             && negb (strictEq (VStr (typeof (getOpt obj "executionLogging"))) VUndefined))
      then Ok false
      else Ok true)).

(** One of the three guarded blocks of [isLogsConfig]: when the category is
    an own property it must pass [isSubLogsConfig]. *)
Definition categoryIsValid (obj : value) (category : string) : Result bool :=
  bindR (hasOwnProperty obj category) (fun present =>
  if present then isSubLogsConfig (getOpt obj category) else Ok true).

Definition isLogsConfig (obj : value) : Result bool :=
  if negb (String.eqb (typeof obj) "object") then Ok false
  else
    bindR (categoryIsValid obj "restApi") (fun restOk =>
    if negb restOk then Ok false
    else
      bindR (categoryIsValid obj "httpApi") (fun httpOk =>
      if negb httpOk then Ok false
      else
        bindR (categoryIsValid obj "websocket") (fun websocketOk =>
        if negb websocketOk then Ok false else Ok true))).

(** The five resolvers share one shape: [obj?.category === false] switches
    the flag off, otherwise it is on when the category is [true] or its
    sub-flag is [true]. *)
Definition loggingIsEnabled (category flag : string) (obj : value) : bool :=
  if strictEq (getOpt obj category) (VBool false) then false
  else strictEq (getOpt obj category) (VBool true)
       || strictEq (getOpt (getOpt obj category) flag) (VBool true).

Definition restAccessLoggingIsEnabled : value -> bool :=
  loggingIsEnabled "restApi" "accessLogging".
Definition restExecutionLoggingIsEnabled : value -> bool :=
  loggingIsEnabled "restApi" "executionLogging".
Definition httpAccessLoggingIsEnabled : value -> bool :=
  loggingIsEnabled "httpApi" "accessLogging".
Definition websocketAccessLoggingIsEnabled : value -> bool :=
  loggingIsEnabled "websocket" "accessLogging".
Definition websocketExecutionLoggingIsEnabled : value -> bool :=
  loggingIsEnabled "websocket" "executionLogging".

(** ** The world: template resources and AWS *)

(** [compiledCloudFormationTemplate.Resources]: a JavaScript object used as
    a map from logical id to resource.  [Object.entries] enumerates string
    keys in insertion order, which decides the order of the warnings, so the
    object is an association list (integer-like keys, which JavaScript
    enumerates first, do not occur among CloudFormation logical ids built
    here). *)
Definition Graph : Type := list (string * value).

(** [resources[key] = v]: overwrite in place, or append a new entry. *)
Fixpoint assign (resources : Graph) (key : string) (v : value) : Graph :=
  match resources with
  | [] => [(key, v)]
  | (k, old) :: rest =>
      if String.eqb k key then (k, v) :: rest
      else (k, old) :: assign rest key v
  end.

Record CloudFormationObjectArn : Type := {
  FnSub : option string;      (* "Fn::Sub" *)
  arnAws : option string      (* "arn:aws" *)
}.

(** [CloudFormationObjectArn | string]. *)
Inductive ForwarderArn : Type :=
| ArnString (s : string)
| ArnObject (o : CloudFormationObjectArn).

Definition optionalField (k : string) (o : option string) : list (string * value) :=
  match o with
  | Some s => [(k, VStr s)]
  | None => []
  end.

(** The forwarder as it is stored inside a resource. *)
Definition arnValue (functionArn : ForwarderArn) : value :=
  match functionArn with
  | ArnString s => VStr s
  | ArnObject o =>
      VObj (optionalField "Fn::Sub" (FnSub o) ++ optionalField "arn:aws" (arnAws o))%list
  end.

(** The forwarder inside a template literal. *)
Definition arnToString (functionArn : ForwarderArn) : string :=
  match functionArn with
  | ArnString s => s
  | ArnObject _ => "[object Object]"
  end.

Record SubscriptionFilter : Type := {
  creationTime : Z;
  destinationArn : string;
  distribution : string;
  filterName : string;
  filterPattern : string;
  logGroupName : string;
  roleArn : string
}.

Record DescribeSubscriptionFiltersResponse : Type := {
  subscriptionFilters : list SubscriptionFilter
}.

(** The two calls made through [aws.request]. *)
Inductive AwsRequest : Type :=
| LambdaGetFunction (FunctionName : ForwarderArn)
| CloudWatchLogsDescribeSubscriptionFilters (logGroupName : string).

(** The framework's AWS client.  A remote answer may depend on everything
    requested before, so each service is a function of the request history;
    [false] and [None] stand for a rejected promise. *)
Record Aws : Type := {
  getFunction : list AwsRequest -> ForwarderArn -> bool;
  listSubscriptionFilters :
    list AwsRequest -> string -> option DescribeSubscriptionFiltersResponse;
  getStage : string;
  getStackName : option string      (* aws.naming.getStackName() *)
}.

(** The parts of serverless' [Service] read by the module; the template's
    resources are mutable and live in the [World]. *)
Record Service : Type := {
  getServiceName : string;
  providerLogs : value               (* (service.provider as any)?.logs *)
}.

Record ForwarderConfigs : Type := {
  AddExtension : bool;
  IntegrationTesting : option bool;
  SubToAccessLogGroups : bool;
  SubToExecutionLogGroups : bool
}.

(** [FunctionInfo] is declared in [./layer]; only its [name] is read here. *)
Module FunctionInfo.
Record t : Type := { name : string }.
End FunctionInfo.

Record World : Type := {
  Resources : option Graph;          (* [undefined] when there is no template *)
  requests : list AwsRequest         (* oldest first *)
}.

(** ** The monad of async functions *)

Definition M (A : Type) : Type := World -> Result A * World.

Definition ret {A : Type} (a : A) : M A := fun w => (Ok a, w).

Definition throw {A : Type} (e : Error) : M A := fun w => (Throw e, w).

Definition bind {A B : Type} (m : M A) (k : A -> M B) : M B :=
  fun w =>
    match m w with
    | (Ok a, w') => k a w'
    | (Throw e, w') => (Throw e, w')
    end.

(** [try { m } catch (err) { handler }]. *)
Definition tryCatch {A : Type} (m : M A) (handler : Error -> M A) : M A :=
  fun w =>
    match m w with
    | (Ok a, w') => (Ok a, w')
    | (Throw e, w') => handler e w'
    end.

Definition liftR {A : Type} (r : Result A) : M A := fun w => (r, w).

Declare Scope async_scope.
Delimit Scope async_scope with async.
Notation "x <- m ;; k" := (bind m (fun x => k))
  (at level 61, m at next level, right associativity) : async_scope.
Notation "m ;;; k" := (bind m (fun _ => k))
  (at level 61, right associativity) : async_scope.
Local Open Scope async_scope.

Definition getResources : M (option Graph) := fun w => (Ok (Resources w), w).

(** [resources[key] = v] on the shared template. *)
Definition setResource (key : string) (v : value) : M unit :=
  fun w =>
    match Resources w with
    | Some g =>
        (Ok tt, {| Resources := Some (assign g key v); requests := requests w |})
    | None => (Throw TypeError, w)
    end.

Definition record (r : AwsRequest) (w : World) : World :=
  {| Resources := Resources w; requests := (requests w ++ [r])%list |}.

(** [await aws.request("Lambda", "getFunction", { FunctionName })]: a
    rejected promise throws at the [await]. *)
Definition requestGetFunction (aws : Aws) (functionArn : ForwarderArn) : M unit :=
  fun w =>
    let w' := record (LambdaGetFunction functionArn) w in
    if getFunction aws (requests w) functionArn then (Ok tt, w')
    else (Throw AwsError, w').

(** [await aws.request("CloudWatchLogs", "describeSubscriptionFilters", { logGroupName })]. *)
Definition requestDescribeSubscriptionFilters (aws : Aws) (logGroupName : string)
  : M DescribeSubscriptionFiltersResponse :=
  fun w =>
    let w' := record (CloudWatchLogsDescribeSubscriptionFilters logGroupName) w in
    match listSubscriptionFilters aws (requests w) logGroupName with
    | Some response => (Ok response, w')
    | None => (Throw AwsError, w')
    end.

(** ** Function existence validator and quota enforcer *)

Definition validateForwarderArn (aws : Aws) (functionArn : ForwarderArn) : M unit :=
  tryCatch (requestGetFunction aws functionArn)
    (fun _ =>
       throw (DatadogForwarderNotFoundError
                ("Could not perform GetFunction on " ++ arnToString functionArn ++ "."))).

Definition describeSubscriptionFilters (aws : Aws) (logGroupName : string)
  : M (list SubscriptionFilter) :=
  tryCatch
    (result <- requestDescribeSubscriptionFilters aws logGroupName ;;
     ret (subscriptionFilters result))
    (fun _ => ret []).

(** The [for ... of] loop of [canSubscribeLogGroup]: the flag is raised by
    any filter whose name starts with the expected one and never lowered. *)
Definition foundDatadogSubscriptionFilter
  (subscriptionFilters : list SubscriptionFilter) (expectedSubName : string) : bool :=
  fold_left
    (fun found subscription =>
       if startsWith (filterName subscription) expectedSubName then true else found)
    subscriptionFilters false.

Definition canSubscribeLogGroup (aws : Aws) (logGroupName expectedSubName : string)
  : M bool :=
  subscriptionFilters <- describeSubscriptionFilters aws logGroupName ;;
  let numberOfActiveSubscriptionFilters := length subscriptionFilters in
  if negb (foundDatadogSubscriptionFilter subscriptionFilters expectedSubName)
     && (maxAllowableLogGroupSubscriptions <=? numberOfActiveSubscriptionFilters)%nat
  then ret false
  else ret true.

(** ** Which log groups are subscribed *)

Definition isLogGroup (v : value) : Result bool :=
  bindR (getProp v "Type") (fun t => Ok (strictEq t (VStr logGroupKey))).

(** [resource.Properties.LogGroupName.startsWith(p)]: anything but a string
    has no such method. *)
Definition logGroupNameStartsWith (resource : value) (p : string) : Result bool :=
  bindR (getProp resource "Properties") (fun properties =>
  bindR (getProp properties "LogGroupName") (fun n =>
  match n with
  | VStr s => Ok (startsWith s p)
  | _ => Throw TypeError
  end)).

(** [a || b] and [a && b] on boolean operands that may throw; the right
    operand is not looked at when the left one decides. *)
Definition orR (a b : Result bool) : Result bool :=
  bindR a (fun x => if x then Ok true else b).

Definition andR (a b : Result bool) : Result bool :=
  bindR a (fun x => if x then b else Ok false).

Definition validateRestApiSubscription
  (resource : value) (subscribe : bool) (extendedProvider : value) : Result bool :=
  andR (andR (Ok (restAccessLoggingIsEnabled extendedProvider))
             (logGroupNameStartsWith resource "/aws/api-gateway/"))
       (Ok subscribe).

Definition validateHttpApiSubscription
  (resource : value) (subscribe : bool) (extendedProvider : value) : Result bool :=
  andR (andR (Ok (httpAccessLoggingIsEnabled extendedProvider))
             (logGroupNameStartsWith resource "/aws/http-api/"))
       (Ok subscribe).

Definition validateWebsocketSubscription
  (resource : value) (subscribe : bool) (extendedProvider : value) : Result bool :=
  andR (andR (Ok (websocketAccessLoggingIsEnabled extendedProvider))
             (logGroupNameStartsWith resource "/aws/websocket/"))
       (Ok subscribe).

(** The disjunction of the three API validations, written twice in
    [shouldSubscribe]; operands are tried from left to right. *)
Definition validateApiSubscription
  (resource : value) (subscribe : bool) (extendedProvider : value) : Result bool :=
  orR (orR (validateRestApiSubscription resource subscribe extendedProvider)
           (validateHttpApiSubscription resource subscribe extendedProvider))
      (validateWebsocketSubscription resource subscribe extendedProvider).

Definition shouldSubscribe
  (resourceName : string) (resource : value) (forwarderConfigs : ForwarderConfigs)
  (handlers : list FunctionInfo.t) (service : Service) : Result bool :=
  let extendedProvider := providerLogs service in
  bindR (isLogGroup resource) (fun isGroup =>
  if negb isGroup then Ok false
  else
    bindR (getProp resource "Properties") (fun properties =>
    bindR (getProp properties "LogGroupName") (fun n =>
    if negb (String.eqb (typeof n) "string") then Ok false
    else
      bindR (andR (Ok (AddExtension forwarderConfigs))
                  (bindR (validateApiSubscription resource
                            (SubToAccessLogGroups forwarderConfigs) extendedProvider)
                         (fun b => Ok (negb b))))
            (fun extensionOwnsIt =>
      if extensionOwnsIt then Ok false
      else
        bindR (orR (logGroupNameStartsWith resource "/aws/lambda/")
                   (validateApiSubscription resource
                      (SubToAccessLogGroups forwarderConfigs) extendedProvider))
              (fun wanted =>
        if negb wanted then Ok false
        else
          bindR (andR (logGroupNameStartsWith resource "/aws/lambda/")
                      (Ok (negb (existsb
                                   (fun h =>
                                      String.eqb
                                        (getLogGroupLogicalId (FunctionInfo.name h))
                                        resourceName)
                                   handlers))))
                (fun notOurs =>
          if notOurs then Ok false else Ok true)))))).

Definition subscribeToLogGroup (functionArn : ForwarderArn) (name : string) : value :=
  VObj [("Type", VStr logGroupSubscriptionKey);
        ("Properties",
         VObj [("DestinationArn", arnValue functionArn);
               ("FilterPattern", VStr "");
               ("LogGroupName", VObj [("Ref", VStr name)])])].

(** The expected prefix of the deployed filter's name. *)
Definition expectedSubName (service : Service) (aws : Aws) (scopedSubName : string)
  : string :=
  match getStackName aws with
  | Some (String c stackName) => String c stackName ++ "-" ++ scopedSubName ++ "-"
  | _ => getServiceName service ++ "-" ++ getStage aws ++ "-" ++ scopedSubName ++ "-"
  end.

(** The loop of [addCloudWatchForwarderSubscriptions], over the entries
    [Object.entries] listed before the first iteration.  After
    [shouldSubscribe] said yes the log group's name is a string (see
    [shouldSubscribe_name] below); the other branch of the [match] is never
    taken. *)
Fixpoint subscribeEntries
  (service : Service) (aws : Aws) (functionArn : ForwarderArn)
  (forwarderConfigs : ForwarderConfigs) (handlers : list FunctionInfo.t)
  (entries : list (string * value)) (errors : list string) : M (list string) :=
  match entries with
  | [] => ret errors
  | (name, resource) :: rest =>
      let continue := subscribeEntries service aws functionArn forwarderConfigs handlers rest in
      wanted <- liftR (shouldSubscribe name resource forwarderConfigs handlers service) ;;
      if negb wanted then continue errors
      else
        properties <- liftR (getProp resource "Properties") ;;
        logGroupName <- liftR (getProp properties "LogGroupName") ;;
        match logGroupName with
        | VStr logGroupName =>
            let scopedSubName := name ++ "Subscription" in
            canSub <- canSubscribeLogGroup aws logGroupName
                        (expectedSubName service aws scopedSubName) ;;
            if negb canSub then
              continue
                (errors ++
                 ["Could not subscribe Datadog Forwarder due to too many existing subscription filter(s) for "
                  ++ logGroupName ++ "."]%string)%list
            else
              let subscription := subscribeToLogGroup functionArn name in
              setResource scopedSubName subscription ;;;
              continue errors
        | _ => throw TypeError
        end
  end.

Definition addCloudWatchForwarderSubscriptions
  (service : Service) (aws : Aws) (functionArn : ForwarderArn)
  (forwarderConfigs : ForwarderConfigs) (handlers : list FunctionInfo.t)
  : M (list string) :=
  resources <- getResources ;;
  match resources with
  | None =>
      ret ["No cloudformation stack available. Skipping subscribing Datadog forwarder."]
  | Some resources =>
      errors <-
        match functionArn, IntegrationTesting forwarderConfigs with
        | ArnObject _, _ =>
            ret ["Skipping forwarder ARN validation because forwarder string defined with CloudFormation function."]
        | ArnString _, Some true =>
            ret ["Skipping forwarder ARN validation because 'integrationTesting' is set to true"]
        | ArnString _, _ =>
            validateForwarderArn aws functionArn ;;;
            ret []
        end ;;
      subscribeEntries service aws functionArn forwarderConfigs handlers resources errors
  end.

(** ** Execution log groups *)

Definition createRestExecutionLogGroupName (aws : Aws) : value :=
  VObj [("Fn::Join",
         VArr [VStr "";
               VArr [VStr "API-Gateway-Execution-Logs_";
                     VObj [("Ref", VStr "ApiGatewayRestApi")];
                     VStr "/";
                     VStr (getStage aws)]])].

Definition createWebsocketExecutionLogGroupName (aws : Aws) : value :=
  VObj [("Fn::Join",
         VArr [VStr "";
               VArr [VStr "/aws/apigateway/";
                     VObj [("Ref", VStr "WebsocketsApi")];
                     VStr "/";
                     VStr (getStage aws)]])].

Definition addExecutionLogGroup (logGroupName : value) : value :=
  VObj [("Type", VStr "AWS::Logs::LogGroup");
        ("Properties", VObj [("LogGroupName", logGroupName)])].

Definition subscribeToExecutionLogGroup
  (functionArn : ForwarderArn) (executionLogGroupKey : string) : value :=
  VObj [("Type", VStr logGroupSubscriptionKey);
        ("Properties",
         VObj [("DestinationArn", arnValue functionArn);
               ("FilterPattern", VStr "");
               ("LogGroupName", VObj [("Ref", VStr executionLogGroupKey)])])].

Definition addExecutionLogGroupsAndSubscriptions
  (service : Service) (aws : Aws) (functionArn : ForwarderArn) : M unit :=
  let extendedProvider := providerLogs service in
  valid <- liftR (isLogsConfig extendedProvider) ;;
  if negb valid then ret tt
  else
    (if restExecutionLoggingIsEnabled extendedProvider then
       let logGroupName := createRestExecutionLogGroupName aws in
       let executionLogGroupName := addExecutionLogGroup logGroupName in
       setResource REST_EXECUTION_LOG_GROUP_KEY executionLogGroupName ;;;
       let executionSubscription :=
         subscribeToExecutionLogGroup functionArn REST_EXECUTION_LOG_GROUP_KEY in
       setResource REST_EXECUTION_SUBSCRIPTION_KEY executionSubscription
     else ret tt) ;;;
    (if websocketExecutionLoggingIsEnabled extendedProvider then
       let logGroupName := createWebsocketExecutionLogGroupName aws in
       let executionLogGroupName := addExecutionLogGroup logGroupName in
       setResource WEBSOCKETS_EXECUTION_LOG_GROUP_KEY executionLogGroupName ;;;
       let executionSubscription :=
         subscribeToExecutionLogGroup functionArn WEBSOCKETS_EXECUTION_LOG_GROUP_KEY in
       setResource WEBSOCKETS_EXECUTION_SUBCRIPTION_KEY executionSubscription
     else ret tt).

(** ** The plugin class ([index.ts]) *)

(** How a synchronous function of [index.ts] ends: with a value, with
    [throw new Error(message)], or with a [TypeError] of the runtime. *)
Inductive Outcome (A : Type) : Type :=
| Returns (a : A)
| ThrowsError (message : string)
| ThrowsTypeError.

Arguments Returns {A} a.
Arguments ThrowsError {A} message.
Arguments ThrowsTypeError {A}.

(** Truthiness of a value ([NaN] has no counterpart among integers). *)
Definition truthy (v : value) : bool :=
  match v with
  | VUndefined | VNull => false
  | VBool b => b
  | VNum n => negb (Z.eqb n 0)
  | VStr s => negb (String.eqb s "")
  | VArr _ | VObj _ => true
  end.

(** [configHasOldProperties], on the untyped configuration object. *)
Definition configHasOldProperties (obj : value) : Outcome unit :=
  match obj with
  | VUndefined | VNull => ThrowsTypeError
  | _ =>
      let hasOldProperties := false in
      let message := "The following configuration options have been removed:" in
      let '(message, hasOldProperties) :=
        if truthy (getOpt obj "subscribeToApiGatewayLogs")
        then (message ++ " subscribeToApiGatewayLogs", true)
        else (message, hasOldProperties) in
      let '(message, hasOldProperties) :=
        if truthy (getOpt obj "subscribeToHttpApiLogs")
        then (message ++ " subscribeToHttpApiLogs", true)
        else (message, hasOldProperties) in
      let '(message, hasOldProperties) :=
        if truthy (getOpt obj "subscribeToWebsocketLogs")
        then (message ++ " subscribeToWebsocketLogs", true)
        else (message, hasOldProperties) in
      if hasOldProperties
      then ThrowsError
             (message
              ++ ". Please use the subscribeToAccessLogs or subscribeToExecutionLogs options instead.")
      else Returns tt
  end.

(** [Configuration] is declared in [./env]; these are the fields read by
    the functions below, with the types [index.ts] uses them at
    ([monitors] is an array or [undefined], only its presence is tested). *)
Record Configuration : Type := {
  apiKey : option string;
  apiKMSKey : option string;
  apiKeySecretArn : option string;
  appKey : option string;
  site : option string;
  addExtension : bool;
  monitors : option (list value);
  forwarderArn : option string;
  forwarder : option string
}.

(** The two variables read from [process.env]. *)
Record ProcessEnv : Type := {
  DATADOG_API_KEY : option string;
  DATADOG_APP_KEY : option string
}.

(** [x !== undefined]. *)
Definition defined {A : Type} (x : option A) : bool :=
  match x with
  | Some _ => true
  | None => false
  end.

Definition checkForMultipleApiKeys (config : Configuration) : Outcome unit :=
  let multipleApiKeysMessage :=
    if defined (apiKey config) && defined (apiKMSKey config)
       && defined (apiKeySecretArn config)
    then Some "`apiKey`, `apiKMSKey`, and `apiKeySecretArn`"
    else if defined (apiKey config) && defined (apiKMSKey config)
    then Some "`apiKey` and `apiKMSKey`"
    else if defined (apiKey config) && defined (apiKeySecretArn config)
    then Some "`apiKey` and `apiKeySecretArn`"
    else if defined (apiKMSKey config) && defined (apiKeySecretArn config)
    then Some "`apiKMSKey` and `apiKeySecretArn`"
    else None in
  match multipleApiKeysMessage with
  | Some (String c rest) =>
      ThrowsError (String c rest ++ " should not be set at the same time.")
  | _ => Returns tt
  end.

Definition siteList : list string :=
  ["datadoghq.com"; "datadoghq.eu"; "us3.datadoghq.com"; "us5.datadoghq.com";
   "ddog-gov.com"].

(** [validateConfiguration].  [toLowerCase] stands for the method of the
    same name of JavaScript strings. *)
Definition validateConfiguration
  (toLowerCase : string -> string) (env : ProcessEnv) (config : Configuration)
  : Outcome unit :=
  match checkForMultipleApiKeys config with
  | Returns _ =>
      if match site config with
         | Some s => negb (existsb (String.eqb (toLowerCase s)) siteList)
         | None => false
         end
      then ThrowsError
             "Warning: Invalid site URL. Must be either datadoghq.com, datadoghq.eu, us3.datadoghq.com, us5.datadoghq.com, or ddog-gov.com."
      else if addExtension config
              && (negb (defined (apiKey config))
                  && negb (defined (DATADOG_API_KEY env))
                  && negb (defined (apiKMSKey config))
                  && negb (defined (apiKeySecretArn config)))
      then ThrowsError
             "When `addExtension` is true, the environment variable `DATADOG_API_KEY` or configuration variable `apiKMSKey` or `apiKeySecretArn` must be set."
      else if defined (monitors config)
              && ((negb (defined (DATADOG_API_KEY env))
                   || negb (defined (DATADOG_APP_KEY env)))
                  && (negb (defined (apiKey config))
                      || negb (defined (appKey config))))
      then ThrowsError
             "When `monitors` is enabled, `DATADOG_API_KEY` and `DATADOG_APP_KEY` environment variables must be set."
      else Returns tt
  | ThrowsError message => ThrowsError message
  | ThrowsTypeError => ThrowsTypeError
  end.

(** Truthiness of [string | undefined]. *)
Definition nonEmpty (x : option string) : bool :=
  match x with
  | Some (String _ _) => true
  | _ => false
  end.

(** [setDatadogForwarder]: the outcome and the lines written with
    [serverless.cli.log]. *)
Definition setDatadogForwarder (config : Configuration)
  : Outcome (option string) * list string :=
  if nonEmpty (forwarderArn config) && nonEmpty (forwarder config)
  then (ThrowsError
          "Both 'forwarderArn' and 'forwarder' parameters are set. Please only use the 'forwarderArn' parameter.",
        [])
  else if defined (forwarderArn config) && negb (defined (forwarder config))
  then (Returns (forwarderArn config), ["Setting Datadog Forwarder"])
  else if defined (forwarder config) && negb (defined (forwarderArn config))
  then (Returns (forwarder config), ["Setting Datadog Forwarder"])
  else (Returns None, []).

(** The version in [package.json], imported by [index.ts]. *)
Definition version : string := "5.1.0".

(** [TagKeys]. *)
Definition TagKeys_Service : string := "service".
Definition TagKeys_Env : string := "env".
Definition TagKeys_Version : string := "version".
Definition TagKeys_Plugin : string := "dd_sls_plugin".

(** A tag object, [{ [key: string]: string }]. *)
Definition Tags : Type := list (string * string).

Fixpoint getTag (tags : Tags) (key : string) : option string :=
  match tags with
  | [] => None
  | (k, v) :: rest => if String.eqb k key then Some v else getTag rest key
  end.

(** [tags[key] = v]. *)
Fixpoint setTag (tags : Tags) (key v : string) : Tags :=
  match tags with
  | [] => [(key, v)]
  | (k, old) :: rest =>
      if String.eqb k key then (k, v) :: rest else (k, old) :: setTag rest key v
  end.

(** [tags[key] ??= v]: the keys used below are not inherited from
    [Object.prototype], so a tag is nullish exactly when it is absent. *)
Definition setTagIfNullish (tags : Tags) (key v : string) : Tags :=
  match getTag tags key with
  | Some _ => tags
  | None => setTag tags key v
  end.

(** [!tags?.[key]] on an optional tag object. *)
Definition lacksTag (tags : option Tags) (key : string) : bool :=
  match tags with
  | Some t => negb (nonEmpty (getTag t key))
  | None => true
  end.

(** The fields of a function definition that [addTags] touches. *)
Record FunctionDefinition : Type := {
  tags : option Tags
}.

(** The part of [serverless.service.provider] read by [addTags]. *)
Record Provider : Type := {
  providerTags : option Tags;        (* provider.tags *)
  stackTags : option Tags            (* provider.stackTags *)
}.

(** The body of the [forEach] in [addTags], for one handler. *)
Definition addTagsToHandler
  (provider : Provider) (serviceName stage : string) (shouldAddTags : bool)
  (handler : FunctionDefinition) : FunctionDefinition :=
  let tags0 := match tags handler with Some t => t | None => [] end in
  let tags1 := setTag tags0 TagKeys_Plugin ("v" ++ version) in
  let tags2 :=
    if shouldAddTags
       && (lacksTag (providerTags provider) TagKeys_Service
           && lacksTag (stackTags provider) TagKeys_Service)
    then setTagIfNullish tags1 TagKeys_Service serviceName
    else tags1 in
  let tags3 :=
    if shouldAddTags
       && (lacksTag (providerTags provider) TagKeys_Env
           && lacksTag (stackTags provider) TagKeys_Env)
    then setTagIfNullish tags2 TagKeys_Env stage
    else tags2 in
  {| tags := Some tags3 |}.

(** [addTags] on the function definitions of the handlers (the [handler]
    field of each [FunctionInfo]): the definitions after the call and the
    lines logged.  The tag objects of the functions and of the provider are
    taken to be distinct objects, so that what is written for one function
    is not read back for another. *)
Definition addTags
  (provider : Provider) (serviceName stage : string)
  (handlers : list FunctionDefinition) (shouldAddTags : bool)
  : list FunctionDefinition * list string :=
  (map (addTagsToHandler provider serviceName stage shouldAddTags) handlers,
   ("Adding Plugin Version " ++ version ++ " tag")
   :: (if shouldAddTags then ["Adding service and environment tags"] else [])).

(** *** [addDDTags]

    Here the source reads the service's [custom] block and the handler's
    [tags] as [any], so both are untyped again. *)

(** The property names every plain object inherits from
    [Object.prototype]; reading one of them never gives a nullish value. *)
Definition objectPrototypeKeys : list string :=
  ["constructor"; "__defineGetter__"; "__defineSetter__"; "hasOwnProperty";
   "__lookupGetter__"; "__lookupSetter__"; "isPrototypeOf";
   "propertyIsEnumerable"; "toString"; "valueOf"; "__proto__"; "toLocaleString"].

Definition inherited (key : string) : bool :=
  existsb (String.eqb key) objectPrototypeKeys.

Definition nullish (v : value) : bool :=
  match v with
  | VUndefined | VNull => true
  | _ => false
  end.

(** [obj[key] ??= v] on a plain object. *)
Definition nullishAssign (obj : list (string * value)) (key : string) (v : value)
  : list (string * value) :=
  match lookup obj key with
  | Some old => if nullish old then assign obj key v else obj
  | None => if inherited key then obj else assign obj key v
  end.

(** [s.split(separator)] for a one-character separator. *)
Fixpoint stringSplit (s : string) (separator : ascii) : list string :=
  match s with
  | EmptyString => [EmptyString]
  | String c rest =>
      if Ascii.eqb c separator then EmptyString :: stringSplit rest separator
      else match stringSplit rest separator with
           | first :: others => String c first :: others
           | [] => [String c EmptyString]
           end
  end.

(** The inner [forEach] of [addDDTags], for one piece of
    [custom.datadog.tags]. *)
Definition addTagPiece (tags : list (string * value)) (tag : string)
  : list (string * value) :=
  let parts := stringSplit tag ":" in
  match hd EmptyString parts, nth_error parts 1 with
  | String k key, Some (String c value) =>
      nullishAssign tags (String k key) (VStr (String c value))
  | _, _ => tags
  end.

(** The outer [forEach] of [addDDTags], for the [tags] of one handler: the
    object afterwards and how the body ended. *)
Definition addDDTagsToHandler (custom : value) (handlerTags : option (list (string * value)))
  : list (string * value) * Outcome unit :=
  let tags0 := match handlerTags with Some t => t | None => [] end in
  let datadog := getOpt custom "datadog" in
  let tags1 :=
    if truthy (getOpt datadog "service")
    then nullishAssign tags0 TagKeys_Service (getOpt datadog "service")
    else tags0 in
  let tags2 :=
    if truthy (getOpt datadog "env")
    then nullishAssign tags1 TagKeys_Env (getOpt datadog "env")
    else tags1 in
  let tags3 :=
    if truthy (getOpt datadog "version")
    then nullishAssign tags2 TagKeys_Version (getOpt datadog "version")
    else tags2 in
  if truthy (getOpt datadog "tags")
  then match getOpt datadog "tags" with
       | VStr s => (fold_left addTagPiece (stringSplit s ",") tags3, Returns tt)
       | _ => (tags3, ThrowsTypeError)
       end
  else (tags3, Returns tt).

Fixpoint addDDTagsEach (custom : value) (handlers : list (option (list (string * value))))
  : list (option (list (string * value))) * Outcome unit :=
  match handlers with
  | [] => ([], Returns tt)
  | handlerTags :: rest =>
      match addDDTagsToHandler custom handlerTags with
      | (after, Returns _) =>
          let (rest', outcome) := addDDTagsEach custom rest in
          (Some after :: rest', outcome)
      | (after, outcome) => (Some after :: rest, outcome)
      end
  end.

(** [addDDTags], on the [tags] of the handlers' function definitions
    ([undefined] is [None]): the tags afterwards and how the call ended.
    The tag objects of different functions are taken to be distinct
    objects. *)
Definition addDDTags (custom : value) (handlers : list (option (list (string * value))))
  : list (option (list (string * value))) * Outcome unit :=
  let custom := match custom with VUndefined => VObj [] | _ => custom end in
  addDDTagsEach custom handlers.

(** ** Notions used in the statements *)

(** What the log service reports for a log group in a given world, after
    [describeSubscriptionFilters] turned a failure into the empty list. *)
Definition existingFilters (aws : Aws) (logGroupName : string) (w : World)
  : list SubscriptionFilter :=
  match listSubscriptionFilters aws (requests w) logGroupName with
  | Some response => subscriptionFilters response
  | None => []
  end.

(** The four resources of the execution log group synthesizer. *)
Definition restExecutionLogGroup (aws : Aws) : value :=
  addExecutionLogGroup (createRestExecutionLogGroupName aws).
Definition restExecutionSubscription (functionArn : ForwarderArn) : value :=
  subscribeToExecutionLogGroup functionArn REST_EXECUTION_LOG_GROUP_KEY.
Definition websocketsExecutionLogGroup (aws : Aws) : value :=
  addExecutionLogGroup (createWebsocketExecutionLogGroupName aws).
Definition websocketsExecutionSubscription (functionArn : ForwarderArn) : value :=
  subscribeToExecutionLogGroup functionArn WEBSOCKETS_EXECUTION_LOG_GROUP_KEY.

(** The net effect of a successful run on the template. *)
Definition withRestPair
  (service : Service) (aws : Aws) (functionArn : ForwarderArn) (g : Graph) : Graph :=
  if restExecutionLoggingIsEnabled (providerLogs service) then
    assign (assign g REST_EXECUTION_LOG_GROUP_KEY (restExecutionLogGroup aws))
           REST_EXECUTION_SUBSCRIPTION_KEY (restExecutionSubscription functionArn)
  else g.

Definition withWebsocketsPair
  (service : Service) (aws : Aws) (functionArn : ForwarderArn) (g : Graph) : Graph :=
  if websocketExecutionLoggingIsEnabled (providerLogs service) then
    assign (assign g WEBSOCKETS_EXECUTION_LOG_GROUP_KEY (websocketsExecutionLogGroup aws))
           WEBSOCKETS_EXECUTION_SUBCRIPTION_KEY (websocketsExecutionSubscription functionArn)
  else g.

(** The shapes the specification calls wrong-typed, written down for
    comparison with [isLogsConfig]: a configuration that is present and not
    an object, a category that is present and neither a boolean nor an
    object, a sub-flag that is present and not a boolean.  Types are told
    apart as [typeof] does. *)
Definition specWrongTypedFlag (category : value) (flag : string) : bool :=
  match category with
  | VObj fields =>
      match lookup fields flag with
      | Some x => negb (String.eqb (typeof x) "boolean")
      | None => false
      end
  | _ => false
  end.

Definition specWrongTypedCategory (obj : value) (category : string) : bool :=
  match obj with
  | VObj fields =>
      match lookup fields category with
      | Some c =>
          negb (String.eqb (typeof c) "boolean" || String.eqb (typeof c) "object")
          || specWrongTypedFlag c "accessLogging"
          || specWrongTypedFlag c "executionLogging"
      | None => false
      end
  | _ => false
  end.

Definition specWrongTyped (obj : value) : bool :=
  match obj with
  | VUndefined => false
  | _ =>
      negb (String.eqb (typeof obj) "object")
      || specWrongTypedCategory obj "restApi"
      || specWrongTypedCategory obj "httpApi"
      || specWrongTypedCategory obj "websocket"
  end.

(** ** Sample inputs *)

(** A log service that always fails. *)
Definition failingLogs : Aws :=
  {| getFunction := fun _ _ => true;
     listSubscriptionFilters := fun _ _ => None;
     getStage := "dev";
     getStackName := None |}.

Definition emptyWorld : World := {| Resources := Some []; requests := [] |}.

(** The quota at work: a log group that already carries two foreign
    filters is rejected, unless one of them bears the expected name. *)
Definition foreignFilter (n : string) : SubscriptionFilter :=
  {| creationTime := 0; destinationArn := "arn:other"; distribution := "ByLogStream";
     filterName := n; filterPattern := ""; logGroupName := "/aws/lambda/foo";
     roleArn := "" |}.

Definition twoFilters (first second : string) : Aws :=
  {| getFunction := fun _ _ => true;
     listSubscriptionFilters := fun _ _ =>
       Some {| subscriptionFilters := [foreignFilter first; foreignFilter second] |};
     getStage := "dev";
     getStackName := None |}.

(** A function service that knows no function, and a present template. *)
Definition noFunctions : Aws :=
  {| getFunction := fun _ _ => false;
     listSubscriptionFilters := fun _ _ => Some {| subscriptionFilters := [] |};
     getStage := "dev";
     getStackName := None |}.

Definition fooLogGroup : value :=
  VObj [("Type", VStr "AWS::Logs::LogGroup");
        ("Properties", VObj [("LogGroupName", VStr "/aws/lambda/foo")])].

Definition fooWorld : World :=
  {| Resources := Some [("FooLogGroup", fooLogGroup)]; requests := [] |}.

Definition plainService : Service :=
  {| getServiceName := "svc"; providerLogs := VUndefined |}.

Definition forwarderOnly : ForwarderConfigs :=
  {| AddExtension := false; IntegrationTesting := None;
     SubToAccessLogGroups := true; SubToExecutionLogGroups := false |}.

(** An API gateway access log group with REST access logging enabled, the
    only kind of group the extension leaves to the forwarder. *)
Definition apiLogGroup : value :=
  VObj [("Type", VStr "AWS::Logs::LogGroup");
        ("Properties", VObj [("LogGroupName", VStr "/aws/api-gateway/svc-dev")])].

Definition apiWorld : World :=
  {| Resources := Some [("ApiGatewayLogGroup", apiLogGroup);
                        ("FooLogGroup", fooLogGroup)];
     requests := [] |}.

Definition restLoggingService : Service :=
  {| getServiceName := "svc"; providerLogs := VObj [("restApi", VBool true)] |}.

Definition extensionOnly : ForwarderConfigs :=
  {| AddExtension := true; IntegrationTesting := None;
     SubToAccessLogGroups := false; SubToExecutionLogGroups := true |}.

Definition everythingExists : Aws :=
  {| getFunction := fun _ _ => true;
     listSubscriptionFilters := fun _ _ => Some {| subscriptionFilters := [] |};
     getStage := "dev";
     getStackName := None |}.

Definition fooLogGroupSubscription (functionArn : ForwarderArn) : value :=
  VObj [("Type", VStr "AWS::Logs::SubscriptionFilter");
        ("Properties",
         VObj [("DestinationArn", arnValue functionArn);
               ("FilterPattern", VStr "");
               ("LogGroupName", VObj [("Ref", VStr "FooLogGroup")])])].

Definition noTemplate : World := {| Resources := None; requests := [] |}.

(** A configuration whose [restApi] is a string, and one that would switch
    both execution logs on were it not for its wrong-typed [httpApi]. *)
Definition stringCategory : Service :=
  {| getServiceName := "svc";
     providerLogs := VObj [("restApi", VStr "yes")] |}.

Definition wrongTypedHttpApi : Service :=
  {| getServiceName := "svc";
     providerLogs := VObj [("restApi", VBool true);
                           ("httpApi", VNum 1);
                           ("websocket", VBool true)] |}.

(** ** Notions used in the further properties *)

(** The literal name of a log group resource, when the resource is one. *)
Definition literalLogGroup (resource : value) : option string :=
  match getOpt resource "Type",
        getOpt (getOpt resource "Properties") "LogGroupName" with
  | VStr type, VStr s => if String.eqb type logGroupKey then Some s else None
  | _, _ => None
  end.

(** An API access log group of a category whose access logging is on. *)
Definition accessLogCategory (extendedProvider : value) (s : string) : bool :=
  restAccessLoggingIsEnabled extendedProvider && startsWith s "/aws/api-gateway/"
  || httpAccessLoggingIsEnabled extendedProvider && startsWith s "/aws/http-api/"
  || websocketAccessLoggingIsEnabled extendedProvider && startsWith s "/aws/websocket/".

Definition handles (handlers : list FunctionInfo.t) (resourceName : string) : bool :=
  existsb
    (fun h => String.eqb (getLogGroupLogicalId (FunctionInfo.name h)) resourceName)
    handlers.

(** The answer of the quota enforcer in a world. *)
Definition quotaAllows (aws : Aws) (logGroupName expected : string) (w : World) : bool :=
  existsb (fun f => startsWith (filterName f) expected)
          (existingFilters aws logGroupName w)
  || (length (existingFilters aws logGroupName w) <? 2)%nat.

(** The warning pushed for a log group at its quota. *)
Definition quotaWarning (logGroupName : string) : string :=
  "Could not subscribe Datadog Forwarder due to too many existing subscription filter(s) for "
  ++ logGroupName ++ ".".

Definition isDescribe (r : AwsRequest) : Prop :=
  match r with
  | CloudWatchLogsDescribeSubscriptionFilters _ => True
  | LambdaGetFunction _ => False
  end.

(** The configurations [isLogsConfig] accepts: an array, or an object
    literal that does not shadow [hasOwnProperty] and whose present
    categories are booleans, arrays, or such object literals with boolean
    sub-flags. *)
Definition booleanOrAbsent (fields : list (string * value)) (flag : string) : bool :=
  match lookup fields flag with
  | Some (VBool _) | None => true
  | Some _ => false
  end.

Definition acceptedCategory (fields : list (string * value)) (category : string) : bool :=
  match lookup fields category with
  | None => true
  | Some (VBool _) | Some (VArr _) => true
  | Some (VObj sub) =>
      match lookup sub "hasOwnProperty" with
      | Some _ => false
      | None => booleanOrAbsent sub "accessLogging"
                && booleanOrAbsent sub "executionLogging"
      end
  | Some _ => false
  end.

Definition acceptedLogsConfig (obj : value) : bool :=
  match obj with
  | VArr _ => true
  | VObj fields =>
      match lookup fields "hasOwnProperty" with
      | Some _ => false
      | None => acceptedCategory fields "restApi"
                && acceptedCategory fields "httpApi"
                && acceptedCategory fields "websocket"
      end
  | _ => false
  end.

(** ** Further sample inputs *)

(** A forwarder given as a CloudFormation function. *)
Definition intrinsicForwarder : ForwarderArn :=
  ArnObject {| FnSub := Some "arn:aws:lambda:${AWS::Region}:123:function:fwd";
               arnAws := None |}.

(** A template whose second resource was left empty in the YAML source. *)
Definition emptyResourceWorld : World :=
  {| Resources := Some [("FooLogGroup", fooLogGroup); ("Bucket", VNull)];
     requests := [] |}.

(** A service with REST and WebSocket execution logging switched on. *)
Definition executionLoggingService : Service :=
  {| getServiceName := "svc";
     providerLogs :=
       VObj [("restApi", VObj [("executionLogging", VBool true)]);
             ("websocket", VBool true)] |}.

(** A [custom] block as the plugin's README shows it, and one whose
    [tags] is a list instead of a string. *)
Definition customDatadog : value :=
  VObj [("datadog",
         VObj [("service", VStr "shop"); ("env", VStr "prod");
               ("tags", VStr "team:checkout,broken,tier:1")])].

Definition customListTags : value :=
  VObj [("datadog",
         VObj [("service", VStr "shop");
               ("tags", VArr [VStr "team:checkout"])])].

(** * Properties *)

(** ** Naming transform *)

Section Naming.

Lemma list_ascii_of_string_app (a b : string) :
  list_ascii_of_string (a ++ b)
  = (list_ascii_of_string a ++ list_ascii_of_string b)%list.
Proof.
  induction a as [|x a IH]; simpl; [reflexivity | now rewrite IH].
Qed.

Lemma replaceAll_absent (c : ascii) (by_ s : string) :
  ~ In c (list_ascii_of_string by_) ->
  ~ In c (list_ascii_of_string (replaceAll c by_ s)).
Proof.
  intros Hby. induction s as [|d s IH]; simpl; [tauto|].
  destruct (Ascii.eqb_spec d c) as [->|Hne].
  - rewrite list_ascii_of_string_app. intros Hin.
    apply in_app_or in Hin. tauto.
  - simpl. intros [->|Hin]; [now apply Hne | now apply IH].
Qed.

Lemma getLogGroupLogicalId_empty_iff (functionName : string) :
  getLogGroupLogicalId functionName = "" <-> functionName = "".
Proof.
  split; [|intros ->; reflexivity].
  destruct functionName as [|c rest]; [reflexivity|].
  unfold getLogGroupLogicalId.
  destruct (replaceAll "_" "Underscore" _); discriminate.
Qed.

(** A logical id never contains an underscore. *)
Lemma getLogGroupLogicalId_no_underscore (functionName : string) :
  ~ In "_"%char (list_ascii_of_string (getLogGroupLogicalId functionName)).
Proof.
  destruct functionName as [|c rest]; [simpl; tauto|].
  unfold getLogGroupLogicalId.
  set (s := replaceAll "-" "Dash" _).
  intros Hin.
  rewrite list_ascii_of_string_app in Hin.
  apply in_app_or in Hin. destruct Hin as [Hin|Hin].
  - revert Hin. apply replaceAll_absent.
    simpl. intros Hd.
    repeat (destruct Hd as [Hd|Hd]; [discriminate|]). destruct Hd.
  - simpl in Hin. repeat (destruct Hin as [Hin|Hin]; [discriminate|]). destruct Hin.
Qed.

End Naming.

(** C4 (as the source computes it).  The naming transform maps
    ["my-function_test"] to ["MyDashfunctionUnderscoretestLogGroup"]: only the
    first character of the name is upper-cased, the letter after the dash
    keeps its case.  The empty name is mapped to the empty string, without
    the suffix. *)
Theorem getLogGroupLogicalId_examples :
  getLogGroupLogicalId "my-function_test" = "MyDashfunctionUnderscoretestLogGroup"
  /\ getLogGroupLogicalId "" = "".
Proof. split; reflexivity. Qed.

(** C4 as stated fails: the result for ["my-function_test"] is not
    ["MyDashFunctionUnderscoretestLogGroup"]. *)
Lemma getLogGroupLogicalId_not_capitalised_after_dash :
  getLogGroupLogicalId "my-function_test" <> "MyDashFunctionUnderscoretestLogGroup".
Proof. discriminate. Qed.

(** ** Quota enforcer *)

Section Quota.

Variable aws : Aws.

Lemma describeSubscriptionFilters_run (logGroupName : string) (w : World) :
  describeSubscriptionFilters aws logGroupName w
  = (Ok (existingFilters aws logGroupName w),
     record (CloudWatchLogsDescribeSubscriptionFilters logGroupName) w).
Proof.
  unfold describeSubscriptionFilters, tryCatch, bind,
    requestDescribeSubscriptionFilters, existingFilters, ret.
  destruct (listSubscriptionFilters aws (requests w) logGroupName); reflexivity.
Qed.

Lemma foundDatadogSubscriptionFilter_existsb filters expected :
  foundDatadogSubscriptionFilter filters expected
  = existsb (fun f => startsWith (filterName f) expected) filters.
Proof.
  unfold foundDatadogSubscriptionFilter.
  change (existsb (fun f => startsWith (filterName f) expected) filters)
    with (false || existsb (fun f => startsWith (filterName f) expected) filters).
  generalize false as found.
  induction filters as [|f filters IH]; intros found; simpl.
  - now rewrite orb_false_r.
  - rewrite IH. destruct (startsWith (filterName f) expected), found; reflexivity.
Qed.

Lemma canSubscribeLogGroup_run (logGroupName expected : string) (w : World) :
  canSubscribeLogGroup aws logGroupName expected w
  = (Ok (existsb (fun f => startsWith (filterName f) expected)
                 (existingFilters aws logGroupName w)
         || (length (existingFilters aws logGroupName w) <? 2)%nat),
     record (CloudWatchLogsDescribeSubscriptionFilters logGroupName) w).
Proof.
  unfold canSubscribeLogGroup, bind. rewrite describeSubscriptionFilters_run.
  rewrite foundDatadogSubscriptionFilter_existsb.
  unfold maxAllowableLogGroupSubscriptions, ret.
  destruct (existsb _ _); cbn [negb andb orb]; [reflexivity|].
  destruct (Nat.leb_spec 2 (length (existingFilters aws logGroupName w)));
    destruct (Nat.ltb_spec (length (existingFilters aws logGroupName w)) 2);
    try reflexivity; lia.
Qed.

End Quota.

(** C1.  The quota enforcer always answers, and it allows exactly when some
    existing filter's name starts with the expected prefix or fewer than two
    filters exist.  In particular two filters none of which matches are
    rejected, and a single filter is always allowed. *)
Theorem canSubscribeLogGroup_decision
  (aws : Aws) (logGroupName expected : string) (w : World) :
  exists allow : bool,
    canSubscribeLogGroup aws logGroupName expected w
    = (Ok allow, record (CloudWatchLogsDescribeSubscriptionFilters logGroupName) w)
    /\ (allow = true <->
        (exists f, In f (existingFilters aws logGroupName w)
                   /\ startsWith (filterName f) expected = true)
        \/ length (existingFilters aws logGroupName w) < 2)
    /\ (length (existingFilters aws logGroupName w) = 2 ->
        (forall f, In f (existingFilters aws logGroupName w) ->
                   startsWith (filterName f) expected = false) ->
        allow = false)
    /\ (length (existingFilters aws logGroupName w) = 1 ->
        (forall f, In f (existingFilters aws logGroupName w) ->
                   startsWith (filterName f) expected = false) ->
        allow = true).
Proof.
  eexists. split; [apply canSubscribeLogGroup_run|].
  set (filters := existingFilters aws logGroupName w).
  assert (Hiff :
    existsb (fun f => startsWith (filterName f) expected) filters
    || (length filters <? 2)%nat = true <->
    (exists f, In f filters /\ startsWith (filterName f) expected = true)
    \/ length filters < 2).
  { rewrite orb_true_iff, existsb_exists, Nat.ltb_lt. reflexivity. }
  split; [exact Hiff|]. split.
  - intros Hlen Hnone.
    apply not_true_is_false. rewrite Hiff. intros [(f & Hin & Hpre)|Hlt]; [|lia].
    rewrite (Hnone f Hin) in Hpre. discriminate.
  - intros Hlen _. apply Hiff. right. lia.
Qed.

(** C6.  When the log service rejects the query, the list of existing
    filters is empty, nothing is thrown, and the quota enforcer allows. *)
Theorem describeSubscriptionFilters_swallows_failure
  (aws : Aws) (logGroupName : string) (w : World) :
  listSubscriptionFilters aws (requests w) logGroupName = None ->
  describeSubscriptionFilters aws logGroupName w
  = (Ok [], record (CloudWatchLogsDescribeSubscriptionFilters logGroupName) w)
  /\ forall expected,
       canSubscribeLogGroup aws logGroupName expected w
       = (Ok true, record (CloudWatchLogsDescribeSubscriptionFilters logGroupName) w).
Proof.
  intros Hfail.
  assert (Hnone : existingFilters aws logGroupName w = []).
  { unfold existingFilters. now rewrite Hfail. }
  split.
  - rewrite describeSubscriptionFilters_run. now rewrite Hnone.
  - intros expected. rewrite canSubscribeLogGroup_run. now rewrite Hnone.
Qed.

Lemma describeSubscriptionFilters_swallows_failure_witness :
  describeSubscriptionFilters failingLogs "/aws/lambda/foo" emptyWorld
  = (Ok [], record (CloudWatchLogsDescribeSubscriptionFilters "/aws/lambda/foo") emptyWorld)
  /\ forall expected,
       canSubscribeLogGroup failingLogs "/aws/lambda/foo" expected emptyWorld
       = (Ok true,
          record (CloudWatchLogsDescribeSubscriptionFilters "/aws/lambda/foo") emptyWorld).
Proof.
  apply (describeSubscriptionFilters_swallows_failure failingLogs "/aws/lambda/foo" emptyWorld).
  reflexivity.
Defined.

Example canSubscribeLogGroup_full :
  fst (canSubscribeLogGroup (twoFilters "audit" "backup") "/aws/lambda/foo"
         "svc-dev-FooLogGroupSubscription-" emptyWorld) = Ok false.
Proof. reflexivity. Qed.

Example canSubscribeLogGroup_ours :
  fst (canSubscribeLogGroup
         (twoFilters "audit" "svc-dev-FooLogGroupSubscription-1ABC")
         "/aws/lambda/foo" "svc-dev-FooLogGroupSubscription-" emptyWorld) = Ok true.
Proof. reflexivity. Qed.

(** ** Assignments to the template *)

Section Assign.

Lemma assign_lookup_same (g : Graph) (k : string) (v : value) :
  lookup (assign g k v) k = Some v.
Proof.
  induction g as [|[k' old] g IH]; simpl.
  - now rewrite String.eqb_refl.
  - destruct (String.eqb_spec k' k) as [->|Hne]; simpl.
    + now rewrite String.eqb_refl.
    + apply String.eqb_neq in Hne. now rewrite Hne.
Qed.

Lemma assign_lookup_other (g : Graph) (k k' : string) (v : value) :
  k <> k' -> lookup (assign g k v) k' = lookup g k'.
Proof.
  intros Hkk'. induction g as [|[k0 old] g IH]; simpl.
  - apply String.eqb_neq in Hkk'. now rewrite Hkk'.
  - destruct (String.eqb_spec k0 k) as [->|Hne]; simpl.
    + apply String.eqb_neq in Hkk'. now rewrite Hkk'.
    + now rewrite IH.
Qed.

(** Writing the value that is already there changes nothing. *)
Lemma assign_same (g : Graph) (k : string) (v : value) :
  lookup g k = Some v -> assign g k v = g.
Proof.
  induction g as [|[k' old] g IH]; simpl; [discriminate|].
  destruct (String.eqb_spec k' k) as [->|Hne].
  - intros H. injection H as H. now rewrite H.
  - intros H. now rewrite IH.
Qed.

Lemma assign_keys (g : Graph) (k : string) (v : value) :
  map fst (assign g k v)
  = if in_dec string_dec k (map fst g) then map fst g
    else (map fst g ++ [k])%list.
Proof.
  induction g as [|[k' old] g IH]; simpl; [reflexivity|].
  destruct (String.eqb_spec k' k) as [->|Hne]; simpl.
  - destruct (string_dec k k); [|congruence].
    reflexivity.
  - rewrite IH. destruct (string_dec k' k) as [Heq|Hk]; [congruence|].
    destruct (in_dec string_dec k (map fst g)); reflexivity.
Qed.

(** An assignment never creates a second entry for a key. *)
Lemma assign_NoDup (g : Graph) (k : string) (v : value) :
  NoDup (map fst g) -> NoDup (map fst (assign g k v)).
Proof.
  intros Hnd. rewrite assign_keys.
  destruct (in_dec string_dec k (map fst g)) as [Hin|Hout]; [exact Hnd|].
  apply NoDup_app; [exact Hnd | repeat constructor; simpl; tauto |].
  intros x Hx [<-|[]]. contradiction.
Qed.

End Assign.

(** ** Execution log group synthesizer *)

Section Synthesizer.

Variables (service : Service) (aws : Aws) (functionArn : ForwarderArn).

Lemma addExecutionLogGroupsAndSubscriptions_run (g : Graph) (rs : list AwsRequest) :
  isLogsConfig (providerLogs service) = Ok true ->
  addExecutionLogGroupsAndSubscriptions service aws functionArn
    {| Resources := Some g; requests := rs |}
  = (Ok tt, {| Resources := Some (withWebsocketsPair service aws functionArn (withRestPair service aws functionArn g));
               requests := rs |}).
Proof.
  intros Hvalid.
  unfold addExecutionLogGroupsAndSubscriptions, bind, liftR, withWebsocketsPair,
    withRestPair.
  rewrite Hvalid. cbn [negb].
  destruct (restExecutionLoggingIsEnabled (providerLogs service));
    destruct (websocketExecutionLoggingIsEnabled (providerLogs service));
    reflexivity.
Qed.

(** Without a template the first enabled assignment throws, otherwise
    nothing happens; the world is the same in both cases. *)
Lemma addExecutionLogGroupsAndSubscriptions_no_template (rs : list AwsRequest) :
  exists r,
    addExecutionLogGroupsAndSubscriptions service aws functionArn
      {| Resources := None; requests := rs |}
    = (r, {| Resources := None; requests := rs |}).
Proof.
  unfold addExecutionLogGroupsAndSubscriptions, bind, liftR.
  destruct (isLogsConfig (providerLogs service)) as [[|]|e]; cbn [negb];
    [|eexists; reflexivity|eexists; reflexivity].
  destruct (restExecutionLoggingIsEnabled (providerLogs service));
    destruct (websocketExecutionLoggingIsEnabled (providerLogs service));
    eexists; reflexivity.
Qed.

Lemma addExecutionLogGroupsAndSubscriptions_rejected (w : World) :
  isLogsConfig (providerLogs service) <> Ok true ->
  addExecutionLogGroupsAndSubscriptions service aws functionArn w
  = (match isLogsConfig (providerLogs service) with
     | Ok _ => Ok tt
     | Throw e => Throw e
     end, w).
Proof.
  intros Hinvalid.
  unfold addExecutionLogGroupsAndSubscriptions, bind, liftR.
  destruct (isLogsConfig (providerLogs service)) as [[|]|e];
    [congruence|reflexivity|reflexivity].
Qed.

Ltac lookup_assigned :=
  repeat (rewrite assign_lookup_other by discriminate);
  apply assign_lookup_same.

Lemma withRestPair_lookup (g : Graph) :
  restExecutionLoggingIsEnabled (providerLogs service) = true ->
  lookup (withWebsocketsPair service aws functionArn (withRestPair service aws functionArn g)) REST_EXECUTION_LOG_GROUP_KEY
  = Some (restExecutionLogGroup aws)
  /\ lookup (withWebsocketsPair service aws functionArn (withRestPair service aws functionArn g)) REST_EXECUTION_SUBSCRIPTION_KEY
     = Some (restExecutionSubscription functionArn).
Proof.
  intros Hrest. unfold withWebsocketsPair, withRestPair. rewrite Hrest.
  destruct (websocketExecutionLoggingIsEnabled (providerLogs service));
    split; lookup_assigned.
Qed.

Lemma withWebsocketsPair_lookup (g : Graph) :
  websocketExecutionLoggingIsEnabled (providerLogs service) = true ->
  lookup (withWebsocketsPair service aws functionArn g) WEBSOCKETS_EXECUTION_LOG_GROUP_KEY
  = Some (websocketsExecutionLogGroup aws)
  /\ lookup (withWebsocketsPair service aws functionArn g) WEBSOCKETS_EXECUTION_SUBCRIPTION_KEY
     = Some (websocketsExecutionSubscription functionArn).
Proof.
  intros Hws. unfold withWebsocketsPair. rewrite Hws.
  split; lookup_assigned.
Qed.

Lemma synthesized_NoDup (g : Graph) :
  NoDup (map fst g) -> NoDup (map fst (withWebsocketsPair service aws functionArn (withRestPair service aws functionArn g))).
Proof.
  intros Hnd. unfold withWebsocketsPair, withRestPair.
  destruct (restExecutionLoggingIsEnabled (providerLogs service));
    destruct (websocketExecutionLoggingIsEnabled (providerLogs service));
    repeat apply assign_NoDup; exact Hnd.
Qed.

(** The second run finds its four values in place. *)
Lemma synthesized_fixpoint (g : Graph) :
  withWebsocketsPair service aws functionArn (withRestPair service aws functionArn (withWebsocketsPair service aws functionArn (withRestPair service aws functionArn g)))
  = withWebsocketsPair service aws functionArn (withRestPair service aws functionArn g).
Proof.
  destruct (restExecutionLoggingIsEnabled (providerLogs service)) eqn:Hrest;
    destruct (websocketExecutionLoggingIsEnabled (providerLogs service)) eqn:Hws.
  - destruct (withRestPair_lookup g Hrest) as [Hg Hs].
    destruct (withWebsocketsPair_lookup (withRestPair service aws functionArn g) Hws) as [Hwg Hwss].
    set (g' := withWebsocketsPair service aws functionArn (withRestPair service aws functionArn g)) in *.
    unfold withWebsocketsPair at 1. rewrite Hws.
    unfold withRestPair at 1. rewrite Hrest.
    rewrite (assign_same g' _ _ Hg), (assign_same g' _ _ Hs).
    now rewrite (assign_same g' _ _ Hwg), (assign_same g' _ _ Hwss).
  - destruct (withRestPair_lookup g Hrest) as [Hg Hs].
    set (g' := withWebsocketsPair service aws functionArn (withRestPair service aws functionArn g)) in *.
    unfold withWebsocketsPair at 1. rewrite Hws.
    unfold withRestPair at 1. rewrite Hrest.
    now rewrite (assign_same g' _ _ Hg), (assign_same g' _ _ Hs).
  - destruct (withWebsocketsPair_lookup (withRestPair service aws functionArn g) Hws) as [Hwg Hwss].
    set (g' := withWebsocketsPair service aws functionArn (withRestPair service aws functionArn g)) in *.
    unfold withWebsocketsPair at 1. rewrite Hws.
    unfold withRestPair at 1. rewrite Hrest.
    now rewrite (assign_same g' _ _ Hwg), (assign_same g' _ _ Hwss).
  - unfold withWebsocketsPair, withRestPair. now rewrite Hrest, Hws.
Qed.

End Synthesizer.

(** C7.  Running the synthesizer a second time, on the world the first run
    left, gives the same outcome and leaves that world as it is.  On a
    template and a valid configuration the run succeeds; each enabled pair
    is then found under its fixed logical ids with a content that depends
    only on the stage and the forwarder, whatever was stored there before,
    and a template without duplicate ids stays so. *)
Theorem addExecutionLogGroupsAndSubscriptions_idempotent
  (service : Service) (aws : Aws) (functionArn : ForwarderArn) (w : World) :
  let once := addExecutionLogGroupsAndSubscriptions service aws functionArn w in
  addExecutionLogGroupsAndSubscriptions service aws functionArn (snd once) = once
  /\ forall g,
       Resources w = Some g ->
       isLogsConfig (providerLogs service) = Ok true ->
       exists g',
         once = (Ok tt, {| Resources := Some g'; requests := requests w |})
         /\ (restExecutionLoggingIsEnabled (providerLogs service) = true ->
             lookup g' REST_EXECUTION_LOG_GROUP_KEY
             = Some (restExecutionLogGroup aws)
             /\ lookup g' REST_EXECUTION_SUBSCRIPTION_KEY
                = Some (restExecutionSubscription functionArn))
         /\ (websocketExecutionLoggingIsEnabled (providerLogs service) = true ->
             lookup g' WEBSOCKETS_EXECUTION_LOG_GROUP_KEY
             = Some (websocketsExecutionLogGroup aws)
             /\ lookup g' WEBSOCKETS_EXECUTION_SUBCRIPTION_KEY
                = Some (websocketsExecutionSubscription functionArn))
         /\ (NoDup (map fst g) -> NoDup (map fst g')).
Proof.
  cbv zeta. split.
  - destruct w as [[g|] rs].
    + destruct (isLogsConfig (providerLogs service)) as [[|]|e] eqn:Hcfg.
      * rewrite (addExecutionLogGroupsAndSubscriptions_run _ _ _ _ _ Hcfg).
        cbn [snd].
        rewrite (addExecutionLogGroupsAndSubscriptions_run _ _ _ _ _ Hcfg).
        now rewrite synthesized_fixpoint.
      * rewrite !addExecutionLogGroupsAndSubscriptions_rejected by congruence.
        reflexivity.
      * rewrite !addExecutionLogGroupsAndSubscriptions_rejected by congruence.
        reflexivity.
    + destruct (addExecutionLogGroupsAndSubscriptions_no_template
                  service aws functionArn rs) as [r Hr].
      rewrite Hr. exact Hr.
  - intros g Hg Hcfg. destruct w as [g0 rs]. cbn in Hg. subst g0.
    exists (withWebsocketsPair service aws functionArn
              (withRestPair service aws functionArn g)).
    split; [now apply addExecutionLogGroupsAndSubscriptions_run|].
    split; [apply withRestPair_lookup|].
    split; [apply withWebsocketsPair_lookup|].
    apply synthesized_NoDup.
Qed.

(** ** Subscription decision engine *)

Section Engine.

Variables (service : Service) (aws : Aws).

Lemma bind_ext {A B : Type} (m : M A) (k1 k2 : A -> M B) (w : World) :
  (forall a w', k1 a w' = k2 a w') -> bind m k1 w = bind m k2 w.
Proof.
  intros Hk. unfold bind. destruct (m w) as [[a|e] w']; [apply Hk|reflexivity].
Qed.

Lemma validateForwarderArn_run (functionArn : ForwarderArn) (w : World) :
  validateForwarderArn aws functionArn w
  = (if getFunction aws (requests w) functionArn then Ok tt
     else Throw (DatadogForwarderNotFoundError
                   ("Could not perform GetFunction on "
                    ++ arnToString functionArn ++ ".")),
     record (LambdaGetFunction functionArn) w).
Proof.
  unfold validateForwarderArn, tryCatch, requestGetFunction, throw.
  destruct (getFunction aws (requests w) functionArn); reflexivity.
Qed.

Lemma typeof_string (v : value) :
  String.eqb (typeof v) "string" = true -> exists s, v = VStr s.
Proof. destruct v; simpl; try discriminate. intros _. now eexists. Qed.

(** A subscribed resource carries a literal log group name: the last
    branch of the [match] in [subscribeEntries] is dead. *)
Lemma shouldSubscribe_name name resource forwarderConfigs handlers :
  shouldSubscribe name resource forwarderConfigs handlers service = Ok true ->
  exists properties s,
    getProp resource "Properties" = Ok properties
    /\ getProp properties "LogGroupName" = Ok (VStr s).
Proof.
  unfold shouldSubscribe.
  destruct (isLogGroup resource) as [[|]|e]; cbn [bindR negb]; try discriminate.
  destruct (getProp resource "Properties") as [properties|e];
    cbn [bindR]; [|discriminate].
  destruct (getProp properties "LogGroupName") as [n|e] eqn:Hname;
    cbn [bindR]; [|discriminate].
  destruct (String.eqb (typeof n) "string") eqn:Hn; cbn [negb]; [|discriminate].
  intros _. destruct (typeof_string n Hn) as [s ->]. now exists properties, s.
Qed.

(** With [subscribe] off none of the three API validations says yes. *)
Lemma validate_off (enabled : bool) (named : Result bool) :
  andR (andR (Ok enabled) named) (Ok false) <> Ok true.
Proof. destruct enabled, named as [[|]|e]; discriminate. Qed.

Lemma validateApiSubscription_off resource extendedProvider :
  validateApiSubscription resource false extendedProvider <> Ok true.
Proof.
  unfold validateApiSubscription, validateRestApiSubscription,
    validateHttpApiSubscription, validateWebsocketSubscription.
  pose proof (validate_off (restAccessLoggingIsEnabled extendedProvider)
                (logGroupNameStartsWith resource "/aws/api-gateway/")) as Hrest.
  pose proof (validate_off (httpAccessLoggingIsEnabled extendedProvider)
                (logGroupNameStartsWith resource "/aws/http-api/")) as Hhttp.
  pose proof (validate_off (websocketAccessLoggingIsEnabled extendedProvider)
                (logGroupNameStartsWith resource "/aws/websocket/")) as Hws.
  destruct (andR (andR (Ok (restAccessLoggingIsEnabled extendedProvider)) _) _)
    as [[|]|e1]; [congruence| |discriminate].
  destruct (andR (andR (Ok (httpAccessLoggingIsEnabled extendedProvider)) _) _)
    as [[|]|e2]; [congruence| |discriminate].
  exact Hws.
Qed.

(** Extension on, access-log subscription off: nothing is subscribed. *)
Lemma shouldSubscribe_extension_only name resource forwarderConfigs handlers :
  AddExtension forwarderConfigs = true ->
  SubToAccessLogGroups forwarderConfigs = false ->
  shouldSubscribe name resource forwarderConfigs handlers service <> Ok true.
Proof.
  intros Hext Hacc. unfold shouldSubscribe. rewrite Hext, Hacc.
  destruct (isLogGroup resource) as [[|]|e]; cbn [bindR negb]; try discriminate.
  destruct (getProp resource "Properties") as [properties|e];
    cbn [bindR]; [|discriminate].
  destruct (getProp properties "LogGroupName") as [n|e];
    cbn [bindR]; [|discriminate].
  destruct (String.eqb (typeof n) "string"); cbn [negb]; [|discriminate].
  pose proof (validateApiSubscription_off resource (providerLogs service)) as Hoff.
  destruct (validateApiSubscription resource false (providerLogs service))
    as [[|]|e]; [congruence|discriminate|discriminate].
Qed.

(** A loop in which no entry is subscribed touches neither the template
    nor AWS. *)
Lemma subscribeEntries_none functionArn forwarderConfigs handlers entries :
  (forall name resource,
      In (name, resource) entries ->
      shouldSubscribe name resource forwarderConfigs handlers service <> Ok true) ->
  forall errors w,
    snd (subscribeEntries service aws functionArn forwarderConfigs handlers
           entries errors w) = w.
Proof.
  induction entries as [|[name resource] rest IH]; intros Hnone errors w.
  - reflexivity.
  - cbn [subscribeEntries]. unfold bind at 1, liftR at 1.
    pose proof (Hnone name resource (or_introl eq_refl)) as Hhere.
    destruct (shouldSubscribe name resource forwarderConfigs handlers service)
      as [[|]|e]; [congruence| |reflexivity].
    cbn [negb]. apply IH. intros n r Hin. apply Hnone. now right.
Qed.

(** The loop does not look at [SubToExecutionLogGroups]. *)
Lemma subscribeEntries_execution_flag
  functionArn handlers entries (ae : bool) (it : option bool) (sa se1 se2 : bool) :
  forall errors w,
    subscribeEntries service aws functionArn
      {| AddExtension := ae; IntegrationTesting := it;
         SubToAccessLogGroups := sa; SubToExecutionLogGroups := se1 |}
      handlers entries errors w
    = subscribeEntries service aws functionArn
        {| AddExtension := ae; IntegrationTesting := it;
           SubToAccessLogGroups := sa; SubToExecutionLogGroups := se2 |}
        handlers entries errors w.
Proof.
  induction entries as [|[name resource] rest IH]; intros errors w.
  - reflexivity.
  - cbn [subscribeEntries].
    change (shouldSubscribe name resource
              {| AddExtension := ae; IntegrationTesting := it;
                 SubToAccessLogGroups := sa; SubToExecutionLogGroups := se1 |}
              handlers service)
      with (shouldSubscribe name resource
              {| AddExtension := ae; IntegrationTesting := it;
                 SubToAccessLogGroups := sa; SubToExecutionLogGroups := se2 |}
              handlers service).
    apply bind_ext. intros [|] w1; cbn [negb]; [|apply IH].
    apply bind_ext. intros properties w2.
    apply bind_ext. intros n w3.
    destruct n; try reflexivity.
    apply bind_ext. intros [|] w4; cbn [negb]; [|apply IH].
    apply bind_ext. intros _ w5. apply IH.
Qed.

End Engine.

(** C10.  Two runs that differ only in [SubToExecutionLogGroups] end with
    the same outcome, the same warnings, the same template and the same AWS
    requests. *)
Theorem addCloudWatchForwarderSubscriptions_execution_flag
  (service : Service) (aws : Aws) (functionArn : ForwarderArn)
  (handlers : list FunctionInfo.t) (w : World)
  (ae : bool) (it : option bool) (sa se1 se2 : bool) :
  addCloudWatchForwarderSubscriptions service aws functionArn
    {| AddExtension := ae; IntegrationTesting := it;
       SubToAccessLogGroups := sa; SubToExecutionLogGroups := se1 |}
    handlers w
  = addCloudWatchForwarderSubscriptions service aws functionArn
      {| AddExtension := ae; IntegrationTesting := it;
         SubToAccessLogGroups := sa; SubToExecutionLogGroups := se2 |}
      handlers w.
Proof.
  unfold addCloudWatchForwarderSubscriptions.
  apply bind_ext. intros [g|] w1; [|reflexivity].
  cbn [IntegrationTesting].
  apply bind_ext. intros errors w2.
  apply subscribeEntries_execution_flag.
Qed.

(** C3.  With the extension on and access-log subscription off the run
    leaves the template exactly as it found it, whatever the graph, the
    handlers, the logging configuration and the other two flags are, and
    however the run ends. *)
Theorem addCloudWatchForwarderSubscriptions_extension_only
  (service : Service) (aws : Aws) (functionArn : ForwarderArn)
  (forwarderConfigs : ForwarderConfigs) (handlers : list FunctionInfo.t)
  (w : World) :
  AddExtension forwarderConfigs = true ->
  SubToAccessLogGroups forwarderConfigs = false ->
  Resources (snd (addCloudWatchForwarderSubscriptions
                    service aws functionArn forwarderConfigs handlers w))
  = Resources w.
Proof.
  intros Hext Hacc.
  unfold addCloudWatchForwarderSubscriptions, bind at 1, getResources.
  destruct (Resources w) as [g|] eqn:Hg; [|exact Hg].
  unfold bind.
  assert (Hloop : forall errors w',
    snd (subscribeEntries service aws functionArn forwarderConfigs handlers
           g errors w') = w').
  { apply subscribeEntries_none. intros name resource _.
    now apply shouldSubscribe_extension_only. }
  destruct functionArn as [s|o].
  - destruct (IntegrationTesting forwarderConfigs) as [[|]|].
    + unfold ret. now rewrite Hloop.
    + rewrite validateForwarderArn_run.
      destruct (getFunction aws (requests w) (ArnString s));
        [unfold ret; now rewrite Hloop | exact Hg].
    + rewrite validateForwarderArn_run.
      destruct (getFunction aws (requests w) (ArnString s));
        [unfold ret; now rewrite Hloop | exact Hg].
  - unfold ret. now rewrite Hloop.
Qed.

(** C5.  On a template, with a literal forwarder, integration testing not
    switched on and a failing [getFunction], the run throws
    [DatadogForwarderNotFoundError]; that one request is all that was sent
    to AWS, so no candidate was looked at, and the template is untouched. *)
Theorem addCloudWatchForwarderSubscriptions_forwarder_not_found
  (service : Service) (aws : Aws) (arn : string)
  (forwarderConfigs : ForwarderConfigs) (handlers : list FunctionInfo.t)
  (w : World) (g : Graph) :
  Resources w = Some g ->
  IntegrationTesting forwarderConfigs <> Some true ->
  getFunction aws (requests w) (ArnString arn) = false ->
  addCloudWatchForwarderSubscriptions service aws (ArnString arn)
    forwarderConfigs handlers w
  = (Throw (DatadogForwarderNotFoundError
              ("Could not perform GetFunction on " ++ arn ++ ".")),
     {| Resources := Some g;
        requests := (requests w ++ [LambdaGetFunction (ArnString arn)])%list |}).
Proof.
  intros Hg Hit Hfail.
  unfold addCloudWatchForwarderSubscriptions, bind at 1, getResources.
  rewrite Hg. unfold bind.
  destruct (IntegrationTesting forwarderConfigs) as [[|]|]; [congruence| |];
    rewrite validateForwarderArn_run, Hfail; unfold record; now rewrite Hg.
Qed.

Lemma addCloudWatchForwarderSubscriptions_forwarder_not_found_witness :
  addCloudWatchForwarderSubscriptions plainService noFunctions (ArnString "arn:fwd")
    forwarderOnly [{| FunctionInfo.name := "foo" |}] fooWorld
  = (Throw (DatadogForwarderNotFoundError
              "Could not perform GetFunction on arn:fwd."),
     {| Resources := Some [("FooLogGroup", fooLogGroup)];
        requests := [LambdaGetFunction (ArnString "arn:fwd")] |}).
Proof.
  apply (addCloudWatchForwarderSubscriptions_forwarder_not_found
           plainService noFunctions "arn:fwd" forwarderOnly
           [{| FunctionInfo.name := "foo" |}] fooWorld
           [("FooLogGroup", fooLogGroup)]).
  - reflexivity.
  - discriminate.
  - reflexivity.
Defined.

Lemma addCloudWatchForwarderSubscriptions_extension_only_witness :
  Resources (snd (addCloudWatchForwarderSubscriptions
                    restLoggingService everythingExists (ArnString "arn:fwd")
                    extensionOnly [{| FunctionInfo.name := "foo" |}] apiWorld))
  = Resources apiWorld.
Proof.
  apply (addCloudWatchForwarderSubscriptions_extension_only
           restLoggingService everythingExists (ArnString "arn:fwd")
           extensionOnly [{| FunctionInfo.name := "foo" |}] apiWorld);
    reflexivity.
Defined.

(** The same run with access-log subscription switched on does subscribe
    the API gateway log group (and still leaves the lambda log group to the
    extension). *)
Example addCloudWatchForwarderSubscriptions_access_logs :
  Resources (snd (addCloudWatchForwarderSubscriptions
                    restLoggingService everythingExists (ArnString "arn:fwd")
                    {| AddExtension := true; IntegrationTesting := None;
                       SubToAccessLogGroups := true;
                       SubToExecutionLogGroups := true |}
                    [{| FunctionInfo.name := "foo" |}] apiWorld))
  = Some [("ApiGatewayLogGroup", apiLogGroup);
          ("FooLogGroup", fooLogGroup);
          ("ApiGatewayLogGroupSubscription",
           subscribeToLogGroup (ArnString "arn:fwd") "ApiGatewayLogGroup")].
Proof. reflexivity. Qed.

(** C2.  The end-to-end scenario: the template holds the single log group
    [FooLogGroup] named [/aws/lambda/foo], [foo] is the only handler, the
    extension is off, access logs are subscribed, execution logs are not,
    and the log service reports no filter.  The forwarder is a literal ARN
    that the function service knows and integration testing is not switched
    on (otherwise the skipped validation is reported as a warning).  The run
    then returns no warning and appends exactly one entry,
    [FooLogGroupSubscription], a subscription filter whose destination is
    the forwarder, with an empty pattern, on [{ Ref: "FooLogGroup" }]. *)
Theorem addCloudWatchForwarderSubscriptions_end_to_end
  (service : Service) (aws : Aws) (arn : string) (it : option bool)
  (rs : list AwsRequest) :
  it <> Some true ->
  getFunction aws rs (ArnString arn) = true ->
  (forall history,
      listSubscriptionFilters aws history "/aws/lambda/foo"
      = Some {| subscriptionFilters := [] |}) ->
  addCloudWatchForwarderSubscriptions service aws (ArnString arn)
    {| AddExtension := false; IntegrationTesting := it;
       SubToAccessLogGroups := true; SubToExecutionLogGroups := false |}
    [{| FunctionInfo.name := "foo" |}]
    {| Resources := Some [("FooLogGroup", fooLogGroup)]; requests := rs |}
  = (Ok [],
     {| Resources :=
          Some [("FooLogGroup", fooLogGroup);
                ("FooLogGroupSubscription", fooLogGroupSubscription (ArnString arn))];
        requests :=
          (rs ++ [LambdaGetFunction (ArnString arn)]
              ++ [CloudWatchLogsDescribeSubscriptionFilters "/aws/lambda/foo"])%list |}).
Proof.
  intros Hit Hexists Hnone.
  unfold addCloudWatchForwarderSubscriptions, bind at 1, getResources.
  cbn [Resources IntegrationTesting].
  assert (Hvalidated :
    bind (validateForwarderArn aws (ArnString arn)) (fun _ => ret [])
      {| Resources := Some [("FooLogGroup", fooLogGroup)]; requests := rs |}
    = (Ok ([] : list string),
       record (LambdaGetFunction (ArnString arn))
         {| Resources := Some [("FooLogGroup", fooLogGroup)]; requests := rs |})).
  { unfold bind. rewrite validateForwarderArn_run. cbn [requests].
    now rewrite Hexists. }
  unfold bind at 1.
  destruct it as [[|]|]; [congruence| |]; rewrite Hvalidated;
    cbn [subscribeEntries];
    unfold bind at 1, liftR at 1;
    change (shouldSubscribe "FooLogGroup" fooLogGroup _ _ service) with (Ok true);
    cbn [negb];
    unfold bind, liftR; cbn [getProp fooLogGroup getOpt lookup String.eqb Ascii.eqb Bool.eqb];
    rewrite canSubscribeLogGroup_run;
    unfold existingFilters; rewrite Hnone;
    unfold record; cbn; rewrite <- app_assoc; reflexivity.
Qed.

Lemma addCloudWatchForwarderSubscriptions_end_to_end_witness :
  addCloudWatchForwarderSubscriptions plainService everythingExists (ArnString "arn:fwd")
    forwarderOnly [{| FunctionInfo.name := "foo" |}] fooWorld
  = (Ok [],
     {| Resources :=
          Some [("FooLogGroup", fooLogGroup);
                ("FooLogGroupSubscription",
                 fooLogGroupSubscription (ArnString "arn:fwd"))];
        requests := [LambdaGetFunction (ArnString "arn:fwd");
                     CloudWatchLogsDescribeSubscriptionFilters "/aws/lambda/foo"] |}).
Proof.
  apply (addCloudWatchForwarderSubscriptions_end_to_end
           plainService everythingExists "arn:fwd" None []).
  - discriminate.
  - reflexivity.
  - reflexivity.
Defined.

(** C9 (as the source decides it).  When the service has no compiled
    template, that is when [Resources] is [undefined], the run returns the
    single warning about the missing stack, sends nothing to AWS and
    changes nothing. *)
Theorem addCloudWatchForwarderSubscriptions_no_template
  (service : Service) (aws : Aws) (functionArn : ForwarderArn)
  (forwarderConfigs : ForwarderConfigs) (handlers : list FunctionInfo.t)
  (w : World) :
  Resources w = None ->
  addCloudWatchForwarderSubscriptions service aws functionArn forwarderConfigs
    handlers w
  = (Ok ["No cloudformation stack available. Skipping subscribing Datadog forwarder."],
     w).
Proof.
  intros Hnone.
  unfold addCloudWatchForwarderSubscriptions, bind, getResources.
  now rewrite Hnone.
Qed.

Lemma addCloudWatchForwarderSubscriptions_no_template_witness :
  addCloudWatchForwarderSubscriptions plainService everythingExists
    (ArnString "arn:fwd") forwarderOnly [{| FunctionInfo.name := "foo" |}] noTemplate
  = (Ok ["No cloudformation stack available. Skipping subscribing Datadog forwarder."],
     noTemplate).
Proof.
  apply (addCloudWatchForwarderSubscriptions_no_template
           plainService everythingExists (ArnString "arn:fwd") forwarderOnly
           [{| FunctionInfo.name := "foo" |}] noTemplate).
  reflexivity.
Defined.

(** C9 as stated fails on a template that is present and has no entries:
    the forwarder is validated with one request to AWS and the run returns
    no warning at all. *)
Lemma addCloudWatchForwarderSubscriptions_empty_template :
  Resources emptyWorld = Some []
  /\ addCloudWatchForwarderSubscriptions plainService everythingExists
       (ArnString "arn:fwd") forwarderOnly [{| FunctionInfo.name := "foo" |}]
       emptyWorld
     = (Ok [],
        {| Resources := Some [];
           requests := [LambdaGetFunction (ArnString "arn:fwd")] |})
  /\ addCloudWatchForwarderSubscriptions plainService everythingExists
       (ArnString "arn:fwd") forwarderOnly [{| FunctionInfo.name := "foo" |}]
       emptyWorld
     <> (Ok ["No cloudformation stack available. Skipping subscribing Datadog forwarder."],
         emptyWorld).
Proof. repeat split. discriminate. Qed.

(** ** Config interpreter *)

Section WrongTyped.

(** The validators throw nothing but [TypeError]. *)
Lemma hasOwnProperty_throws obj p e :
  hasOwnProperty obj p = Throw e -> e = TypeError.
Proof.
  destruct obj as [| | | | | |fields]; simpl; try congruence.
  destruct (lookup fields "hasOwnProperty"); [congruence|].
  destruct (lookup fields p); congruence.
Qed.

Lemma isSubLogsConfig_throws obj e :
  isSubLogsConfig obj = Throw e -> e = TypeError.
Proof.
  unfold isSubLogsConfig.
  destruct (String.eqb (typeof obj) "boolean"); [discriminate|].
  destruct (String.eqb (typeof obj) "object"); cbn [negb]; [|discriminate].
  destruct (hasOwnProperty obj "accessLogging") as [a|e1] eqn:Ha; cbn [bindR].
  - destruct (a && _); [discriminate|].
    destruct (hasOwnProperty obj "executionLogging") as [x|e2] eqn:Hx; cbn [bindR].
    + destruct (x && _); discriminate.
    + intros [= <-]. eapply hasOwnProperty_throws; eassumption.
  - intros [= <-]. eapply hasOwnProperty_throws; eassumption.
Qed.

Lemma categoryIsValid_throws obj category e :
  categoryIsValid obj category = Throw e -> e = TypeError.
Proof.
  unfold categoryIsValid.
  destruct (hasOwnProperty obj category) as [[|]|e1] eqn:Hp; cbn [bindR].
  - apply isSubLogsConfig_throws.
  - discriminate.
  - intros [= <-]. eapply hasOwnProperty_throws; eassumption.
Qed.

Lemma isLogsConfig_throws obj e :
  isLogsConfig obj = Throw e -> e = TypeError.
Proof.
  unfold isLogsConfig.
  destruct (String.eqb (typeof obj) "object"); cbn [negb]; [|discriminate].
  destruct (categoryIsValid obj "restApi") as [[|]|e1] eqn:H1; cbn [bindR negb];
    [|discriminate|intros [= <-]; eapply categoryIsValid_throws; eassumption].
  destruct (categoryIsValid obj "httpApi") as [[|]|e2] eqn:H2; cbn [bindR negb];
    [|discriminate|intros [= <-]; eapply categoryIsValid_throws; eassumption].
  destruct (categoryIsValid obj "websocket") as [[|]|e3] eqn:H3; cbn [bindR negb];
    [discriminate|discriminate|
     intros [= <-]; eapply categoryIsValid_throws; eassumption].
Qed.

(** What [isSubLogsConfig] accepts is well typed. *)
Lemma isSubLogsConfig_accepts c :
  isSubLogsConfig c = Ok true ->
  String.eqb (typeof c) "boolean" || String.eqb (typeof c) "object" = true
  /\ specWrongTypedFlag c "accessLogging" = false
  /\ specWrongTypedFlag c "executionLogging" = false.
Proof.
  destruct c as [| |b|n|s|items|fields]; try discriminate;
    try (intros _; repeat split; reflexivity).
  unfold isSubLogsConfig, hasOwnProperty, specWrongTypedFlag.
  cbn [typeof String.eqb Ascii.eqb Bool.eqb negb getOpt].
  destruct (lookup fields "hasOwnProperty"); [discriminate|].
  destruct (lookup fields "accessLogging") as [a|];
    destruct (lookup fields "executionLogging") as [x|]; cbn [bindR andb];
    try destruct (String.eqb (typeof a) "boolean");
    try destruct (String.eqb (typeof x) "boolean");
    cbn [bindR andb negb strictEq];
    try discriminate; intros _; repeat split; reflexivity.
Qed.

Lemma categoryIsValid_accepts obj category :
  categoryIsValid obj category = Ok true ->
  specWrongTypedCategory obj category = false.
Proof.
  destruct obj as [| | | | | |fields]; try reflexivity.
  unfold categoryIsValid, hasOwnProperty, specWrongTypedCategory.
  cbn [getOpt].
  destruct (lookup fields "hasOwnProperty"); [discriminate|].
  destruct (lookup fields category) as [c|]; cbn [bindR]; [|reflexivity].
  intros Hc. apply isSubLogsConfig_accepts in Hc.
  destruct Hc as (-> & -> & ->). reflexivity.
Qed.

Lemma isLogsConfig_accepts obj :
  isLogsConfig obj = Ok true -> specWrongTyped obj = false.
Proof.
  unfold isLogsConfig, specWrongTyped.
  destruct (String.eqb (typeof obj) "object") eqn:Hobj; cbn [negb];
    [|discriminate].
  destruct (categoryIsValid obj "restApi") as [[|]|e1] eqn:H1; cbn [bindR negb];
    try discriminate.
  destruct (categoryIsValid obj "httpApi") as [[|]|e2] eqn:H2; cbn [bindR negb];
    try discriminate.
  destruct (categoryIsValid obj "websocket") as [[|]|e3] eqn:H3; cbn [bindR negb];
    try discriminate.
  intros _.
  rewrite (categoryIsValid_accepts _ _ H1), (categoryIsValid_accepts _ _ H2),
    (categoryIsValid_accepts _ _ H3).
  destruct obj; reflexivity.
Qed.

End WrongTyped.

(** C8 (as the source handles it).  A wrong-typed logging configuration is
    never accepted by [isLogsConfig]: the answer is [false], or the check
    itself stops with a [TypeError].  No error of the module's own is
    raised: after the answer [false] the synthesizer returns normally, and
    in both cases it has neither resolved a flag nor touched the template
    or AWS. *)
Theorem addExecutionLogGroupsAndSubscriptions_wrong_typed
  (service : Service) (aws : Aws) (functionArn : ForwarderArn) (w : World) :
  specWrongTyped (providerLogs service) = true ->
  (isLogsConfig (providerLogs service) = Ok false
   /\ addExecutionLogGroupsAndSubscriptions service aws functionArn w = (Ok tt, w))
  \/ (isLogsConfig (providerLogs service) = Throw TypeError
      /\ addExecutionLogGroupsAndSubscriptions service aws functionArn w
         = (Throw TypeError, w)).
Proof.
  intros Hwrong.
  assert (Hrejected : isLogsConfig (providerLogs service) <> Ok true).
  { intros Hok. apply isLogsConfig_accepts in Hok. congruence. }
  rewrite (addExecutionLogGroupsAndSubscriptions_rejected _ _ _ _ Hrejected).
  destruct (isLogsConfig (providerLogs service)) as [[|]|e] eqn:Hcfg.
  - congruence.
  - left. split; reflexivity.
  - right. apply isLogsConfig_throws in Hcfg. subst e. split; reflexivity.
Qed.

Lemma addExecutionLogGroupsAndSubscriptions_wrong_typed_witness :
  (isLogsConfig (providerLogs wrongTypedHttpApi) = Ok false
   /\ addExecutionLogGroupsAndSubscriptions wrongTypedHttpApi everythingExists
        (ArnString "arn:fwd") fooWorld = (Ok tt, fooWorld))
  \/ (isLogsConfig (providerLogs wrongTypedHttpApi) = Throw TypeError
      /\ addExecutionLogGroupsAndSubscriptions wrongTypedHttpApi everythingExists
           (ArnString "arn:fwd") fooWorld = (Throw TypeError, fooWorld)).
Proof.
  apply (addExecutionLogGroupsAndSubscriptions_wrong_typed
           wrongTypedHttpApi everythingExists (ArnString "arn:fwd") fooWorld).
  reflexivity.
Defined.

(** C8 as stated fails: on a configuration whose [restApi] is a string the
    synthesizer returns normally, no error is raised. *)
Lemma addExecutionLogGroupsAndSubscriptions_no_error_raised :
  specWrongTyped (providerLogs stringCategory) = true
  /\ addExecutionLogGroupsAndSubscriptions stringCategory everythingExists
       (ArnString "arn:fwd") fooWorld = (Ok tt, fooWorld)
  /\ forall e,
       fst (addExecutionLogGroupsAndSubscriptions stringCategory everythingExists
              (ArnString "arn:fwd") fooWorld) <> Throw e.
Proof. repeat split. discriminate. Qed.

(** The decision engine does not validate the configuration at all: with the
    wrong-typed configuration above an API gateway log group is still
    subscribed on the strength of its [restApi: true]. *)
Remark shouldSubscribe_resolves_unvalidated :
  isLogsConfig (providerLogs wrongTypedHttpApi) = Ok false
  /\ shouldSubscribe "ApiGatewayLogGroup" apiLogGroup forwarderOnly [] wrongTypedHttpApi
     = Ok true.
Proof. split; reflexivity. Qed.


(** * Further properties of the forwarder module *)

(** ** Config interpreter *)

Section Resolution.

Lemma strictEq_bool (v : value) (b : bool) :
  strictEq v (VBool b) = true <-> v = VBool b.
Proof.
  destruct v; simpl; try (split; [discriminate | intros [=]]).
  rewrite Bool.eqb_true_iff. split; [now intros -> | now intros [= ->]].
Qed.

Lemma loggingIsEnabled_iff (category flag : string) (obj : value) :
  loggingIsEnabled category flag obj = true <->
  getOpt obj category = VBool true
  \/ getOpt (getOpt obj category) flag = VBool true.
Proof.
  unfold loggingIsEnabled.
  destruct (strictEq (getOpt obj category) (VBool false)) eqn:Hfalse.
  - apply strictEq_bool in Hfalse. rewrite Hfalse. simpl.
    split; [discriminate | intros [H|H]; discriminate].
  - rewrite orb_true_iff, !strictEq_bool. reflexivity.
Qed.

End Resolution.

(** X1.  Each of the five flags is on exactly when its category is the
    boolean [true] or the category's own sub-flag is the boolean [true];
    truthy values of another type switch nothing on. *)
Theorem logging_flags_resolution (obj : value) :
  (restAccessLoggingIsEnabled obj = true <->
   getOpt obj "restApi" = VBool true
   \/ getOpt (getOpt obj "restApi") "accessLogging" = VBool true)
  /\ (restExecutionLoggingIsEnabled obj = true <->
      getOpt obj "restApi" = VBool true
      \/ getOpt (getOpt obj "restApi") "executionLogging" = VBool true)
  /\ (httpAccessLoggingIsEnabled obj = true <->
      getOpt obj "httpApi" = VBool true
      \/ getOpt (getOpt obj "httpApi") "accessLogging" = VBool true)
  /\ (websocketAccessLoggingIsEnabled obj = true <->
      getOpt obj "websocket" = VBool true
      \/ getOpt (getOpt obj "websocket") "accessLogging" = VBool true)
  /\ (websocketExecutionLoggingIsEnabled obj = true <->
      getOpt obj "websocket" = VBool true
      \/ getOpt (getOpt obj "websocket") "executionLogging" = VBool true).
Proof. repeat split; apply loggingIsEnabled_iff. Qed.

Section Acceptance.

Lemma isSubLogsConfig_object (sub : list (string * value)) :
  lookup sub "hasOwnProperty" = None ->
  isSubLogsConfig (VObj sub)
  = Ok (booleanOrAbsent sub "accessLogging" && booleanOrAbsent sub "executionLogging").
Proof.
  intros Hown. unfold isSubLogsConfig, hasOwnProperty, booleanOrAbsent.
  cbn [typeof String.eqb Ascii.eqb Bool.eqb negb getOpt]. rewrite Hown.
  destruct (lookup sub "accessLogging") as [a|];
    destruct (lookup sub "executionLogging") as [x|]; cbn [bindR andb];
    try destruct a; try destruct x; reflexivity.
Qed.

Lemma categoryIsValid_object (fields : list (string * value)) (category : string) :
  lookup fields "hasOwnProperty" = None ->
  categoryIsValid (VObj fields) category = Ok true
  <-> acceptedCategory fields category = true.
Proof.
  intros Hown. unfold categoryIsValid, hasOwnProperty, acceptedCategory.
  rewrite Hown. cbn [getOpt].
  destruct (lookup fields category) as [c|]; cbn [bindR]; [|tauto].
  destruct c as [| |b|n|s|items|sub]; try (split; discriminate);
    try (split; reflexivity).
  destruct (lookup sub "hasOwnProperty") eqn:Hsub.
  - unfold isSubLogsConfig, hasOwnProperty.
    cbn [typeof String.eqb Ascii.eqb Bool.eqb negb]. rewrite Hsub.
    split; discriminate.
  - rewrite (isSubLogsConfig_object sub Hsub).
    split; [now intros [= ->] | now intros ->].
Qed.

Lemma categoryIsValid_total (fields : list (string * value)) (category : string) :
  lookup fields "hasOwnProperty" = None ->
  categoryIsValid (VObj fields) category = Ok (acceptedCategory fields category)
  \/ (categoryIsValid (VObj fields) category = Throw TypeError
      /\ acceptedCategory fields category = false).
Proof.
  intros Hown.
  pose proof (categoryIsValid_object fields category Hown) as Hiff.
  destruct (categoryIsValid (VObj fields) category) as [[|]|e] eqn:Hc.
  - left. f_equal. symmetry. now apply Hiff.
  - left. f_equal. symmetry. apply not_true_is_false. intros H.
    apply Hiff in H. discriminate.
  - right. apply categoryIsValid_throws in Hc. subst e. split; [reflexivity|].
    apply not_true_is_false. intros H. apply Hiff in H. discriminate.
Qed.

End Acceptance.

(** X2.  [isLogsConfig] answers [true] exactly on the accepted shapes: an
    array, or an object that has no own [hasOwnProperty] and whose present
    categories are booleans, arrays, or objects without own
    [hasOwnProperty] whose present sub-flags are booleans. *)
Theorem isLogsConfig_accepts_exactly (obj : value) :
  isLogsConfig obj = Ok true <-> acceptedLogsConfig obj = true.
Proof.
  destruct obj as [| |b|n|s|items|fields]; try (split; discriminate);
    try (split; reflexivity).
  unfold acceptedLogsConfig.
  destruct (lookup fields "hasOwnProperty") eqn:Hown.
  - unfold isLogsConfig, categoryIsValid, hasOwnProperty.
    cbn [typeof String.eqb Ascii.eqb Bool.eqb negb]. rewrite Hown.
    split; discriminate.
  - unfold isLogsConfig. cbn [typeof String.eqb Ascii.eqb Bool.eqb negb].
    destruct (categoryIsValid_total fields "restApi" Hown) as [-> | [-> ->]];
      [|split; discriminate].
    destruct (acceptedCategory fields "restApi"); cbn [bindR negb andb];
      [|split; discriminate].
    destruct (categoryIsValid_total fields "httpApi" Hown) as [-> | [-> ->]];
      [|split; discriminate].
    destruct (acceptedCategory fields "httpApi"); cbn [bindR negb andb];
      [|split; discriminate].
    destruct (categoryIsValid_total fields "websocket" Hown) as [-> | [-> ->]];
      [|split; discriminate].
    destruct (acceptedCategory fields "websocket"); cbn [bindR negb];
      split; congruence.
Qed.

(** ** The decision for one resource *)

Section Decision.

Variables (service : Service) (forwarderConfigs : ForwarderConfigs)
          (handlers : list FunctionInfo.t).

Lemma prefix_split (p s : string) :
  String.prefix p s = true -> exists t, s = p ++ t.
Proof.
  revert s. induction p as [|a p IH]; intros s.
  - intros _. now exists s.
  - destruct s as [|b s]; simpl; [discriminate|].
    destruct (ascii_dec a b) as [Hab|_]; [|discriminate].
    intros H. destruct (IH s H) as [t Ht]. exists t. now rewrite Hab, Ht.
Qed.

(** The lambda prefix excludes the three API prefixes. *)
Lemma lambda_not_api (extendedProvider : value) (s : string) :
  startsWith s "/aws/lambda/" = true -> accessLogCategory extendedProvider s = false.
Proof.
  intros H. apply prefix_split in H. destruct H as [t ->].
  unfold accessLogCategory.
  replace (startsWith ("/aws/lambda/" ++ t) "/aws/api-gateway/") with false
    by reflexivity.
  replace (startsWith ("/aws/lambda/" ++ t) "/aws/http-api/") with false
    by reflexivity.
  replace (startsWith ("/aws/lambda/" ++ t) "/aws/websocket/") with false
    by reflexivity.
  now rewrite !andb_false_r.
Qed.

Lemma literalLogGroup_reads (resource : value) (s : string) :
  literalLogGroup resource = Some s ->
  isLogGroup resource = Ok true
  /\ exists properties,
       getProp resource "Properties" = Ok properties
       /\ getProp properties "LogGroupName" = Ok (VStr s).
Proof.
  unfold literalLogGroup, isLogGroup.
  destruct resource as [| | | | | |fields]; try discriminate.
  cbn [getProp bindR].
  destruct (getOpt (VObj fields) "Type") as [| | | |type| |]; try discriminate.
  destruct (getOpt (VObj fields) "Properties") as [| | | | | |ps] eqn:Hp;
    try discriminate.
  destruct (getOpt (VObj ps) "LogGroupName") as [| | | |n| |] eqn:Hn;
    try discriminate.
  destruct (String.eqb type logGroupKey) eqn:Htype; [|discriminate].
  intros [= ->]. split.
  - cbn [strictEq]. now rewrite Htype.
  - exists (VObj ps). split; [reflexivity|]. cbn [getProp]. now rewrite Hn.
Qed.

Lemma logGroupNameStartsWith_literal (resource : value) (s p : string) :
  literalLogGroup resource = Some s ->
  logGroupNameStartsWith resource p = Ok (startsWith s p).
Proof.
  intros H. destruct (literalLogGroup_reads _ _ H) as (_ & properties & Hp & Hn).
  unfold logGroupNameStartsWith. now rewrite Hp; cbn [bindR]; rewrite Hn.
Qed.

Lemma validateApiSubscription_literal resource s subscribe extendedProvider :
  literalLogGroup resource = Some s ->
  validateApiSubscription resource subscribe extendedProvider
  = Ok (accessLogCategory extendedProvider s && subscribe).
Proof.
  intros H.
  unfold validateApiSubscription, validateRestApiSubscription,
    validateHttpApiSubscription, validateWebsocketSubscription, accessLogCategory.
  rewrite !(logGroupNameStartsWith_literal _ _ _ H).
  destruct (restAccessLoggingIsEnabled extendedProvider),
    (httpAccessLoggingIsEnabled extendedProvider),
    (websocketAccessLoggingIsEnabled extendedProvider),
    (startsWith s "/aws/api-gateway/"), (startsWith s "/aws/http-api/"),
    (startsWith s "/aws/websocket/"), subscribe; reflexivity.
Qed.

(** On a log group with a literal name nothing throws and the answer is a
    boolean combination of the flags. *)
Lemma shouldSubscribe_literal name resource s :
  literalLogGroup resource = Some s ->
  shouldSubscribe name resource forwarderConfigs handlers service
  = Ok (if startsWith s "/aws/lambda/"
        then negb (AddExtension forwarderConfigs) && handles handlers name
        else accessLogCategory (providerLogs service) s
             && SubToAccessLogGroups forwarderConfigs).
Proof.
  intros H. unfold shouldSubscribe.
  destruct (literalLogGroup_reads _ _ H) as (Hgroup & properties & Hp & Hn).
  rewrite Hgroup. cbn [bindR negb]. rewrite Hp. cbn [bindR]. rewrite Hn.
  cbn [bindR negb typeof String.eqb Ascii.eqb Bool.eqb].
  rewrite (validateApiSubscription_literal _ _ _ _ H).
  rewrite (logGroupNameStartsWith_literal _ _ _ H).
  fold (handles handlers name).
  destruct (startsWith s "/aws/lambda/") eqn:Hlambda.
  - rewrite (lambda_not_api _ _ Hlambda).
    destruct (AddExtension forwarderConfigs), (handles handlers name); reflexivity.
  - destruct (AddExtension forwarderConfigs),
      (accessLogCategory (providerLogs service) s),
      (SubToAccessLogGroups forwarderConfigs); reflexivity.
Qed.

Lemma shouldSubscribe_true_literal name resource :
  shouldSubscribe name resource forwarderConfigs handlers service = Ok true ->
  exists s, literalLogGroup resource = Some s.
Proof.
  intros Hyes.
  destruct (shouldSubscribe_name _ _ _ _ _ Hyes) as (properties & s & Hp & Hn).
  exists s.
  assert (Hgroup : isLogGroup resource = Ok true).
  { unfold shouldSubscribe in Hyes.
    destruct (isLogGroup resource) as [[|]|e]; [reflexivity|discriminate|discriminate]. }
  unfold literalLogGroup, isLogGroup in *.
  destruct resource as [| |b|n|t|items|fields]; try discriminate.
  cbn [getProp bindR] in Hgroup, Hp.
  assert (Hprops : getOpt (VObj fields) "Properties" = properties)
    by (now injection Hp).
  assert (Htype : strictEq (getOpt (VObj fields) "Type") (VStr logGroupKey) = true)
    by (now injection Hgroup).
  rewrite Hprops.
  destruct (getOpt (VObj fields) "Type") as [| | | |type| |]; try discriminate.
  cbn [strictEq] in Htype. rewrite Htype.
  destruct properties as [| |b|n|t|items|ps]; try discriminate.
  cbn [getProp] in Hn.
  assert (Hname : getOpt (VObj ps) "LogGroupName" = VStr s) by (now injection Hn).
  now rewrite Hname.
Qed.

End Decision.

(** X3.  A resource is subscribed exactly when it is a log group with a
    literal name and either the extension is off, the name starts with
    [/aws/lambda/] and the resource's logical id is that of a handler, or
    access logs are subscribed and the name belongs to an API category whose
    access logging is on. *)
Theorem shouldSubscribe_decision
  (name : string) (resource : value) (forwarderConfigs : ForwarderConfigs)
  (handlers : list FunctionInfo.t) (service : Service) :
  shouldSubscribe name resource forwarderConfigs handlers service = Ok true
  <-> exists s,
        literalLogGroup resource = Some s
        /\ ((AddExtension forwarderConfigs = false
             /\ startsWith s "/aws/lambda/" = true
             /\ handles handlers name = true)
            \/ (SubToAccessLogGroups forwarderConfigs = true
                /\ accessLogCategory (providerLogs service) s = true)).
Proof.
  split.
  - intros Hyes. destruct (shouldSubscribe_true_literal _ _ _ _ _ Hyes) as [s Hs].
    exists s. split; [exact Hs|].
    rewrite (shouldSubscribe_literal _ _ _ _ _ _ Hs) in Hyes.
    injection Hyes as Hyes.
    destruct (startsWith s "/aws/lambda/").
    + left. apply andb_true_iff in Hyes. destruct Hyes as [Hext Hh].
      apply negb_true_iff in Hext. now repeat split.
    + right. apply andb_true_iff in Hyes. tauto.
  - intros (s & Hs & Hcase). rewrite (shouldSubscribe_literal _ _ _ _ _ _ Hs).
    destruct Hcase as [(Hext & Hlambda & Hh) | (Hacc & Hcat)].
    + now rewrite Hlambda, Hext, Hh.
    + destruct (startsWith s "/aws/lambda/") eqn:Hlambda.
      * rewrite (lambda_not_api _ _ Hlambda) in Hcat. discriminate.
      * now rewrite Hcat, Hacc.
Qed.

(** X4.  With the extension on, whatever is subscribed is an API access log
    group: access-log subscription is on, the name belongs to an enabled
    API category and does not start with [/aws/lambda/]. *)
Theorem shouldSubscribe_extension_leaves_lambda
  (name : string) (resource : value) (forwarderConfigs : ForwarderConfigs)
  (handlers : list FunctionInfo.t) (service : Service) :
  AddExtension forwarderConfigs = true ->
  shouldSubscribe name resource forwarderConfigs handlers service = Ok true ->
  exists s,
    literalLogGroup resource = Some s
    /\ startsWith s "/aws/lambda/" = false
    /\ SubToAccessLogGroups forwarderConfigs = true
    /\ accessLogCategory (providerLogs service) s = true.
Proof.
  intros Hext Hyes.
  destruct (shouldSubscribe_true_literal _ _ _ _ _ Hyes) as [s Hs].
  exists s. split; [exact Hs|].
  rewrite (shouldSubscribe_literal _ _ _ _ _ _ Hs), Hext in Hyes.
  destruct (startsWith s "/aws/lambda/"); [discriminate|].
  injection Hyes as Hyes. apply andb_true_iff in Hyes. tauto.
Qed.

Lemma shouldSubscribe_extension_leaves_lambda_witness :
  exists s,
    literalLogGroup apiLogGroup = Some s
    /\ startsWith s "/aws/lambda/" = false
    /\ SubToAccessLogGroups
         {| AddExtension := true; IntegrationTesting := None;
            SubToAccessLogGroups := true; SubToExecutionLogGroups := false |} = true
    /\ accessLogCategory (providerLogs restLoggingService) s = true.
Proof.
  apply (shouldSubscribe_extension_leaves_lambda "ApiGatewayLogGroup" apiLogGroup
           {| AddExtension := true; IntegrationTesting := None;
              SubToAccessLogGroups := true; SubToExecutionLogGroups := false |}
           [] restLoggingService); reflexivity.
Defined.

(** X5.  What the module itself writes into the template is never a
    candidate: the two execution log groups carry an intrinsic name, and
    the subscription filters are no log groups. *)
Theorem shouldSubscribe_skips_own_resources
  (name key : string) (aws : Aws) (functionArn : ForwarderArn)
  (forwarderConfigs : ForwarderConfigs) (handlers : list FunctionInfo.t)
  (service : Service) :
  shouldSubscribe name (restExecutionLogGroup aws) forwarderConfigs handlers service
  = Ok false
  /\ shouldSubscribe name (websocketsExecutionLogGroup aws) forwarderConfigs
       handlers service = Ok false
  /\ shouldSubscribe name (subscribeToExecutionLogGroup functionArn key)
       forwarderConfigs handlers service = Ok false
  /\ shouldSubscribe name (subscribeToLogGroup functionArn key)
       forwarderConfigs handlers service = Ok false.
Proof. repeat split; reflexivity. Qed.

(** ** The loop over the template *)

Section Loop.

Variables (service : Service) (aws : Aws) (functionArn : ForwarderArn)
          (forwarderConfigs : ForwarderConfigs) (handlers : list FunctionInfo.t).

Local Abbreviation loop :=
  (subscribeEntries service aws functionArn forwarderConfigs handlers).
Local Abbreviation decide name resource :=
  (shouldSubscribe name resource forwarderConfigs handlers service).
Local Abbreviation expected name :=
  (expectedSubName service aws (name ++ "Subscription")).
Local Abbreviation describing s := (CloudWatchLogsDescribeSubscriptionFilters s).

Lemma subscribeEntries_skip name resource rest errors w :
  decide name resource = Ok false ->
  loop ((name, resource) :: rest) errors w = loop rest errors w.
Proof.
  intros Hno. cbn [subscribeEntries].
  unfold bind at 1, liftR at 1. now rewrite Hno.
Qed.

Lemma subscribeEntries_throw name resource rest errors w e :
  decide name resource = Throw e ->
  loop ((name, resource) :: rest) errors w = (Throw e, w).
Proof.
  intros Hthrow. cbn [subscribeEntries].
  unfold bind at 1, liftR at 1. now rewrite Hthrow.
Qed.

Lemma subscribeEntries_candidate name resource s rest errors w gc :
  literalLogGroup resource = Some s ->
  decide name resource = Ok true ->
  Resources w = Some gc ->
  loop ((name, resource) :: rest) errors w
  = if quotaAllows aws s (expected name) w
    then loop rest errors
           {| Resources :=
                Some (assign gc (name ++ "Subscription")
                        (subscribeToLogGroup functionArn name));
              requests := (requests w ++ [describing s])%list |}
    else loop rest (errors ++ [quotaWarning s])%list (record (describing s) w).
Proof.
  intros Hs Hyes Hgc.
  destruct (literalLogGroup_reads _ _ Hs) as (_ & properties & Hp & Hn).
  cbn [subscribeEntries]. unfold bind, liftR.
  rewrite Hyes. cbn [negb]. rewrite Hp, Hn, canSubscribeLogGroup_run.
  fold (quotaAllows aws s (expectedSubName service aws (name ++ "Subscription")) w).
  destruct (quotaAllows aws s _ w); cbn [negb]; [|reflexivity].
  unfold setResource, record. cbn [Resources requests]. now rewrite Hgc.
Qed.

(** Rule induction over the runs of the loop on a present template. *)
Lemma subscribeEntries_rules
  (P : list (string * value) -> list string -> World
       -> Result (list string) * World -> Prop) :
  (forall errors w, P [] errors w (Ok errors, w)) ->
  (forall name resource rest errors w out,
      decide name resource = Ok false ->
      P rest errors w out ->
      P ((name, resource) :: rest) errors w out) ->
  (forall name resource rest errors w e,
      decide name resource = Throw e ->
      P ((name, resource) :: rest) errors w (Throw e, w)) ->
  (forall name resource s rest errors w out,
      literalLogGroup resource = Some s ->
      decide name resource = Ok true ->
      quotaAllows aws s (expected name) w = false ->
      P rest (errors ++ [quotaWarning s])%list (record (describing s) w) out ->
      P ((name, resource) :: rest) errors w out) ->
  (forall name resource s rest errors w gc out,
      literalLogGroup resource = Some s ->
      decide name resource = Ok true ->
      Resources w = Some gc ->
      quotaAllows aws s (expected name) w = true ->
      P rest errors
        {| Resources :=
             Some (assign gc (name ++ "Subscription")
                     (subscribeToLogGroup functionArn name));
           requests := (requests w ++ [describing s])%list |} out ->
      P ((name, resource) :: rest) errors w out) ->
  forall entries errors w gc,
    Resources w = Some gc -> P entries errors w (loop entries errors w).
Proof.
  intros Hnil Hskip Hthrow Hrejected Hallowed.
  induction entries as [|[name resource] rest IH]; intros errors w gc Hgc.
  - apply Hnil.
  - destruct (decide name resource) as [[|]|e] eqn:Hd.
    + destruct (shouldSubscribe_true_literal _ _ _ _ _ Hd) as [s Hs].
      rewrite (subscribeEntries_candidate _ _ _ _ _ _ _ Hs Hd Hgc).
      destruct (quotaAllows aws s (expected name) w) eqn:Hq.
      * eapply Hallowed; eauto. eapply IH; reflexivity.
      * eapply Hrejected; eauto.
    + rewrite (subscribeEntries_skip _ _ _ _ _ Hd). eapply Hskip; eauto.
    + rewrite (subscribeEntries_throw _ _ _ _ _ _ Hd). now apply Hthrow.
Qed.

(** The template only grows, and only by subscriptions of its entries. *)
Lemma subscribeEntries_template entries errors w gc :
  Resources w = Some gc ->
  exists gc',
    Resources (snd (loop entries errors w)) = Some gc'
    /\ (exists extra, map fst gc' = (map fst gc ++ extra)%list)
    /\ forall k,
         lookup gc' k = lookup gc k
         \/ exists name resource,
              In (name, resource) entries
              /\ k = name ++ "Subscription"
              /\ lookup gc' k = Some (subscribeToLogGroup functionArn name).
Proof.
  intros Hgc. generalize gc Hgc.
  apply (subscribeEntries_rules
    (fun entries errors w out => forall gc, Resources w = Some gc ->
       exists gc',
         Resources (snd out) = Some gc'
         /\ (exists extra, map fst gc' = (map fst gc ++ extra)%list)
         /\ forall k,
              lookup gc' k = lookup gc k
              \/ exists name resource,
                   In (name, resource) entries
                   /\ k = name ++ "Subscription"
                   /\ lookup gc' k = Some (subscribeToLogGroup functionArn name)))
    with (gc := gc); [| | | | |exact Hgc].
  - intros errs w0 g0 Hg0. exists g0. split; [exact Hg0|].
    split; [exists []; now rewrite app_nil_r | now left].
  - intros name resource rest errs w0 out _ IH g0 Hg0.
    destruct (IH g0 Hg0) as (g' & Hout & Hkeys & Hvals).
    exists g'. split; [exact Hout|]. split; [exact Hkeys|].
    intros k. destruct (Hvals k) as [Hsame | (n & r & Hin & Hk & Hv)];
      [now left | right; exists n, r; simpl; tauto].
  - intros name resource rest errs w0 e _ g0 Hg0. exists g0.
    split; [exact Hg0|]. split; [exists []; now rewrite app_nil_r | now left].
  - intros name resource s rest errs w0 out _ _ _ IH g0 Hg0.
    destruct (IH g0 Hg0) as (g' & Hout & Hkeys & Hvals).
    exists g'. split; [exact Hout|]. split; [exact Hkeys|].
    intros k. destruct (Hvals k) as [Hsame | (n & r & Hin & Hk & Hv)];
      [now left | right; exists n, r; simpl; tauto].
  - intros name resource s rest errs w0 g1 out _ _ Hg1 _ IH g0 Hg0.
    assert (g1 = g0) by congruence. subst g1.
    destruct (IH _ eq_refl) as (g' & Hout & [extra Hkeys] & Hvals).
    exists g'. split; [exact Hout|]. split.
    + rewrite Hkeys, assign_keys.
      destruct (in_dec string_dec (name ++ "Subscription") (map fst g0)).
      * now exists extra.
      * exists ((name ++ "Subscription") :: extra). now rewrite <- app_assoc.
    + intros k. destruct (Hvals k) as [Hsame | (n & r & Hin & Hk & Hv)].
      * destruct (string_dec (name ++ "Subscription") k) as [Hk|Hk].
        -- right. exists name, resource. split; [now left|]. split; [easy|].
           rewrite Hsame, <- Hk. apply assign_lookup_same.
        -- left. rewrite Hsame. now apply assign_lookup_other.
      * right. exists n, r. simpl. tauto.
Qed.

(** The loop sends one describe request per candidate and nothing else, and
    a successful loop returns the warnings it was given followed by one
    quota warning per rejected candidate. *)
Lemma subscribeEntries_effects entries errors w gc :
  Resources w = Some gc ->
  exists new ws,
    requests (snd (loop entries errors w)) = (requests w ++ new)%list
    /\ Forall isDescribe new
    /\ length new <= length entries
    /\ length ws <= length new
    /\ Forall (fun e => exists name resource s,
                   In (name, resource) entries
                   /\ literalLogGroup resource = Some s
                   /\ e = quotaWarning s) ws
    /\ forall errs, fst (loop entries errors w) = Ok errs ->
                    errs = (errors ++ ws)%list.
Proof.
  intros Hgc.
  apply (subscribeEntries_rules
    (fun entries errors w out =>
       exists new ws,
         requests (snd out) = (requests w ++ new)%list
         /\ Forall isDescribe new
         /\ length new <= length entries
         /\ length ws <= length new
         /\ Forall (fun e => exists name resource s,
                        In (name, resource) entries
                        /\ literalLogGroup resource = Some s
                        /\ e = quotaWarning s) ws
         /\ forall errs, fst out = Ok errs -> errs = (errors ++ ws)%list))
    with (gc := gc); [| | | | |exact Hgc].
  - intros errs w0. exists [], []. rewrite !app_nil_r.
    repeat split; auto. cbn. now intros e [= ->].
  - intros name resource rest errs w0 out _ (new & ws & Hreq & Hd & Hn & Hw & Hws & Herr).
    exists new, ws. repeat split; auto; [cbn; lia|].
    eapply Forall_impl; [|exact Hws].
    intros e (n & r & s & Hin & Hs & He). exists n, r, s. simpl. tauto.
  - intros name resource rest errs w0 e _. exists [], []. rewrite !app_nil_r.
    repeat split; auto; [cbn; lia | discriminate].
  - intros name resource s rest errs w0 out Hs _ _
      (new & ws & Hreq & Hd & Hn & Hw & Hws & Herr).
    exists (describing s :: new), (quotaWarning s :: ws).
    split; [rewrite Hreq; cbn; now rewrite <- app_assoc|].
    split; [constructor; [exact I | exact Hd]|].
    split; [cbn; lia|]. split; [cbn; lia|]. split.
    + constructor; [exists name, resource, s; simpl; tauto|].
      eapply Forall_impl; [|exact Hws].
      intros e (n & r & s' & Hin & Hs' & He). exists n, r, s'. simpl. tauto.
    + intros e He. rewrite (Herr e He). now rewrite <- app_assoc.
  - intros name resource s rest errs w0 g1 out Hs _ _ _
      (new & ws & Hreq & Hd & Hn & Hw & Hws & Herr).
    exists (describing s :: new), ws.
    split; [rewrite Hreq; cbn; now rewrite <- app_assoc|].
    split; [constructor; [exact I | exact Hd]|].
    split; [cbn; lia|]. split; [cbn; lia|]. split; [|exact Herr].
    eapply Forall_impl; [|exact Hws].
    intros e (n & r & s' & Hin & Hs' & He). exists n, r, s'. simpl. tauto.
Qed.

(** An entry on which the decision throws stops every run. *)
Lemma subscribeEntries_stops entries errors w gc name resource e :
  Resources w = Some gc ->
  In (name, resource) entries ->
  decide name resource = Throw e ->
  exists e', fst (loop entries errors w) = Throw e'.
Proof.
  intros Hgc Hin Hthrow. revert Hin.
  apply (subscribeEntries_rules
    (fun entries errors w out =>
       In (name, resource) entries -> exists e', fst out = Throw e'))
    with (gc := gc); [| | | | |exact Hgc].
  - intros _ _ [].
  - intros n r rest errs w0 out Hno IH [[= -> ->]|Hin]; [congruence | auto].
  - intros n r rest errs w0 e0 _ _. now exists e0.
  - intros n r s rest errs w0 out _ Hyes _ IH [[= -> ->]|Hin]; [congruence | auto].
  - intros n r s rest errs w0 g1 out _ Hyes _ _ IH [[= -> ->]|Hin];
      [congruence | auto].
Qed.

End Loop.

(** ** Whole runs of the decision engine *)

Section Runs.

Variables (service : Service) (aws : Aws) (functionArn : ForwarderArn)
          (forwarderConfigs : ForwarderConfigs) (handlers : list FunctionInfo.t).

Local Abbreviation run :=
  (addCloudWatchForwarderSubscriptions service aws functionArn forwarderConfigs
     handlers).
Local Abbreviation loop :=
  (subscribeEntries service aws functionArn forwarderConfigs handlers).

(** The three ways into the loop. *)
Lemma addCloudWatchForwarderSubscriptions_phases (w : World) (g : Graph) :
  Resources w = Some g ->
  run w
  = match functionArn, IntegrationTesting forwarderConfigs with
    | ArnObject _, _ =>
        loop g
          ["Skipping forwarder ARN validation because forwarder string defined with CloudFormation function."]
          w
    | ArnString _, Some true =>
        loop g
          ["Skipping forwarder ARN validation because 'integrationTesting' is set to true"]
          w
    | ArnString _, _ =>
        if getFunction aws (requests w) functionArn
        then loop g [] (record (LambdaGetFunction functionArn) w)
        else (Throw (DatadogForwarderNotFoundError
                       ("Could not perform GetFunction on "
                        ++ arnToString functionArn ++ ".")),
              record (LambdaGetFunction functionArn) w)
    end.
Proof.
  intros Hg. unfold addCloudWatchForwarderSubscriptions, bind at 1, getResources.
  rewrite Hg. unfold bind.
  destruct functionArn as [s|o]; [|reflexivity].
  destruct (IntegrationTesting forwarderConfigs) as [[|]|]; [reflexivity| |];
    rewrite validateForwarderArn_run;
    destruct (getFunction aws (requests w) (ArnString s)); reflexivity.
Qed.

Lemma getProp_throws (v : value) (p : string) (e : Error) :
  getProp v p = Throw e -> e = TypeError.
Proof. destruct v; simpl; congruence. Qed.

Lemma andR_throws (a b : Result bool) (e : Error) :
  andR a b = Throw e -> a = Throw e \/ b = Throw e.
Proof. destruct a as [[|]|e0]; simpl; auto; discriminate. Qed.

Lemma orR_throws (a b : Result bool) (e : Error) :
  orR a b = Throw e -> a = Throw e \/ b = Throw e.
Proof. destruct a as [[|]|e0]; simpl; auto; discriminate. Qed.

Lemma logGroupNameStartsWith_throws resource p e :
  logGroupNameStartsWith resource p = Throw e -> e = TypeError.
Proof.
  unfold logGroupNameStartsWith.
  destruct (getProp resource "Properties") as [properties|e0] eqn:Hp; cbn [bindR];
    [|intros [= <-]; eapply getProp_throws; eassumption].
  destruct (getProp properties "LogGroupName") as [n|e0] eqn:Hn; cbn [bindR];
    [|intros [= <-]; eapply getProp_throws; eassumption].
  destruct n; congruence.
Qed.

Lemma validateApiSubscription_throws resource subscribe extendedProvider e :
  validateApiSubscription resource subscribe extendedProvider = Throw e ->
  e = TypeError.
Proof.
  unfold validateApiSubscription, validateRestApiSubscription,
    validateHttpApiSubscription, validateWebsocketSubscription.
  intros H.
  repeat match goal with
         | H : orR _ _ = Throw _ |- _ => apply orR_throws in H; destruct H as [H|H]
         | H : andR _ _ = Throw _ |- _ => apply andR_throws in H; destruct H as [H|H]
         end;
    try discriminate; eapply logGroupNameStartsWith_throws; eassumption.
Qed.

(** The decision throws nothing but [TypeError]. *)
Lemma shouldSubscribe_throws name resource e :
  shouldSubscribe name resource forwarderConfigs handlers service = Throw e ->
  e = TypeError.
Proof.
  unfold shouldSubscribe, isLogGroup.
  destruct (getProp resource "Type") as [type|e0] eqn:Htype; cbn [bindR];
    [|intros [= <-]; eapply getProp_throws; eassumption].
  destruct (negb (strictEq type (VStr logGroupKey))); [discriminate|].
  destruct (getProp resource "Properties") as [properties|e0] eqn:Hp; cbn [bindR];
    [|intros [= <-]; eapply getProp_throws; eassumption].
  destruct (getProp properties "LogGroupName") as [n|e0] eqn:Hn; cbn [bindR];
    [|intros [= <-]; eapply getProp_throws; eassumption].
  destruct (negb (String.eqb (typeof n) "string")); [discriminate|].
  destruct (andR (Ok (AddExtension forwarderConfigs)) _) as [[|]|e1] eqn:H1;
    cbn [bindR]; [discriminate| |].
  - destruct (orR (logGroupNameStartsWith resource "/aws/lambda/") _)
      as [[|]|e2] eqn:H2; cbn [bindR negb]; [|discriminate|].
    + destruct (andR (logGroupNameStartsWith resource "/aws/lambda/") _)
        as [[|]|e3] eqn:H3; cbn [bindR]; [discriminate|discriminate|].
      intros [= <-]. apply andR_throws in H3. destruct H3 as [H3|H3];
        [eapply logGroupNameStartsWith_throws; eassumption | discriminate].
    + intros [= <-]. apply orR_throws in H2. destruct H2 as [H2|H2];
        [eapply logGroupNameStartsWith_throws; eassumption
        |eapply validateApiSubscription_throws; eassumption].
  - intros [= <-]. apply andR_throws in H1. destruct H1 as [H1|H1];
      [discriminate|].
    destruct (validateApiSubscription resource _ _) as [b|e2] eqn:H2;
      cbn [bindR] in H1; [discriminate|].
    injection H1 as <-. eapply validateApiSubscription_throws; eassumption.
Qed.

Lemma subscribeEntries_throws entries errors w gc e :
  Resources w = Some gc ->
  fst (loop entries errors w) = Throw e -> e = TypeError.
Proof.
  intros Hgc.
  apply (subscribeEntries_rules service aws functionArn forwarderConfigs handlers
    (fun entries errors w out => fst out = Throw e -> e = TypeError))
    with (gc := gc); [| | | | |exact Hgc]; auto.
  - discriminate.
  - intros name resource rest errs w0 e0 Hthrow [= <-].
    eapply shouldSubscribe_throws; eassumption.
Qed.

End Runs.

(** X6.  On a present template a run keeps every entry in its place, adds
    new entries at the end, and whatever value it wrote is the subscription
    filter of an entry [name] of the input, stored under
    [name ++ "Subscription"]. *)
Theorem addCloudWatchForwarderSubscriptions_writes_subscriptions_only
  (service : Service) (aws : Aws) (functionArn : ForwarderArn)
  (forwarderConfigs : ForwarderConfigs) (handlers : list FunctionInfo.t)
  (w : World) (g : Graph) :
  Resources w = Some g ->
  exists g',
    Resources (snd (addCloudWatchForwarderSubscriptions service aws functionArn
                      forwarderConfigs handlers w)) = Some g'
    /\ (exists extra, map fst g' = (map fst g ++ extra)%list)
    /\ forall k,
         lookup g' k = lookup g k
         \/ exists name resource,
              In (name, resource) g
              /\ k = name ++ "Subscription"
              /\ lookup g' k = Some (subscribeToLogGroup functionArn name).
Proof.
  intros Hg.
  rewrite (addCloudWatchForwarderSubscriptions_phases _ _ _ _ _ _ _ Hg).
  assert (Hfailed : exists g',
    Some g = Some g'
    /\ (exists extra, map fst g' = (map fst g ++ extra)%list)
    /\ forall k,
         lookup g' k = lookup g k
         \/ exists name resource,
              In (name, resource) g
              /\ k = name ++ "Subscription"
              /\ lookup g' k = Some (subscribeToLogGroup functionArn name)).
  { exists g. split; [reflexivity|].
    split; [exists []; now rewrite app_nil_r | now left]. }
  destruct functionArn as [s|o];
    [destruct (IntegrationTesting forwarderConfigs) as [[|]|];
     [|destruct (getFunction aws (requests w) (ArnString s))
      |destruct (getFunction aws (requests w) (ArnString s))]|];
    try (apply subscribeEntries_template; exact Hg);
    cbn [snd record Resources]; rewrite Hg; exact Hfailed.
Qed.

Lemma addCloudWatchForwarderSubscriptions_writes_subscriptions_only_witness :
  exists g',
    Resources (snd (addCloudWatchForwarderSubscriptions plainService everythingExists
                      (ArnString "arn:fwd") forwarderOnly
                      [{| FunctionInfo.name := "foo" |}] fooWorld)) = Some g'
    /\ (exists extra,
           map fst g' = (map fst [("FooLogGroup", fooLogGroup)] ++ extra)%list)
    /\ forall k,
         lookup g' k = lookup [("FooLogGroup", fooLogGroup)] k
         \/ exists name resource,
              In (name, resource) [("FooLogGroup", fooLogGroup)]
              /\ k = name ++ "Subscription"
              /\ lookup g' k = Some (subscribeToLogGroup (ArnString "arn:fwd") name).
Proof.
  apply (addCloudWatchForwarderSubscriptions_writes_subscriptions_only
           plainService everythingExists (ArnString "arn:fwd") forwarderOnly
           [{| FunctionInfo.name := "foo" |}] fooWorld).
  reflexivity.
Defined.

(** X7.  On a present template a run only appends to the AWS request log:
    at most one [getFunction] request for the forwarder, then one
    [describeSubscriptionFilters] request per candidate, never more than the
    template has entries. *)
Theorem addCloudWatchForwarderSubscriptions_requests
  (service : Service) (aws : Aws) (functionArn : ForwarderArn)
  (forwarderConfigs : ForwarderConfigs) (handlers : list FunctionInfo.t)
  (w : World) (g : Graph) :
  Resources w = Some g ->
  exists validation described,
    requests (snd (addCloudWatchForwarderSubscriptions service aws functionArn
                     forwarderConfigs handlers w))
    = (requests w ++ validation ++ described)%list
    /\ (validation = [] \/ validation = [LambdaGetFunction functionArn])
    /\ Forall isDescribe described
    /\ length described <= length g.
Proof.
  intros Hg.
  rewrite (addCloudWatchForwarderSubscriptions_phases _ _ _ _ _ _ _ Hg).
  assert (Hskip : forall errors, exists validation described,
    requests (snd (subscribeEntries service aws functionArn forwarderConfigs
                     handlers g errors w))
    = (requests w ++ validation ++ described)%list
    /\ (validation = [] \/ validation = [LambdaGetFunction functionArn])
    /\ Forall isDescribe described
    /\ length described <= length g).
  { intros errors.
    destruct (subscribeEntries_effects service aws functionArn forwarderConfigs
                handlers g errors w g Hg)
      as (new & ws & Hreq & Hd & Hn & _).
    exists [], new. cbn [app]. auto. }
  assert (Hvalidated : forall errors, exists validation described,
    requests (snd (subscribeEntries service aws functionArn forwarderConfigs
                     handlers g errors (record (LambdaGetFunction functionArn) w)))
    = (requests w ++ validation ++ described)%list
    /\ (validation = [] \/ validation = [LambdaGetFunction functionArn])
    /\ Forall isDescribe described
    /\ length described <= length g).
  { intros errors.
    destruct (subscribeEntries_effects service aws functionArn forwarderConfigs
                handlers g errors (record (LambdaGetFunction functionArn) w) g Hg)
      as (new & ws & Hreq & Hd & Hn & _).
    exists [LambdaGetFunction functionArn], new. rewrite Hreq.
    cbn [record requests]. rewrite <- app_assoc. auto. }
  assert (Hfailed : exists validation described,
    requests (record (LambdaGetFunction functionArn) w)
    = (requests w ++ validation ++ described)%list
    /\ (validation = [] \/ validation = [LambdaGetFunction functionArn])
    /\ Forall isDescribe described
    /\ length described <= length g).
  { exists [LambdaGetFunction functionArn], []. cbn [record requests app length].
    repeat split; auto. lia. }
  destruct functionArn as [s|o];
    [destruct (IntegrationTesting forwarderConfigs) as [[|]|];
     [|destruct (getFunction aws (requests w) (ArnString s))
      |destruct (getFunction aws (requests w) (ArnString s))]|];
    auto.
Qed.

Lemma addCloudWatchForwarderSubscriptions_requests_witness :
  exists validation described,
    requests (snd (addCloudWatchForwarderSubscriptions plainService everythingExists
                     (ArnString "arn:fwd") forwarderOnly
                     [{| FunctionInfo.name := "foo" |}] fooWorld))
    = (requests fooWorld ++ validation ++ described)%list
    /\ (validation = [] \/ validation = [LambdaGetFunction (ArnString "arn:fwd")])
    /\ Forall isDescribe described
    /\ length described <= length [("FooLogGroup", fooLogGroup)].
Proof.
  apply (addCloudWatchForwarderSubscriptions_requests
           plainService everythingExists (ArnString "arn:fwd") forwarderOnly
           [{| FunctionInfo.name := "foo" |}] fooWorld).
  reflexivity.
Defined.

(** X8.  When the forwarder is a CloudFormation object, or integration
    testing is switched on, the forwarder is not validated: no
    [getFunction] request is sent, [DatadogForwarderNotFoundError] cannot
    occur, and a run that returns has the matching notice as its first
    warning (the CloudFormation notice when both conditions hold). *)
Theorem addCloudWatchForwarderSubscriptions_validation_skipped
  (service : Service) (aws : Aws) (functionArn : ForwarderArn)
  (forwarderConfigs : ForwarderConfigs) (handlers : list FunctionInfo.t)
  (w : World) (g : Graph) :
  Resources w = Some g ->
  (exists o, functionArn = ArnObject o)
  \/ IntegrationTesting forwarderConfigs = Some true ->
  let out := addCloudWatchForwarderSubscriptions service aws functionArn
               forwarderConfigs handlers w in
  (exists described,
      requests (snd out) = (requests w ++ described)%list
      /\ Forall isDescribe described)
  /\ (forall e, fst out = Throw e -> e = TypeError)
  /\ forall errors,
       fst out = Ok errors ->
       exists warnings,
         errors
         = (match functionArn with
            | ArnObject _ =>
                "Skipping forwarder ARN validation because forwarder string defined with CloudFormation function."
            | ArnString _ =>
                "Skipping forwarder ARN validation because 'integrationTesting' is set to true"
            end :: warnings).
Proof.
  intros Hg Hskipped. cbv zeta.
  rewrite (addCloudWatchForwarderSubscriptions_phases _ _ _ _ _ _ _ Hg).
  assert (Hloop : forall first,
    (exists described,
        requests (snd (subscribeEntries service aws functionArn forwarderConfigs
                         handlers g [first] w))
        = (requests w ++ described)%list
        /\ Forall isDescribe described)
    /\ (forall e,
           fst (subscribeEntries service aws functionArn forwarderConfigs
                  handlers g [first] w) = Throw e -> e = TypeError)
    /\ forall errors,
         fst (subscribeEntries service aws functionArn forwarderConfigs
                handlers g [first] w) = Ok errors ->
         exists warnings, errors = first :: warnings).
  { intros first.
    destruct (subscribeEntries_effects service aws functionArn forwarderConfigs
                handlers g [first] w g Hg)
      as (new & ws & Hreq & Hd & _ & _ & _ & Herr).
    split; [now exists new|]. split.
    - intros e. now apply subscribeEntries_throws with (gc := g).
    - intros errors Hok. exists ws. now rewrite (Herr errors Hok). }
  destruct functionArn as [s|o]; [|apply Hloop].
  destruct Hskipped as [[o [=]]|Hit]. rewrite Hit. apply Hloop.
Qed.

Lemma addCloudWatchForwarderSubscriptions_validation_skipped_witness :
  let out := addCloudWatchForwarderSubscriptions plainService noFunctions
               intrinsicForwarder forwarderOnly
               [{| FunctionInfo.name := "foo" |}] fooWorld in
  (exists described,
      requests (snd out) = (requests fooWorld ++ described)%list
      /\ Forall isDescribe described)
  /\ (forall e, fst out = Throw e -> e = TypeError)
  /\ forall errors,
       fst out = Ok errors ->
       exists warnings,
         errors
         = ("Skipping forwarder ARN validation because forwarder string defined with CloudFormation function."
            :: warnings).
Proof.
  apply (addCloudWatchForwarderSubscriptions_validation_skipped
           plainService noFunctions intrinsicForwarder forwarderOnly
           [{| FunctionInfo.name := "foo" |}] fooWorld
           [("FooLogGroup", fooLogGroup)]).
  - reflexivity.
  - left. now eexists.
Defined.

(** X9.  The warnings of a run that returns are at most one notice about
    the skipped validation, followed by one quota warning per rejected
    candidate, each naming the literal log group name of an entry of the
    template. *)
Theorem addCloudWatchForwarderSubscriptions_warnings
  (service : Service) (aws : Aws) (functionArn : ForwarderArn)
  (forwarderConfigs : ForwarderConfigs) (handlers : list FunctionInfo.t)
  (w : World) (g : Graph) (errors : list string) :
  Resources w = Some g ->
  fst (addCloudWatchForwarderSubscriptions service aws functionArn
         forwarderConfigs handlers w) = Ok errors ->
  exists notice rejected,
    errors = (notice ++ rejected)%list
    /\ length notice <= 1
    /\ length rejected <= length g
    /\ Forall (fun e => exists name resource s,
                   In (name, resource) g
                   /\ literalLogGroup resource = Some s
                   /\ e = quotaWarning s) rejected.
Proof.
  intros Hg.
  rewrite (addCloudWatchForwarderSubscriptions_phases _ _ _ _ _ _ _ Hg).
  assert (Hloop : forall notice w0,
    Resources w0 = Some g ->
    length notice <= 1 ->
    fst (subscribeEntries service aws functionArn forwarderConfigs handlers
           g notice w0) = Ok errors ->
    exists notice rejected,
      errors = (notice ++ rejected)%list
      /\ length notice <= 1
      /\ length rejected <= length g
      /\ Forall (fun e => exists name resource s,
                     In (name, resource) g
                     /\ literalLogGroup resource = Some s
                     /\ e = quotaWarning s) rejected).
  { intros notice w0 Hg0 Hlen Hok.
    destruct (subscribeEntries_effects service aws functionArn forwarderConfigs
                handlers g notice w0 g Hg0)
      as (new & ws & _ & _ & Hn & Hw & Hws & Herr).
    exists notice, ws. rewrite (Herr errors Hok). repeat split; auto. lia. }
  destruct functionArn as [s|o];
    [destruct (IntegrationTesting forwarderConfigs) as [[|]|];
     [|destruct (getFunction aws (requests w) (ArnString s))
      |destruct (getFunction aws (requests w) (ArnString s))]|];
    try discriminate; apply Hloop; cbn; auto.
Qed.

Lemma addCloudWatchForwarderSubscriptions_warnings_witness :
  exists notice rejected,
    [quotaWarning "/aws/lambda/foo"] = (notice ++ rejected)%list
    /\ length notice <= 1
    /\ length rejected <= length [("FooLogGroup", fooLogGroup)]
    /\ Forall (fun e => exists name resource s,
                   In (name, resource) [("FooLogGroup", fooLogGroup)]
                   /\ literalLogGroup resource = Some s
                   /\ e = quotaWarning s) rejected.
Proof.
  apply (addCloudWatchForwarderSubscriptions_warnings
           plainService (twoFilters "audit" "backup") (ArnString "arn:fwd")
           forwarderOnly [{| FunctionInfo.name := "foo" |}] fooWorld
           [("FooLogGroup", fooLogGroup)] [quotaWarning "/aws/lambda/foo"]);
    reflexivity.
Defined.

(** X10.  A template entry that is [null] or [undefined] (a resource left
    empty in YAML), or a log group without [Properties], makes every run on
    that template throw: the forwarder error if validation fails first, a
    [TypeError] otherwise. *)
Theorem addCloudWatchForwarderSubscriptions_malformed_resource
  (service : Service) (aws : Aws) (functionArn : ForwarderArn)
  (forwarderConfigs : ForwarderConfigs) (handlers : list FunctionInfo.t)
  (w : World) (g : Graph) (name : string) (resource : value) :
  Resources w = Some g ->
  In (name, resource) g ->
  resource = VNull \/ resource = VUndefined
  \/ (getOpt resource "Type" = VStr logGroupKey
      /\ (getOpt resource "Properties" = VUndefined
          \/ getOpt resource "Properties" = VNull)) ->
  exists e,
    fst (addCloudWatchForwarderSubscriptions service aws functionArn
           forwarderConfigs handlers w) = Throw e
    /\ (e = TypeError \/ exists message, e = DatadogForwarderNotFoundError message).
Proof.
  intros Hg Hin Hbad.
  assert (Hthrows :
    shouldSubscribe name resource forwarderConfigs handlers service = Throw TypeError).
  { unfold shouldSubscribe, isLogGroup.
    destruct Hbad as [-> | [-> | [Htype Hprops]]]; [reflexivity|reflexivity|].
    destruct resource as [| |b|n|t|items|fields]; try discriminate.
    cbn [getProp bindR]. rewrite Htype.
    cbn [strictEq]. unfold logGroupKey. rewrite String.eqb_refl. cbn [negb].
    destruct Hprops as [-> | ->]; reflexivity. }
  rewrite (addCloudWatchForwarderSubscriptions_phases _ _ _ _ _ _ _ Hg).
  assert (Hloop : forall errors w0,
    Resources w0 = Some g ->
    exists e,
      fst (subscribeEntries service aws functionArn forwarderConfigs handlers
             g errors w0) = Throw e
      /\ (e = TypeError \/ exists message, e = DatadogForwarderNotFoundError message)).
  { intros errors w0 Hg0.
    destruct (subscribeEntries_stops service aws functionArn forwarderConfigs
                handlers g errors w0 g name resource TypeError Hg0 Hin Hthrows)
      as [e He].
    exists e. split; [exact He|]. left.
    now apply (subscribeEntries_throws service aws functionArn forwarderConfigs
                 handlers g errors w0 g e Hg0). }
  destruct functionArn as [s|o];
    [destruct (IntegrationTesting forwarderConfigs) as [[|]|];
     [|destruct (getFunction aws (requests w) (ArnString s))
      |destruct (getFunction aws (requests w) (ArnString s))]|];
    try (apply Hloop; exact Hg);
    eexists; (split; [reflexivity|]); right; now eexists.
Qed.

Lemma addCloudWatchForwarderSubscriptions_malformed_resource_witness :
  exists e,
    fst (addCloudWatchForwarderSubscriptions plainService everythingExists
           (ArnString "arn:fwd") forwarderOnly
           [{| FunctionInfo.name := "foo" |}] emptyResourceWorld) = Throw e
    /\ (e = TypeError \/ exists message, e = DatadogForwarderNotFoundError message).
Proof.
  apply (addCloudWatchForwarderSubscriptions_malformed_resource
           plainService everythingExists (ArnString "arn:fwd") forwarderOnly
           [{| FunctionInfo.name := "foo" |}] emptyResourceWorld
           [("FooLogGroup", fooLogGroup); ("Bucket", VNull)] "Bucket" VNull).
  - reflexivity.
  - right. now left.
  - now left.
Defined.

(** ** What a run does not depend on *)

Section Independence.

Lemma reads_literalLogGroup (resource properties : value) (s : string) :
  isLogGroup resource = Ok true ->
  getProp resource "Properties" = Ok properties ->
  getProp properties "LogGroupName" = Ok (VStr s) ->
  literalLogGroup resource = Some s.
Proof.
  unfold literalLogGroup, isLogGroup. intros Hgroup Hp Hn.
  destruct resource as [| |b|n|t|items|fields]; try discriminate.
  cbn [getProp bindR] in Hgroup, Hp.
  assert (Hprops : getOpt (VObj fields) "Properties" = properties)
    by (now injection Hp).
  assert (Htype : strictEq (getOpt (VObj fields) "Type") (VStr logGroupKey) = true)
    by (now injection Hgroup).
  rewrite Hprops.
  destruct (getOpt (VObj fields) "Type") as [| | | |type| |]; try discriminate.
  cbn [strictEq] in Htype. rewrite Htype.
  destruct properties as [| |b|n|t|items|ps]; try discriminate.
  cbn [getProp] in Hn.
  assert (Hname : getOpt (VObj ps) "LogGroupName" = VStr s) by (now injection Hn).
  now rewrite Hname.
Qed.

(** On anything but a log group with a literal name the decision looks at
    the resource only. *)
Lemma shouldSubscribe_not_literal
  name name' resource forwarderConfigs forwarderConfigs' handlers handlers'
  service service' :
  literalLogGroup resource = None ->
  shouldSubscribe name resource forwarderConfigs handlers service
  = shouldSubscribe name' resource forwarderConfigs' handlers' service'.
Proof.
  intros Hnone. unfold shouldSubscribe.
  destruct (isLogGroup resource) as [[|]|e] eqn:Hgroup; cbn [bindR negb];
    try reflexivity.
  destruct (getProp resource "Properties") as [properties|e] eqn:Hp;
    cbn [bindR]; try reflexivity.
  destruct (getProp properties "LogGroupName") as [n|e] eqn:Hn;
    cbn [bindR]; try reflexivity.
  destruct n; try reflexivity.
  rewrite (reads_literalLogGroup _ _ _ Hgroup Hp Hn) in Hnone. discriminate.
Qed.

Lemma subscribeEntries_congruence
  service service' aws functionArn forwarderConfigs forwarderConfigs'
  handlers handlers' entries :
  getServiceName service = getServiceName service' ->
  (forall name resource,
      shouldSubscribe name resource forwarderConfigs handlers service
      = shouldSubscribe name resource forwarderConfigs' handlers' service') ->
  forall errors w,
    subscribeEntries service aws functionArn forwarderConfigs handlers
      entries errors w
    = subscribeEntries service' aws functionArn forwarderConfigs' handlers'
        entries errors w.
Proof.
  intros Hname Hsame.
  induction entries as [|[name resource] rest IH]; intros errors w.
  - reflexivity.
  - cbn [subscribeEntries]. rewrite Hsame.
    apply bind_ext. intros [|] w1; cbn [negb]; [|apply IH].
    apply bind_ext. intros properties w2.
    apply bind_ext. intros n w3.
    destruct n; try reflexivity.
    replace (expectedSubName service aws (name ++ "Subscription"))
      with (expectedSubName service' aws (name ++ "Subscription"))
      by (unfold expectedSubName; now rewrite Hname).
    apply bind_ext. intros [|] w4; cbn [negb]; [|apply IH].
    apply bind_ext. intros _ w5. apply IH.
Qed.

Lemma addCloudWatchForwarderSubscriptions_congruence
  service service' aws functionArn forwarderConfigs forwarderConfigs'
  handlers handlers' w :
  getServiceName service = getServiceName service' ->
  IntegrationTesting forwarderConfigs = IntegrationTesting forwarderConfigs' ->
  (forall name resource,
      shouldSubscribe name resource forwarderConfigs handlers service
      = shouldSubscribe name resource forwarderConfigs' handlers' service') ->
  addCloudWatchForwarderSubscriptions service aws functionArn forwarderConfigs
    handlers w
  = addCloudWatchForwarderSubscriptions service' aws functionArn forwarderConfigs'
      handlers' w.
Proof.
  intros Hname Hit Hsame. unfold addCloudWatchForwarderSubscriptions.
  apply bind_ext. intros [g|] w1; [|reflexivity].
  rewrite Hit. apply bind_ext. intros errors w2.
  now apply subscribeEntries_congruence.
Qed.

End Independence.

(** X11.  With the extension on, the list of handlers has no influence on a
    run: outcome, warnings, template and requests are the same for any two
    lists. *)
Theorem addCloudWatchForwarderSubscriptions_extension_ignores_handlers
  (service : Service) (aws : Aws) (functionArn : ForwarderArn)
  (forwarderConfigs : ForwarderConfigs) (handlers handlers' : list FunctionInfo.t)
  (w : World) :
  AddExtension forwarderConfigs = true ->
  addCloudWatchForwarderSubscriptions service aws functionArn forwarderConfigs
    handlers w
  = addCloudWatchForwarderSubscriptions service aws functionArn forwarderConfigs
      handlers' w.
Proof.
  intros Hext.
  apply addCloudWatchForwarderSubscriptions_congruence; try reflexivity.
  intros name resource.
  destruct (literalLogGroup resource) as [s|] eqn:Hs.
  - rewrite !(shouldSubscribe_literal _ _ _ _ _ _ Hs), Hext. reflexivity.
  - now apply shouldSubscribe_not_literal.
Qed.

Lemma addCloudWatchForwarderSubscriptions_extension_ignores_handlers_witness :
  addCloudWatchForwarderSubscriptions restLoggingService everythingExists
    (ArnString "arn:fwd") extensionOnly [{| FunctionInfo.name := "foo" |}] apiWorld
  = addCloudWatchForwarderSubscriptions restLoggingService everythingExists
      (ArnString "arn:fwd") extensionOnly [] apiWorld.
Proof.
  apply (addCloudWatchForwarderSubscriptions_extension_ignores_handlers
           restLoggingService everythingExists (ArnString "arn:fwd") extensionOnly
           [{| FunctionInfo.name := "foo" |}] [] apiWorld).
  reflexivity.
Defined.

(** X12.  With access-log subscription off, the provider's [logs] block has
    no influence on a run: two services of the same name give the same
    outcome, warnings, template and requests. *)
Theorem addCloudWatchForwarderSubscriptions_ignores_logs_config
  (service service' : Service) (aws : Aws) (functionArn : ForwarderArn)
  (forwarderConfigs : ForwarderConfigs) (handlers : list FunctionInfo.t)
  (w : World) :
  SubToAccessLogGroups forwarderConfigs = false ->
  getServiceName service = getServiceName service' ->
  addCloudWatchForwarderSubscriptions service aws functionArn forwarderConfigs
    handlers w
  = addCloudWatchForwarderSubscriptions service' aws functionArn forwarderConfigs
      handlers w.
Proof.
  intros Hacc Hname.
  apply addCloudWatchForwarderSubscriptions_congruence; try reflexivity; [exact Hname|].
  intros name resource.
  destruct (literalLogGroup resource) as [s|] eqn:Hs.
  - rewrite !(shouldSubscribe_literal _ _ _ _ _ _ Hs), Hacc.
    now rewrite !andb_false_r.
  - now apply shouldSubscribe_not_literal.
Qed.

Lemma addCloudWatchForwarderSubscriptions_ignores_logs_config_witness :
  addCloudWatchForwarderSubscriptions restLoggingService everythingExists
    (ArnString "arn:fwd") extensionOnly [{| FunctionInfo.name := "foo" |}] apiWorld
  = addCloudWatchForwarderSubscriptions plainService everythingExists
      (ArnString "arn:fwd") extensionOnly [{| FunctionInfo.name := "foo" |}] apiWorld.
Proof.
  apply (addCloudWatchForwarderSubscriptions_ignores_logs_config
           restLoggingService plainService everythingExists (ArnString "arn:fwd")
           extensionOnly [{| FunctionInfo.name := "foo" |}] apiWorld);
    reflexivity.
Defined.

(** ** The synthesizer and the rest of the template *)

Section SynthesizerFrame.

Variables (service : Service) (aws : Aws) (functionArn : ForwarderArn).

Lemma assign_keys_extend (g : Graph) (k : string) (v : value) :
  exists extra, map fst (assign g k v) = (map fst g ++ extra)%list.
Proof.
  rewrite assign_keys. destruct (in_dec string_dec k (map fst g)).
  - exists []. now rewrite app_nil_r.
  - now exists [k].
Qed.

Lemma assign_keys_extend_twice (g : Graph) (k k' : string) (v v' : value) :
  exists extra,
    map fst (assign (assign g k v) k' v') = (map fst g ++ extra)%list.
Proof.
  destruct (assign_keys_extend (assign g k v) k' v') as [e' ->].
  destruct (assign_keys_extend g k v) as [e ->].
  exists (e ++ e')%list. now rewrite app_assoc.
Qed.

Lemma synthesized_keys (g : Graph) :
  exists extra,
    map fst (withWebsocketsPair service aws functionArn
               (withRestPair service aws functionArn g))
    = (map fst g ++ extra)%list.
Proof.
  unfold withWebsocketsPair, withRestPair.
  destruct (restExecutionLoggingIsEnabled (providerLogs service));
    destruct (websocketExecutionLoggingIsEnabled (providerLogs service)).
  - destruct (assign_keys_extend_twice
                (assign (assign g REST_EXECUTION_LOG_GROUP_KEY
                           (restExecutionLogGroup aws))
                        REST_EXECUTION_SUBSCRIPTION_KEY
                        (restExecutionSubscription functionArn))
                WEBSOCKETS_EXECUTION_LOG_GROUP_KEY
                WEBSOCKETS_EXECUTION_SUBCRIPTION_KEY
                (websocketsExecutionLogGroup aws)
                (websocketsExecutionSubscription functionArn)) as [e' ->].
    destruct (assign_keys_extend_twice g REST_EXECUTION_LOG_GROUP_KEY
                REST_EXECUTION_SUBSCRIPTION_KEY (restExecutionLogGroup aws)
                (restExecutionSubscription functionArn)) as [e ->].
    exists (e ++ e')%list. now rewrite app_assoc.
  - apply assign_keys_extend_twice.
  - apply assign_keys_extend_twice.
  - exists []. now rewrite app_nil_r.
Qed.

Lemma synthesized_lookup (g : Graph) (k : string) :
  lookup (withWebsocketsPair service aws functionArn
            (withRestPair service aws functionArn g)) k
  = lookup g k
  \/ (restExecutionLoggingIsEnabled (providerLogs service) = true
      /\ (k = REST_EXECUTION_LOG_GROUP_KEY \/ k = REST_EXECUTION_SUBSCRIPTION_KEY))
  \/ (websocketExecutionLoggingIsEnabled (providerLogs service) = true
      /\ (k = WEBSOCKETS_EXECUTION_LOG_GROUP_KEY
          \/ k = WEBSOCKETS_EXECUTION_SUBCRIPTION_KEY)).
Proof.
  unfold withWebsocketsPair, withRestPair.
  destruct (restExecutionLoggingIsEnabled (providerLogs service));
    destruct (websocketExecutionLoggingIsEnabled (providerLogs service));
    try (now left);
    destruct (string_dec k REST_EXECUTION_LOG_GROUP_KEY);
    destruct (string_dec k REST_EXECUTION_SUBSCRIPTION_KEY);
    destruct (string_dec k WEBSOCKETS_EXECUTION_LOG_GROUP_KEY);
    destruct (string_dec k WEBSOCKETS_EXECUTION_SUBCRIPTION_KEY);
    try (right; left; split; [reflexivity|tauto]);
    try (right; right; split; [reflexivity|tauto]);
    left; rewrite ?assign_lookup_other by congruence; reflexivity.
Qed.

End SynthesizerFrame.

(** X13.  On a present template the synthesizer sends nothing to AWS, keeps
    every entry in its place and adds new ones at the end; the only ids
    whose value can differ afterwards are the two of the REST pair, when
    REST execution logging is on, and the two of the WebSocket pair, when
    WebSocket execution logging is on. *)
Theorem addExecutionLogGroupsAndSubscriptions_frame
  (service : Service) (aws : Aws) (functionArn : ForwarderArn)
  (w : World) (g : Graph) :
  Resources w = Some g ->
  exists g',
    snd (addExecutionLogGroupsAndSubscriptions service aws functionArn w)
    = {| Resources := Some g'; requests := requests w |}
    /\ (exists extra, map fst g' = (map fst g ++ extra)%list)
    /\ forall k,
         lookup g' k = lookup g k
         \/ (restExecutionLoggingIsEnabled (providerLogs service) = true
             /\ (k = REST_EXECUTION_LOG_GROUP_KEY
                 \/ k = REST_EXECUTION_SUBSCRIPTION_KEY))
         \/ (websocketExecutionLoggingIsEnabled (providerLogs service) = true
             /\ (k = WEBSOCKETS_EXECUTION_LOG_GROUP_KEY
                 \/ k = WEBSOCKETS_EXECUTION_SUBCRIPTION_KEY)).
Proof.
  intros Hg. destruct w as [g0 rs]. cbn in Hg. subst g0.
  destruct (isLogsConfig (providerLogs service)) as [[|]|e] eqn:Hcfg.
  - rewrite (addExecutionLogGroupsAndSubscriptions_run _ _ _ _ _ Hcfg).
    eexists. split; [reflexivity|].
    split; [apply synthesized_keys | apply synthesized_lookup].
  - rewrite addExecutionLogGroupsAndSubscriptions_rejected by congruence.
    exists g. split; [reflexivity|].
    split; [exists []; now rewrite app_nil_r | now left].
  - rewrite addExecutionLogGroupsAndSubscriptions_rejected by congruence.
    exists g. split; [reflexivity|].
    split; [exists []; now rewrite app_nil_r | now left].
Qed.

Lemma addExecutionLogGroupsAndSubscriptions_frame_witness :
  exists g',
    snd (addExecutionLogGroupsAndSubscriptions executionLoggingService
           everythingExists (ArnString "arn:fwd") fooWorld)
    = {| Resources := Some g'; requests := requests fooWorld |}
    /\ (exists extra,
           map fst g' = (map fst [("FooLogGroup", fooLogGroup)] ++ extra)%list)
    /\ forall k,
         lookup g' k = lookup [("FooLogGroup", fooLogGroup)] k
         \/ (restExecutionLoggingIsEnabled (providerLogs executionLoggingService)
             = true
             /\ (k = REST_EXECUTION_LOG_GROUP_KEY
                 \/ k = REST_EXECUTION_SUBSCRIPTION_KEY))
         \/ (websocketExecutionLoggingIsEnabled
               (providerLogs executionLoggingService) = true
             /\ (k = WEBSOCKETS_EXECUTION_LOG_GROUP_KEY
                 \/ k = WEBSOCKETS_EXECUTION_SUBCRIPTION_KEY)).
Proof.
  apply (addExecutionLogGroupsAndSubscriptions_frame executionLoggingService
           everythingExists (ArnString "arn:fwd") fooWorld).
  reflexivity.
Defined.

(** X14.  Without a compiled template, a valid configuration with REST or
    WebSocket execution logging switched on makes the synthesizer throw a
    [TypeError] at its first assignment; nothing else happens. *)
Theorem addExecutionLogGroupsAndSubscriptions_missing_template
  (service : Service) (aws : Aws) (functionArn : ForwarderArn) (w : World) :
  Resources w = None ->
  isLogsConfig (providerLogs service) = Ok true ->
  restExecutionLoggingIsEnabled (providerLogs service) = true
  \/ websocketExecutionLoggingIsEnabled (providerLogs service) = true ->
  addExecutionLogGroupsAndSubscriptions service aws functionArn w
  = (Throw TypeError, w).
Proof.
  intros Hnone Hcfg Hflag. destruct w as [g rs]. cbn in Hnone. subst g.
  unfold addExecutionLogGroupsAndSubscriptions, bind, liftR.
  rewrite Hcfg. cbn [negb].
  destruct (restExecutionLoggingIsEnabled (providerLogs service));
    [reflexivity|].
  destruct Hflag as [Hflag|Hflag]; [discriminate|]. now rewrite Hflag.
Qed.

Lemma addExecutionLogGroupsAndSubscriptions_missing_template_witness :
  addExecutionLogGroupsAndSubscriptions executionLoggingService everythingExists
    (ArnString "arn:fwd") noTemplate
  = (Throw TypeError, noTemplate).
Proof.
  apply (addExecutionLogGroupsAndSubscriptions_missing_template
           executionLoggingService everythingExists (ArnString "arn:fwd") noTemplate).
  - reflexivity.
  - reflexivity.
  - now left.
Defined.

(** ** More on the naming transform *)

Section NamingFacts.

Lemma append_assoc (a b c : string) : (a ++ b) ++ c = a ++ (b ++ c).
Proof. induction a as [|x a IH]; simpl; [reflexivity | now rewrite IH]. Qed.

Lemma replaceAll_app (c : ascii) (by_ x y : string) :
  replaceAll c by_ (x ++ y) = replaceAll c by_ x ++ replaceAll c by_ y.
Proof.
  induction x as [|d x IH]; simpl; [reflexivity|].
  rewrite IH. destruct (Ascii.eqb d c); [now rewrite append_assoc | reflexivity].
Qed.

(** A replacement brings in no character that is not in the input or in
    the replacement text. *)
Lemma replaceAll_chars (c d : ascii) (by_ s : string) :
  In d (list_ascii_of_string (replaceAll c by_ s)) ->
  In d (list_ascii_of_string s) \/ In d (list_ascii_of_string by_).
Proof.
  induction s as [|x s IH]; simpl; [tauto|].
  destruct (Ascii.eqb x c).
  - rewrite list_ascii_of_string_app. intros H. apply in_app_or in H. tauto.
  - simpl. tauto.
Qed.

Lemma toUpperCase_idempotent (c : ascii) :
  toUpperCase (toUpperCase c) = toUpperCase c.
Proof.
  destruct c as [[|] [|] [|] [|] [|] [|] [|] [|]]; reflexivity.
Qed.

End NamingFacts.

(** X15.  A logical id computed by the naming transform contains neither a
    dash nor an underscore. *)
Theorem getLogGroupLogicalId_no_dash_no_underscore (functionName : string) :
  ~ In "-"%char (list_ascii_of_string (getLogGroupLogicalId functionName))
  /\ ~ In "_"%char (list_ascii_of_string (getLogGroupLogicalId functionName)).
Proof.
  split; [|apply getLogGroupLogicalId_no_underscore].
  destruct functionName as [|c rest]; [simpl; tauto|].
  unfold getLogGroupLogicalId. rewrite list_ascii_of_string_app.
  intros Hin. apply in_app_or in Hin. destruct Hin as [Hin|Hin].
  - apply replaceAll_chars in Hin. destruct Hin as [Hin|Hin].
    + revert Hin. apply replaceAll_absent. simpl. intros Hd.
      repeat (destruct Hd as [Hd|Hd]; [discriminate|]). destruct Hd.
    + simpl in Hin. repeat (destruct Hin as [Hin|Hin]; [discriminate|]).
      destruct Hin.
  - simpl in Hin. repeat (destruct Hin as [Hin|Hin]; [discriminate|]). destruct Hin.
Qed.

(** X16.  The naming transform identifies names: the case of the first
    character is lost, a dash cannot be told from the word [Dash], and an
    underscore cannot be told from the word [Underscore]. *)
Theorem getLogGroupLogicalId_collisions (c : ascii) (before after : string) :
  getLogGroupLogicalId (String c after)
  = getLogGroupLogicalId (String (toUpperCase c) after)
  /\ getLogGroupLogicalId (String c (before ++ "-" ++ after))
     = getLogGroupLogicalId (String c (before ++ "Dash" ++ after))
  /\ getLogGroupLogicalId (String c (before ++ "_" ++ after))
     = getLogGroupLogicalId (String c (before ++ "Underscore" ++ after)).
Proof.
  unfold getLogGroupLogicalId. split; [now rewrite toUpperCase_idempotent|].
  change (String (toUpperCase c) (before ++ "-" ++ after))
    with (String (toUpperCase c) before ++ "-" ++ after).
  change (String (toUpperCase c) (before ++ "Dash" ++ after))
    with (String (toUpperCase c) before ++ "Dash" ++ after).
  change (String (toUpperCase c) (before ++ "_" ++ after))
    with (String (toUpperCase c) before ++ "_" ++ after).
  change (String (toUpperCase c) (before ++ "Underscore" ++ after))
    with (String (toUpperCase c) before ++ "Underscore" ++ after).
  rewrite !replaceAll_app. split; reflexivity.
Qed.

(** * Properties of the plugin class *)

(** ** Configuration checks *)

(** X17.  [checkForMultipleApiKeys] returns exactly when at most one of
    [apiKey], [apiKMSKey] and [apiKeySecretArn] is set; otherwise it throws
    an [Error]. *)
Theorem checkForMultipleApiKeys_at_most_one (config : Configuration) :
  (checkForMultipleApiKeys config = Returns tt <->
   (apiKey config = None /\ apiKMSKey config = None)
   \/ (apiKey config = None /\ apiKeySecretArn config = None)
   \/ (apiKMSKey config = None /\ apiKeySecretArn config = None))
  /\ (checkForMultipleApiKeys config = Returns tt
      \/ exists message, checkForMultipleApiKeys config = ThrowsError message).
Proof.
  unfold checkForMultipleApiKeys.
  destruct (apiKey config), (apiKMSKey config), (apiKeySecretArn config);
    cbn; (split; [split; [try discriminate; tauto | intros H; try reflexivity;
                          decompose [and or] H; discriminate]
                 | try (now left); right; eexists; reflexivity]).
Qed.

(** X18.  [validateConfiguration] returns exactly when the API key check
    passes, the site (if any) is one of the five known sites once put in
    lower case, the extension (if added) finds an API key in the
    configuration or the environment, and monitors (if any) find both keys
    in the environment or both in the configuration. *)
Theorem validateConfiguration_accepts
  (toLowerCase : string -> string) (env : ProcessEnv) (config : Configuration) :
  validateConfiguration toLowerCase env config = Returns tt <->
  checkForMultipleApiKeys config = Returns tt
  /\ (forall s, site config = Some s -> In (toLowerCase s) siteList)
  /\ (addExtension config = true ->
      apiKey config <> None \/ DATADOG_API_KEY env <> None
      \/ apiKMSKey config <> None \/ apiKeySecretArn config <> None)
  /\ (monitors config <> None ->
      (DATADOG_API_KEY env <> None /\ DATADOG_APP_KEY env <> None)
      \/ (apiKey config <> None /\ appKey config <> None)).
Proof.
  unfold validateConfiguration.
  destruct (checkForMultipleApiKeys config) as [[]|message|];
    [|split; [discriminate | intros [H _]; discriminate]
     |split; [discriminate | intros [H _]; discriminate]].
  assert (Hsite :
    match site config with
    | Some s => negb (existsb (String.eqb (toLowerCase s)) siteList)
    | None => false
    end = false <-> forall s, site config = Some s -> In (toLowerCase s) siteList).
  { destruct (site config) as [s0|].
    - rewrite negb_false_iff, existsb_exists. split.
      + intros (x & Hin & Heq) s [= <-]. apply String.eqb_eq in Heq. now subst x.
      + intros H. exists (toLowerCase s0). split; [now apply H|apply String.eqb_refl].
    - split; [discriminate | reflexivity]. }
  assert (Hext :
    addExtension config
    && (negb (defined (apiKey config)) && negb (defined (DATADOG_API_KEY env))
        && negb (defined (apiKMSKey config))
        && negb (defined (apiKeySecretArn config))) = false <->
    (addExtension config = true ->
     apiKey config <> None \/ DATADOG_API_KEY env <> None
     \/ apiKMSKey config <> None \/ apiKeySecretArn config <> None)).
  { destruct (addExtension config), (apiKey config), (DATADOG_API_KEY env),
      (apiKMSKey config), (apiKeySecretArn config); cbn;
      intuition congruence. }
  assert (Hmon :
    defined (monitors config)
    && ((negb (defined (DATADOG_API_KEY env))
         || negb (defined (DATADOG_APP_KEY env)))
        && (negb (defined (apiKey config)) || negb (defined (appKey config))))
    = false <->
    (monitors config <> None ->
     (DATADOG_API_KEY env <> None /\ DATADOG_APP_KEY env <> None)
     \/ (apiKey config <> None /\ appKey config <> None))).
  { destruct (monitors config), (DATADOG_API_KEY env), (DATADOG_APP_KEY env),
      (apiKey config), (appKey config); cbn; intuition congruence. }
  destruct (match site config with Some _ => _ | None => false end).
  { split; [discriminate|]. intros (_ & H & _). apply Hsite in H. discriminate. }
  destruct (addExtension config && _).
  { split; [discriminate|]. intros (_ & _ & H & _). apply Hext in H. discriminate. }
  destruct (defined (monitors config) && _).
  { split; [discriminate|]. intros (_ & _ & _ & H). apply Hmon in H. discriminate. }
  split; [intros _|reflexivity].
  split; [reflexivity|]. split; [now apply Hsite|].
  split; [now apply Hext | now apply Hmon].
Qed.

(** X19.  [setDatadogForwarder] throws exactly when both parameters are
    non-empty strings, and returns a forwarder exactly when one parameter is
    set and the other is [undefined]; that parameter is the result.  When
    both are set and one of them is the empty string it returns [undefined]
    without a word. *)
Theorem setDatadogForwarder_cases (config : Configuration) :
  ((exists message, fst (setDatadogForwarder config) = ThrowsError message) <->
   nonEmpty (forwarderArn config) = true /\ nonEmpty (forwarder config) = true)
  /\ (forall a,
        fst (setDatadogForwarder config) = Returns (Some a) <->
        (forwarderArn config = Some a /\ forwarder config = None)
        \/ (forwarder config = Some a /\ forwarderArn config = None))
  /\ (forall a b,
        forwarderArn config = Some a -> forwarder config = Some b ->
        a = "" \/ b = "" ->
        setDatadogForwarder config = (Returns None, [])).
Proof.
  unfold setDatadogForwarder.
  destruct (forwarderArn config) as [[|x a]|], (forwarder config) as [[|y b]|];
    cbn; repeat split;
    try (intros [message H]; discriminate);
    try (intros [H1 H2]; discriminate);
    try (intros _; eexists; reflexivity);
    try (intros; intuition congruence);
    match goal with
    | H : exists _, _ = ThrowsError _ |- _ => destruct H; discriminate
    end.
Qed.

(** X20.  On a configuration object [configHasOldProperties] returns exactly
    when none of the three removed options is truthy; otherwise it throws an
    [Error] whose message lists the truthy ones in a fixed order. *)
Theorem configHasOldProperties_rejects_removed_options
  (fields : list (string * value)) :
  let api := truthy (getOpt (VObj fields) "subscribeToApiGatewayLogs") in
  let http := truthy (getOpt (VObj fields) "subscribeToHttpApiLogs") in
  let websocket := truthy (getOpt (VObj fields) "subscribeToWebsocketLogs") in
  configHasOldProperties (VObj fields)
  = if api || http || websocket
    then ThrowsError
           ("The following configuration options have been removed:"
            ++ (if api then " subscribeToApiGatewayLogs" else "")
            ++ (if http then " subscribeToHttpApiLogs" else "")
            ++ (if websocket then " subscribeToWebsocketLogs" else "")
            ++ ". Please use the subscribeToAccessLogs or subscribeToExecutionLogs options instead.")
    else Returns tt.
Proof.
  cbv zeta. unfold configHasOldProperties.
  destruct (truthy (getOpt (VObj fields) "subscribeToApiGatewayLogs")),
    (truthy (getOpt (VObj fields) "subscribeToHttpApiLogs")),
    (truthy (getOpt (VObj fields) "subscribeToWebsocketLogs")); reflexivity.
Qed.

(** ** Tags *)

Section TagFacts.

Lemma getTag_setTag_same (t : Tags) (k v : string) :
  getTag (setTag t k v) k = Some v.
Proof.
  induction t as [|[k' old] t IH]; simpl.
  - now rewrite String.eqb_refl.
  - destruct (String.eqb_spec k' k) as [->|Hne]; simpl.
    + now rewrite String.eqb_refl.
    + apply String.eqb_neq in Hne. now rewrite Hne.
Qed.

Lemma getTag_setTag_other (t : Tags) (k k' v : string) :
  k <> k' -> getTag (setTag t k v) k' = getTag t k'.
Proof.
  intros Hkk'. induction t as [|[k0 old] t IH]; simpl.
  - apply String.eqb_neq in Hkk'. now rewrite Hkk'.
  - destruct (String.eqb_spec k0 k) as [->|Hne]; simpl.
    + apply String.eqb_neq in Hkk'. now rewrite Hkk'.
    + now rewrite IH.
Qed.

Lemma setTag_same (t : Tags) (k v : string) :
  getTag t k = Some v -> setTag t k v = t.
Proof.
  induction t as [|[k' old] t IH]; simpl; [discriminate|].
  destruct (String.eqb_spec k' k) as [Heq|Hne].
  - intros H. injection H as H. now rewrite H.
  - intros H. now rewrite IH.
Qed.

(** A tag that is there survives [??=], whatever the key. *)
Lemma setTagIfNullish_keeps (t : Tags) (k v k' v' : string) :
  getTag t k' = Some v' -> getTag (setTagIfNullish t k v) k' = Some v'.
Proof.
  intros H. unfold setTagIfNullish. destruct (getTag t k) eqn:Hk; [exact H|].
  rewrite getTag_setTag_other; [exact H|]. intros ->. congruence.
Qed.

Lemma setTagIfNullish_present (t : Tags) (k v : string) :
  exists v', getTag (setTagIfNullish t k v) k = Some v'.
Proof.
  unfold setTagIfNullish. destruct (getTag t k) eqn:Hk.
  - rewrite Hk. now eexists.
  - rewrite getTag_setTag_same. now eexists.
Qed.

Lemma setTagIfNullish_again (t : Tags) (k v : string) :
  setTagIfNullish (setTagIfNullish t k v) k v = setTagIfNullish t k v.
Proof.
  destruct (setTagIfNullish_present t k v) as [v' Hv'].
  unfold setTagIfNullish at 1. now rewrite Hv'.
Qed.

End TagFacts.

Section AddTags.

Variables (provider : Provider) (serviceName stage : string).

Local Abbreviation tagged shouldAddTags :=
  (addTagsToHandler provider serviceName stage shouldAddTags).

Lemma Forall2_map_right {A B : Type} (R : A -> B -> Prop) (f : A -> B) (l : list A) :
  (forall x, R x (f x)) -> Forall2 R l (map f l).
Proof. intros H. induction l; simpl; constructor; auto. Qed.

Lemma addTagsToHandler_keeps shouldAddTags handler k v :
  k <> TagKeys_Plugin ->
  getTag (match tags handler with Some t => t | None => [] end) k = Some v ->
  exists t',
    tags (tagged shouldAddTags handler) = Some t' /\ getTag t' k = Some v.
Proof.
  intros Hk Hv. unfold addTagsToHandler. eexists. split; [reflexivity|].
  set (t0 := match tags handler with Some t => t | None => [] end) in *.
  assert (H1 : getTag (setTag t0 TagKeys_Plugin ("v" ++ version)) k = Some v).
  { rewrite getTag_setTag_other; [exact Hv | congruence]. }
  destruct (shouldAddTags && _); destruct (shouldAddTags && _);
    repeat apply setTagIfNullish_keeps; exact H1.
Qed.

Lemma addTagsToHandler_plugin shouldAddTags handler :
  exists t',
    tags (tagged shouldAddTags handler) = Some t'
    /\ getTag t' TagKeys_Plugin = Some ("v" ++ version).
Proof.
  unfold addTagsToHandler. eexists. split; [reflexivity|].
  destruct (shouldAddTags && _); destruct (shouldAddTags && _);
    repeat apply setTagIfNullish_keeps; apply getTag_setTag_same.
Qed.

Lemma addTagsToHandler_plugin_only handler k :
  k <> TagKeys_Plugin ->
  exists t',
    tags (tagged false handler) = Some t'
    /\ getTag t' k = getTag (match tags handler with Some t => t | None => [] end) k.
Proof.
  intros Hk. unfold addTagsToHandler. cbn [andb]. eexists.
  split; [reflexivity|]. apply getTag_setTag_other. congruence.
Qed.

Lemma setTagIfNullish_noop (t : Tags) (k v v' : string) :
  getTag t k = Some v' -> setTagIfNullish t k v = t.
Proof. intros H. unfold setTagIfNullish. now rewrite H. Qed.

Lemma addTagsToHandler_again shouldAddTags handler :
  tagged shouldAddTags (tagged shouldAddTags handler) = tagged shouldAddTags handler.
Proof.
  unfold addTagsToHandler. cbn [tags].
  set (t0 := match tags handler with Some t => t | None => [] end).
  set (t1 := setTag t0 TagKeys_Plugin ("v" ++ version)).
  set (c1 := shouldAddTags
             && (lacksTag (providerTags provider) TagKeys_Service
                 && lacksTag (stackTags provider) TagKeys_Service)).
  set (c2 := shouldAddTags
             && (lacksTag (providerTags provider) TagKeys_Env
                 && lacksTag (stackTags provider) TagKeys_Env)).
  set (t2 := if c1 then setTagIfNullish t1 TagKeys_Service serviceName else t1).
  set (t3 := if c2 then setTagIfNullish t2 TagKeys_Env stage else t2).
  assert (Hplugin : getTag t3 TagKeys_Plugin = Some ("v" ++ version)).
  { unfold t3, t2. destruct c1, c2;
      repeat apply setTagIfNullish_keeps; apply getTag_setTag_same. }
  rewrite (setTag_same _ _ _ Hplugin).
  assert (Hservice : c1 = true ->
                     setTagIfNullish t3 TagKeys_Service serviceName = t3).
  { intros Hc1.
    destruct (setTagIfNullish_present t1 TagKeys_Service serviceName) as [v Hv].
    apply setTagIfNullish_noop with (v' := v).
    unfold t3, t2. rewrite Hc1.
    destruct c2; [now apply setTagIfNullish_keeps | exact Hv]. }
  assert (Henv : c2 = true -> setTagIfNullish t3 TagKeys_Env stage = t3).
  { intros Hc2.
    destruct (setTagIfNullish_present t2 TagKeys_Env stage) as [v Hv].
    apply setTagIfNullish_noop with (v' := v).
    unfold t3. now rewrite Hc2. }
  destruct c1, c2; rewrite ?Hservice, ?Henv by reflexivity; reflexivity.
Qed.

End AddTags.

Section AddTagsDefaults.

Variables (provider : Provider) (serviceName stage : string).

Lemma getTag_setTagIfNullish_other (t : Tags) (k k' v : string) :
  k <> k' -> getTag (setTagIfNullish t k v) k' = getTag t k'.
Proof.
  intros Hk. unfold setTagIfNullish. destruct (getTag t k); [reflexivity|].
  now apply getTag_setTag_other.
Qed.

Lemma getTag_setTagIfNullish_same (t : Tags) (k v : string) :
  getTag (setTagIfNullish t k v) k
  = match getTag t k with Some old => Some old | None => Some v end.
Proof.
  unfold setTagIfNullish. destruct (getTag t k) eqn:Hk; [exact Hk|].
  apply getTag_setTag_same.
Qed.

Lemma addTagsToHandler_defaults handler :
  exists t',
    tags (addTagsToHandler provider serviceName stage true handler) = Some t'
    /\ getTag t' TagKeys_Service
       = match getTag (match tags handler with Some t => t | None => [] end)
                      TagKeys_Service with
         | Some own => Some own
         | None =>
             if lacksTag (providerTags provider) TagKeys_Service
                && lacksTag (stackTags provider) TagKeys_Service
             then Some serviceName else None
         end
    /\ getTag t' TagKeys_Env
       = match getTag (match tags handler with Some t => t | None => [] end)
                      TagKeys_Env with
         | Some own => Some own
         | None =>
             if lacksTag (providerTags provider) TagKeys_Env
                && lacksTag (stackTags provider) TagKeys_Env
             then Some stage else None
         end.
Proof.
  unfold addTagsToHandler. cbn [andb]. eexists. split; [reflexivity|].
  set (t0 := match tags handler with Some t => t | None => [] end).
  assert (Hs : getTag (setTag t0 TagKeys_Plugin ("v" ++ version)) TagKeys_Service
               = getTag t0 TagKeys_Service)
    by (apply getTag_setTag_other; discriminate).
  assert (He : getTag (setTag t0 TagKeys_Plugin ("v" ++ version)) TagKeys_Env
               = getTag t0 TagKeys_Env)
    by (apply getTag_setTag_other; discriminate).
  destruct (lacksTag (providerTags provider) TagKeys_Service
            && lacksTag (stackTags provider) TagKeys_Service);
    destruct (lacksTag (providerTags provider) TagKeys_Env
              && lacksTag (stackTags provider) TagKeys_Env);
    rewrite ?getTag_setTagIfNullish_same,
      ?(getTag_setTagIfNullish_other _ TagKeys_Env TagKeys_Service),
      ?(getTag_setTagIfNullish_other _ TagKeys_Service TagKeys_Env),
      ?getTag_setTagIfNullish_same, ?Hs, ?He by discriminate;
    destruct (getTag t0 TagKeys_Service), (getTag t0 TagKeys_Env); split; reflexivity.
Qed.

End AddTagsDefaults.

(** X21.  After [addTags] every function definition carries the tag
    [dd_sls_plugin] with the value [v5.1.0], and every other tag it had
    before still has its value. *)
Theorem addTags_plugin_tag
  (provider : Provider) (serviceName stage : string)
  (handlers : list FunctionDefinition) (shouldAddTags : bool) :
  Forall2
    (fun before after =>
       exists t',
         tags after = Some t'
         /\ getTag t' "dd_sls_plugin" = Some "v5.1.0"
         /\ forall k v,
              k <> "dd_sls_plugin" ->
              getTag (match tags before with Some t => t | None => [] end) k = Some v ->
              getTag t' k = Some v)
    handlers
    (fst (addTags provider serviceName stage handlers shouldAddTags)).
Proof.
  unfold addTags. cbn [fst]. apply Forall2_map_right. intros h.
  destruct (addTagsToHandler_plugin provider serviceName stage shouldAddTags h)
    as (t' & Ht' & Hplugin).
  exists t'. split; [exact Ht'|]. split; [exact Hplugin|].
  intros k v Hk Hv.
  destruct (addTagsToHandler_keeps provider serviceName stage shouldAddTags h k v
              Hk Hv) as (t'' & Ht'' & Hkept).
  congruence.
Qed.

(** X22.  Called with [shouldAddTags] false, [addTags] changes no tag but
    [dd_sls_plugin]. *)
Theorem addTags_plugin_tag_only
  (provider : Provider) (serviceName stage : string)
  (handlers : list FunctionDefinition) :
  Forall2
    (fun before after =>
       exists t',
         tags after = Some t'
         /\ forall k,
              k <> "dd_sls_plugin" ->
              getTag t' k
              = getTag (match tags before with Some t => t | None => [] end) k)
    handlers
    (fst (addTags provider serviceName stage handlers false)).
Proof.
  unfold addTags. cbn [fst]. apply Forall2_map_right. intros h.
  unfold addTagsToHandler. cbn [andb]. eexists. split; [reflexivity|].
  intros k Hk. apply getTag_setTag_other. unfold TagKeys_Plugin. congruence.
Qed.

(** X23.  Called with [shouldAddTags] true, [addTags] leaves a function's
    own [service] and [env] tags alone, even empty ones; a function without
    such a tag gets the service name, respectively the stage, unless the
    provider has a non-empty tag of that name among its [tags] or
    [stackTags], in which case the function gets none. *)
Theorem addTags_service_and_env
  (provider : Provider) (serviceName stage : string)
  (handlers : list FunctionDefinition) :
  Forall2
    (fun before after =>
       exists t',
         tags after = Some t'
         /\ getTag t' "service"
            = match getTag (match tags before with Some t => t | None => [] end)
                           "service" with
              | Some own => Some own
              | None =>
                  if lacksTag (providerTags provider) "service"
                     && lacksTag (stackTags provider) "service"
                  then Some serviceName else None
              end
         /\ getTag t' "env"
            = match getTag (match tags before with Some t => t | None => [] end)
                           "env" with
              | Some own => Some own
              | None =>
                  if lacksTag (providerTags provider) "env"
                     && lacksTag (stackTags provider) "env"
                  then Some stage else None
              end)
    handlers
    (fst (addTags provider serviceName stage handlers true)).
Proof.
  unfold addTags. cbn [fst]. apply Forall2_map_right. intros h.
  apply addTagsToHandler_defaults.
Qed.

(** X24.  [addTags] is idempotent on the function definitions: a second
    call with the same arguments changes nothing. *)
Theorem addTags_idempotent
  (provider : Provider) (serviceName stage : string)
  (handlers : list FunctionDefinition) (shouldAddTags : bool) :
  fst (addTags provider serviceName stage
         (fst (addTags provider serviceName stage handlers shouldAddTags))
         shouldAddTags)
  = fst (addTags provider serviceName stage handlers shouldAddTags).
Proof.
  unfold addTags. cbn [fst]. rewrite map_map. apply map_ext.
  intros h. apply addTagsToHandler_again.
Qed.

(** ** Every candidate is accounted for *)

Section Accounting.

Variables (service : Service) (aws : Aws) (functionArn : ForwarderArn)
          (forwarderConfigs : ForwarderConfigs) (handlers : list FunctionInfo.t).

Lemma length_append (a b : string) :
  String.length (a ++ b) = String.length a + String.length b.
Proof. induction a as [|c a IH]; simpl; [reflexivity | now rewrite IH]. Qed.

Lemma append_inj_l (a b suffix : string) :
  a ++ suffix = b ++ suffix -> a = b.
Proof.
  revert b. induction a as [|c a IH]; intros [|d b] H; simpl in H.
  - reflexivity.
  - apply (f_equal String.length) in H. simpl in H. rewrite length_append in H. lia.
  - apply (f_equal String.length) in H. simpl in H. rewrite length_append in H. lia.
  - injection H as -> H. f_equal. now apply IH.
Qed.

Lemma assign_subscription_kept (gc : Graph) (name name' : string) :
  lookup gc (name' ++ "Subscription") = Some (subscribeToLogGroup functionArn name') ->
  lookup (assign gc (name ++ "Subscription") (subscribeToLogGroup functionArn name))
         (name' ++ "Subscription")
  = Some (subscribeToLogGroup functionArn name').
Proof.
  intros H.
  destruct (string_dec (name ++ "Subscription") (name' ++ "Subscription")) as [Heq|Hne].
  - apply append_inj_l in Heq. subst name'. apply assign_lookup_same.
  - now rewrite assign_lookup_other.
Qed.

Lemma subscribeEntries_accounts entries errors w gc :
  Resources w = Some gc ->
  forall errs,
    fst (subscribeEntries service aws functionArn forwarderConfigs handlers
           entries errors w) = Ok errs ->
    exists g',
      Resources (snd (subscribeEntries service aws functionArn forwarderConfigs
                        handlers entries errors w)) = Some g'
      /\ (forall e, In e errors -> In e errs)
      /\ (forall name,
             lookup gc (name ++ "Subscription")
             = Some (subscribeToLogGroup functionArn name) ->
             lookup g' (name ++ "Subscription")
             = Some (subscribeToLogGroup functionArn name))
      /\ forall name resource,
           In (name, resource) entries ->
           shouldSubscribe name resource forwarderConfigs handlers service = Ok true ->
           lookup g' (name ++ "Subscription")
           = Some (subscribeToLogGroup functionArn name)
           \/ exists s, literalLogGroup resource = Some s /\ In (quotaWarning s) errs.
Proof.
  intros Hgc. generalize gc Hgc.
  apply (subscribeEntries_rules service aws functionArn forwarderConfigs handlers
    (fun entries errors w out => forall gc, Resources w = Some gc ->
       forall errs, fst out = Ok errs ->
       exists g',
         Resources (snd out) = Some g'
         /\ (forall e, In e errors -> In e errs)
         /\ (forall name,
                lookup gc (name ++ "Subscription")
                = Some (subscribeToLogGroup functionArn name) ->
                lookup g' (name ++ "Subscription")
                = Some (subscribeToLogGroup functionArn name))
         /\ forall name resource,
              In (name, resource) entries ->
              shouldSubscribe name resource forwarderConfigs handlers service
              = Ok true ->
              lookup g' (name ++ "Subscription")
              = Some (subscribeToLogGroup functionArn name)
              \/ exists s, literalLogGroup resource = Some s
                           /\ In (quotaWarning s) errs))
    with (gc := gc); [| | | | |exact Hgc].
  - intros errs0 w0 g0 Hg0 errs [= <-]. exists g0.
    split; [exact Hg0|]. split; [auto|]. split; [auto|]. intros ? ? [].
  - intros name resource rest errs0 w0 out Hno IH g0 Hg0 errs Hok.
    destruct (IH g0 Hg0 errs Hok) as (g' & Hout & Herrs & Hkept & Hall).
    exists g'. repeat split; auto.
    intros n r [[= -> ->]|Hin] Hyes; [congruence | now apply Hall].
  - intros name resource rest errs0 w0 e _ g0 _ errs [=].
  - intros name resource s rest errs0 w0 out Hs Hyes _ IH g0 Hg0 errs Hok.
    destruct (IH g0 Hg0 errs Hok) as (g' & Hout & Herrs & Hkept & Hall).
    exists g'. split; [exact Hout|].
    split; [intros e He; apply Herrs, in_or_app; now left|].
    split; [exact Hkept|].
    intros n r [[= -> ->]|Hin] Hyes'; [|now apply Hall].
    right. exists s. split; [exact Hs|]. apply Herrs, in_or_app. right. now left.
  - intros name resource s rest errs0 w0 g1 out Hs Hyes Hg1 _ IH g0 Hg0 errs Hok.
    assert (g1 = g0) by congruence. subst g1.
    destruct (IH _ eq_refl errs Hok) as (g' & Hout & Herrs & Hkept & Hall).
    exists g'. split; [exact Hout|]. split; [exact Herrs|]. split.
    + intros n Hn. apply Hkept. now apply assign_subscription_kept.
    + intros n r [[= -> ->]|Hin] Hyes'; [|now apply Hall].
      left. apply Hkept. apply assign_lookup_same.
Qed.

End Accounting.

(** X25.  In a run that returns, every entry of the template that
    [shouldSubscribe] accepts is accounted for: either its subscription
    filter is in the final template under the entry's logical id followed by
    [Subscription], or the warnings hold the quota warning for its log
    group. *)
Theorem addCloudWatchForwarderSubscriptions_accounts_for_candidates
  (service : Service) (aws : Aws) (functionArn : ForwarderArn)
  (forwarderConfigs : ForwarderConfigs) (handlers : list FunctionInfo.t)
  (w : World) (g : Graph) (errors : list string) (name : string) (resource : value) :
  Resources w = Some g ->
  fst (addCloudWatchForwarderSubscriptions service aws functionArn
         forwarderConfigs handlers w) = Ok errors ->
  In (name, resource) g ->
  shouldSubscribe name resource forwarderConfigs handlers service = Ok true ->
  exists g',
    Resources (snd (addCloudWatchForwarderSubscriptions service aws functionArn
                      forwarderConfigs handlers w)) = Some g'
    /\ (lookup g' (name ++ "Subscription")
        = Some (subscribeToLogGroup functionArn name)
        \/ exists s, literalLogGroup resource = Some s
                     /\ In (quotaWarning s) errors).
Proof.
  intros Hg Hok Hin Hyes. revert Hok.
  rewrite (addCloudWatchForwarderSubscriptions_phases _ _ _ _ _ _ _ Hg).
  assert (Hloop : forall notice w0,
    Resources w0 = Some g ->
    fst (subscribeEntries service aws functionArn forwarderConfigs handlers
           g notice w0) = Ok errors ->
    exists g',
      Resources (snd (subscribeEntries service aws functionArn forwarderConfigs
                        handlers g notice w0)) = Some g'
      /\ (lookup g' (name ++ "Subscription")
          = Some (subscribeToLogGroup functionArn name)
          \/ exists s, literalLogGroup resource = Some s
                       /\ In (quotaWarning s) errors)).
  { intros notice w0 Hg0 Hok.
    destruct (subscribeEntries_accounts service aws functionArn forwarderConfigs
                handlers g notice w0 g Hg0 errors Hok)
      as (g' & Hout & _ & _ & Hall).
    exists g'. split; [exact Hout | now apply Hall]. }
  destruct functionArn as [s|o];
    [destruct (IntegrationTesting forwarderConfigs) as [[|]|];
     [|destruct (getFunction aws (requests w) (ArnString s))
      |destruct (getFunction aws (requests w) (ArnString s))]|];
    try discriminate; apply Hloop; exact Hg.
Qed.

Lemma addCloudWatchForwarderSubscriptions_accounts_for_candidates_witness :
  exists g',
    Resources (snd (addCloudWatchForwarderSubscriptions plainService everythingExists
                      (ArnString "arn:fwd") forwarderOnly
                      [{| FunctionInfo.name := "foo" |}] fooWorld)) = Some g'
    /\ (lookup g' ("FooLogGroup" ++ "Subscription")
        = Some (subscribeToLogGroup (ArnString "arn:fwd") "FooLogGroup")
        \/ exists s, literalLogGroup fooLogGroup = Some s
                     /\ In (quotaWarning s) []).
Proof.
  apply (addCloudWatchForwarderSubscriptions_accounts_for_candidates
           plainService everythingExists (ArnString "arn:fwd") forwarderOnly
           [{| FunctionInfo.name := "foo" |}] fooWorld
           [("FooLogGroup", fooLogGroup)] [] "FooLogGroup" fooLogGroup).
  - reflexivity.
  - reflexivity.
  - now left.
  - reflexivity.
Defined.

(** ** Tags from the [custom] block *)

Section DDTags.

Variable custom : value.

Local Abbreviation own handlerTags :=
  (match handlerTags with Some t => t | None => [] end).

Lemma nullishAssign_keeps obj key x k v :
  lookup obj k = Some v -> nullish v = false ->
  lookup (nullishAssign obj key x) k = Some v.
Proof.
  intros Hk Hv. unfold nullishAssign.
  destruct (String.eqb_spec key k) as [->|Hne].
  - now rewrite Hk, Hv.
  - destruct (lookup obj key) as [old|]; [destruct (nullish old)|destruct (inherited key)];
      try exact Hk; now rewrite assign_lookup_other.
Qed.

Lemma nullishAssign_other obj key x k :
  key <> k -> lookup (nullishAssign obj key x) k = lookup obj k.
Proof.
  intros Hne. unfold nullishAssign.
  destruct (lookup obj key) as [old|]; [destruct (nullish old)|destruct (inherited key)];
    try reflexivity; now apply assign_lookup_other.
Qed.

Lemma nullishAssign_sets obj key x :
  inherited key = false ->
  lookup obj key = None \/ (exists old, lookup obj key = Some old /\ nullish old = true) ->
  lookup (nullishAssign obj key x) key = Some x.
Proof.
  intros Hkey Hlacks. unfold nullishAssign.
  destruct Hlacks as [-> | (old & -> & ->)].
  - rewrite Hkey. apply assign_lookup_same.
  - apply assign_lookup_same.
Qed.

Lemma nullishAssign_present obj key x :
  inherited key = false -> nullish x = false ->
  exists v, lookup (nullishAssign obj key x) key = Some v /\ nullish v = false.
Proof.
  intros Hkey Hx. unfold nullishAssign.
  destruct (lookup obj key) as [old|] eqn:Hold.
  - destruct (nullish old) eqn:Hnull.
    + exists x. split; [apply assign_lookup_same | exact Hx].
    + exists old. split; [exact Hold | exact Hnull].
  - rewrite Hkey. exists x. split; [apply assign_lookup_same | exact Hx].
Qed.

Lemma truthy_not_nullish (v : value) : truthy v = true -> nullish v = false.
Proof. destruct v; simpl; congruence. Qed.

Lemma addTagPiece_keeps tags tag k v :
  lookup tags k = Some v -> nullish v = false ->
  lookup (addTagPiece tags tag) k = Some v.
Proof.
  intros Hk Hv. unfold addTagPiece.
  destruct (hd EmptyString (stringSplit tag ":")) as [|c key]; [exact Hk|].
  destruct (nth_error (stringSplit tag ":") 1) as [[|d value]|]; try exact Hk.
  now apply nullishAssign_keeps.
Qed.

Lemma addTagPieces_keep pieces tags k v :
  lookup tags k = Some v -> nullish v = false ->
  lookup (fold_left addTagPiece pieces tags) k = Some v.
Proof.
  revert tags. induction pieces as [|tag pieces IH]; intros tags Hk Hv; simpl.
  - exact Hk.
  - apply IH; [now apply addTagPiece_keeps | exact Hv].
Qed.

Lemma addTagPieces_land pieces tags tag key value more :
  In tag pieces ->
  stringSplit tag ":" = key :: value :: more ->
  key <> "" -> value <> "" -> inherited key = false ->
  exists v, lookup (fold_left addTagPiece pieces tags) key = Some v
            /\ nullish v = false.
Proof.
  intros Hin Hsplit Hkey Hvalue Hown. revert tags.
  induction pieces as [|piece pieces IH]; intros tags; [destruct Hin|].
  simpl. destruct Hin as [->|Hin]; [|now apply IH].
  assert (Hhere : exists v, lookup (addTagPiece tags tag) key = Some v
                            /\ nullish v = false).
  { unfold addTagPiece. rewrite Hsplit. cbn [hd nth_error].
    destruct key as [|c key]; [congruence|].
    destruct value as [|d value]; [congruence|].
    now apply nullishAssign_present. }
  destruct Hhere as (v & Hv & Hnull). exists v.
  split; [now apply addTagPieces_keep | exact Hnull].
Qed.

Lemma addDDTagsToHandler_keeps handlerTags k v :
  lookup (own handlerTags) k = Some v -> nullish v = false ->
  lookup (fst (addDDTagsToHandler custom handlerTags)) k = Some v.
Proof.
  intros Hk Hv. unfold addDDTagsToHandler.
  set (t0 := own handlerTags) in *.
  set (datadog := getOpt custom "datadog").
  assert (H3 : lookup
    (if truthy (getOpt datadog "version")
     then nullishAssign
            (if truthy (getOpt datadog "env")
             then nullishAssign
                    (if truthy (getOpt datadog "service")
                     then nullishAssign t0 TagKeys_Service (getOpt datadog "service")
                     else t0) TagKeys_Env (getOpt datadog "env")
             else if truthy (getOpt datadog "service")
                  then nullishAssign t0 TagKeys_Service (getOpt datadog "service")
                  else t0) TagKeys_Version (getOpt datadog "version")
     else if truthy (getOpt datadog "env")
          then nullishAssign
                 (if truthy (getOpt datadog "service")
                  then nullishAssign t0 TagKeys_Service (getOpt datadog "service")
                  else t0) TagKeys_Env (getOpt datadog "env")
          else if truthy (getOpt datadog "service")
               then nullishAssign t0 TagKeys_Service (getOpt datadog "service")
               else t0) k = Some v).
  { destruct (truthy (getOpt datadog "version")),
      (truthy (getOpt datadog "env")), (truthy (getOpt datadog "service"));
      repeat apply nullishAssign_keeps; assumption. }
  destruct (truthy (getOpt datadog "tags")); [|exact H3].
  destruct (getOpt datadog "tags"); try exact H3.
  cbn [fst]. now apply addTagPieces_keep.
Qed.

(** How the body ends depends on [custom] alone. *)
Lemma addDDTagsToHandler_outcome handlerTags :
  snd (addDDTagsToHandler custom handlerTags)
  = if truthy (getOpt (getOpt custom "datadog") "tags")
    then match getOpt (getOpt custom "datadog") "tags" with
         | VStr _ => Returns tt
         | _ => ThrowsTypeError
         end
    else Returns tt.
Proof.
  unfold addDDTagsToHandler.
  destruct (truthy (getOpt (getOpt custom "datadog") "tags")); [|reflexivity].
  destruct (getOpt (getOpt custom "datadog") "tags"); reflexivity.
Qed.

Lemma addDDTagsEach_keeps handlers :
  Forall2
    (fun before after =>
       forall k v,
         lookup (own before) k = Some v -> nullish v = false ->
         lookup (own after) k = Some v)
    handlers (fst (addDDTagsEach custom handlers)).
Proof.
  assert (Hsame : forall l : list (option (list (string * value))),
    Forall2 (fun before after =>
               forall k v,
                 lookup (own before) k = Some v -> nullish v = false ->
                 lookup (own after) k = Some v) l l).
  { induction l; constructor; auto. }
  induction handlers as [|h rest IH]; simpl; [constructor|].
  pose proof (addDDTagsToHandler_keeps h) as Hh.
  destruct (addDDTagsToHandler custom h) as [after [[]|message|]];
    cbn [fst] in Hh.
  - destruct (addDDTagsEach custom rest) as [rest' outcome]. cbn [fst] in *.
    constructor; [exact Hh | exact IH].
  - cbn [fst]. constructor; [exact Hh | apply Hsame].
  - cbn [fst]. constructor; [exact Hh | apply Hsame].
Qed.

Lemma addDDTagsEach_returns handlers :
  snd (addDDTagsEach custom handlers) = Returns tt ->
  fst (addDDTagsEach custom handlers)
  = map (fun h => Some (fst (addDDTagsToHandler custom h))) handlers.
Proof.
  induction handlers as [|h rest IH]; simpl; [reflexivity|].
  destruct (addDDTagsToHandler custom h) as [after [[]|message|]];
    cbn [fst snd]; try discriminate.
  destruct (addDDTagsEach custom rest) as [rest' outcome]. cbn [fst snd] in *.
  intros Hok. now rewrite (IH Hok).
Qed.

Lemma addDDTagsEach_string_tags handlers s :
  getOpt (getOpt custom "datadog") "tags" = VStr s ->
  snd (addDDTagsEach custom handlers) = Returns tt.
Proof.
  intros Hs. induction handlers as [|h rest IH]; simpl; [reflexivity|].
  pose proof (addDDTagsToHandler_outcome h) as Hout. rewrite Hs in Hout.
  destruct (addDDTagsToHandler custom h) as [after outcome]. cbn [snd] in Hout.
  assert (Hreturns : outcome = Returns tt)
    by (destruct (truthy (VStr s)); exact Hout).
  clear Hout. subst outcome.
  destruct (addDDTagsEach custom rest) as [rest' outcome]. exact IH.
Qed.

End DDTags.

Lemma addDDTags_unfold (custom : value) handlers :
  addDDTags custom handlers
  = addDDTagsEach (match custom with VUndefined => VObj [] | _ => custom end) handlers
  /\ getOpt (match custom with VUndefined => VObj [] | _ => custom end) "datadog"
     = getOpt custom "datadog".
Proof. split; [reflexivity | now destruct custom]. Qed.

(** X26.  [addDDTags] never overrides a tag: whatever own tag of a
    function had a value other than [null] and [undefined] before the call
    has the same value afterwards, however the call ends. *)
Theorem addDDTags_keeps_existing_tags
  (custom : value) (handlers : list (option (list (string * value)))) :
  Forall2
    (fun before after =>
       forall k v,
         lookup (match before with Some t => t | None => [] end) k = Some v ->
         nullish v = false ->
         lookup (match after with Some t => t | None => [] end) k = Some v)
    handlers (fst (addDDTags custom handlers)).
Proof.
  destruct (addDDTags_unfold custom handlers) as [-> _].
  apply addDDTagsEach_keeps.
Qed.

(** X27.  When [custom.datadog.tags] is truthy but not a string, [addDDTags]
    throws a [TypeError] while handling the first function: later functions
    are left untouched. *)
Theorem addDDTags_tags_must_be_a_string
  (custom : value) (handlerTags : option (list (string * value)))
  (rest : list (option (list (string * value)))) :
  truthy (getOpt (getOpt custom "datadog") "tags") = true ->
  (forall s, getOpt (getOpt custom "datadog") "tags" <> VStr s) ->
  exists first,
    addDDTags custom (handlerTags :: rest) = (Some first :: rest, ThrowsTypeError).
Proof.
  intros Htruthy Hnot.
  destruct (addDDTags_unfold custom (handlerTags :: rest)) as [-> Hdatadog].
  set (custom' := match custom with VUndefined => VObj [] | _ => custom end) in *.
  cbn [addDDTagsEach].
  pose proof (addDDTagsToHandler_outcome custom' handlerTags) as Hout.
  rewrite Hdatadog, Htruthy in Hout.
  destruct (addDDTagsToHandler custom' handlerTags) as [after outcome].
  cbn [snd] in Hout. exists after.
  destruct (getOpt (getOpt custom "datadog") "tags") as [| | | |s| |];
    try (subst outcome; reflexivity).
  now destruct (Hnot s).
Qed.

Lemma addDDTags_tags_must_be_a_string_witness :
  exists first,
    addDDTags customListTags [None; Some [("team", VStr "mine")]]
    = ([Some first; Some [("team", VStr "mine")]], ThrowsTypeError).
Proof.
  apply (addDDTags_tags_must_be_a_string customListTags None
           [Some [("team", VStr "mine")]]).
  - reflexivity.
  - discriminate.
Defined.

(** X28.  When [custom.datadog.tags] is a string, [addDDTags] returns, and
    for every comma-separated piece of it that reads [key:value] with both
    non-empty (anything after a second colon is dropped), where [key] is not
    a property inherited from [Object.prototype], every function ends with
    an own tag [key] that is neither [null] nor [undefined]. *)
Theorem addDDTags_adds_listed_tags
  (custom : value) (handlers : list (option (list (string * value))))
  (s tag key value : string) (more : list string) :
  getOpt (getOpt custom "datadog") "tags" = VStr s ->
  In tag (stringSplit s ",") ->
  stringSplit tag ":" = key :: value :: more ->
  key <> "" -> value <> "" -> inherited key = false ->
  snd (addDDTags custom handlers) = Returns tt
  /\ Forall
       (fun after =>
          exists t' v, after = Some t' /\ lookup t' key = Some v /\ nullish v = false)
       (fst (addDDTags custom handlers)).
Proof.
  intros Hs Hin Hsplit Hkey Hvalue Hown.
  destruct (addDDTags_unfold custom handlers) as [-> Hdatadog].
  set (custom' := match custom with VUndefined => VObj [] | _ => custom end) in *.
  rewrite <- Hdatadog in Hs.
  pose proof (addDDTagsEach_string_tags custom' handlers s Hs) as Hok.
  split; [exact Hok|].
  rewrite (addDDTagsEach_returns custom' handlers Hok).
  assert (Htruthy : truthy (VStr s) = true).
  { destruct s as [|c s]; [|reflexivity].
    destruct Hin as [<-|[]]. discriminate. }
  apply Forall_map, Forall_forall. intros h _.
  unfold addDDTagsToHandler. rewrite Hs, Htruthy. cbn [fst].
  edestruct addTagPieces_land as (v & Hv & Hnull); eauto.
Qed.

Lemma addDDTags_adds_listed_tags_witness :
  snd (addDDTags customDatadog [None; Some [("team", VStr "mine")]]) = Returns tt
  /\ Forall
       (fun after =>
          exists t' v, after = Some t' /\ lookup t' "tier" = Some v /\ nullish v = false)
       (fst (addDDTags customDatadog [None; Some [("team", VStr "mine")]])).
Proof.
  apply (addDDTags_adds_listed_tags customDatadog
           [None; Some [("team", VStr "mine")]]
           "team:checkout,broken,tier:1" "tier:1" "tier" "1" []).
  - reflexivity.
  - right. right. now left.
  - reflexivity.
  - discriminate.
  - discriminate.
  - reflexivity.
Defined.

Section DDTagsDefaults.

Variable custom : value.

Local Abbreviation datadog := (getOpt custom "datadog").

(** One guarded [??=] of the body. *)
Lemma guarded_keeps (c : bool) obj key x k v :
  lookup obj k = Some v -> nullish v = false ->
  lookup (if c then nullishAssign obj key x else obj) k = Some v.
Proof. destruct c; [apply nullishAssign_keeps | trivial]. Qed.

Lemma guarded_other (c : bool) obj key x k :
  key <> k -> lookup (if c then nullishAssign obj key x else obj) k = lookup obj k.
Proof. destruct c; [apply nullishAssign_other | trivial]. Qed.

Lemma addDDTagsToHandler_defaults_untyped handlerTags k :
  In k ["service"; "env"; "version"] ->
  truthy (getOpt datadog k) = true ->
  lookup (match handlerTags with Some t => t | None => [] end) k = None
  \/ (exists old,
         lookup (match handlerTags with Some t => t | None => [] end) k = Some old
         /\ nullish old = true) ->
  lookup (fst (addDDTagsToHandler custom handlerTags)) k = Some (getOpt datadog k).
Proof.
  intros Hk Htruthy Hlacks.
  pose proof (truthy_not_nullish _ Htruthy) as Hvalue.
  unfold addDDTagsToHandler.
  set (t0 := match handlerTags with Some t => t | None => [] end) in *.
  assert (H3 : lookup
    (if truthy (getOpt datadog "version")
     then nullishAssign
            (if truthy (getOpt datadog "env")
             then nullishAssign
                    (if truthy (getOpt datadog "service")
                     then nullishAssign t0 TagKeys_Service (getOpt datadog "service")
                     else t0) TagKeys_Env (getOpt datadog "env")
             else if truthy (getOpt datadog "service")
                  then nullishAssign t0 TagKeys_Service (getOpt datadog "service")
                  else t0) TagKeys_Version (getOpt datadog "version")
     else if truthy (getOpt datadog "env")
          then nullishAssign
                 (if truthy (getOpt datadog "service")
                  then nullishAssign t0 TagKeys_Service (getOpt datadog "service")
                  else t0) TagKeys_Env (getOpt datadog "env")
          else if truthy (getOpt datadog "service")
               then nullishAssign t0 TagKeys_Service (getOpt datadog "service")
               else t0) k = Some (getOpt datadog k)).
  { destruct Hk as [<-|[<-|[<-|[]]]].
    - rewrite Htruthy.
      assert (H1 : lookup (nullishAssign t0 TagKeys_Service (getOpt datadog "service"))
                          "service" = Some (getOpt datadog "service"))
        by (now apply nullishAssign_sets).
      destruct (truthy (getOpt datadog "version")), (truthy (getOpt datadog "env"));
        repeat (first [exact H1 | exact Hvalue | apply nullishAssign_keeps]).
    - rewrite Htruthy.
      assert (H2 : lookup
        (nullishAssign
           (if truthy (getOpt datadog "service")
            then nullishAssign t0 TagKeys_Service (getOpt datadog "service")
            else t0) TagKeys_Env (getOpt datadog "env")) "env"
        = Some (getOpt datadog "env")).
      { apply nullishAssign_sets; [reflexivity|].
        rewrite guarded_other by discriminate. exact Hlacks. }
      destruct (truthy (getOpt datadog "version"));
        repeat (first [exact H2 | exact Hvalue | apply nullishAssign_keeps]).
    - rewrite Htruthy. apply nullishAssign_sets; [reflexivity|].
      destruct (truthy (getOpt datadog "env"));
        rewrite ?nullishAssign_other, ?guarded_other by discriminate; exact Hlacks. }
  destruct (truthy (getOpt datadog "tags")); [|exact H3].
  destruct (getOpt datadog "tags"); try exact H3.
  cbn [fst]. now apply addTagPieces_keep.
Qed.

End DDTagsDefaults.

(** X29.  In a call of [addDDTags] that returns, a function without an own
    [service], [env] or [version] tag (or with a [null] one) gets the value
    of [custom.datadog.service], [.env] or [.version], whenever that value
    is truthy. *)
Theorem addDDTags_defaults
  (custom : value) (handlers : list (option (list (string * value)))) :
  snd (addDDTags custom handlers) = Returns tt ->
  Forall2
    (fun before after =>
       forall k,
         In k ["service"; "env"; "version"] ->
         truthy (getOpt (getOpt custom "datadog") k) = true ->
         lookup (match before with Some t => t | None => [] end) k = None
         \/ (exists old,
                lookup (match before with Some t => t | None => [] end) k = Some old
                /\ nullish old = true) ->
         lookup (match after with Some t => t | None => [] end) k
         = Some (getOpt (getOpt custom "datadog") k))
    handlers (fst (addDDTags custom handlers)).
Proof.
  destruct (addDDTags_unfold custom handlers) as [-> Hdatadog].
  set (custom' := match custom with VUndefined => VObj [] | _ => custom end) in *.
  intros Hok. rewrite (addDDTagsEach_returns custom' handlers Hok).
  apply Forall2_map_right. intros h k Hk Htruthy Hlacks.
  rewrite <- Hdatadog in *.
  now apply addDDTagsToHandler_defaults_untyped.
Qed.

Lemma addDDTags_defaults_witness :
  Forall2
    (fun before after =>
       forall k,
         In k ["service"; "env"; "version"] ->
         truthy (getOpt (getOpt customDatadog "datadog") k) = true ->
         lookup (match before with Some t => t | None => [] end) k = None
         \/ (exists old,
                lookup (match before with Some t => t | None => [] end) k = Some old
                /\ nullish old = true) ->
         lookup (match after with Some t => t | None => [] end) k
         = Some (getOpt (getOpt customDatadog "datadog") k))
    [None; Some [("team", VStr "mine"); ("env", VNull)]]
    (fst (addDDTags customDatadog [None; Some [("team", VStr "mine"); ("env", VNull)]])).
Proof.
  apply (addDDTags_defaults customDatadog
           [None; Some [("team", VStr "mine"); ("env", VNull)]]).
  reflexivity.
Defined.
